(** * ChainCheck: a shallow embedding of the product-authenticity contract

    The Solidity contract [ChainCheck] is embedded as pure functions over an
    explicit storage record.  Unsigned 256-bit integers, 32-byte hashes and
    addresses are binary naturals; storage mappings are finite maps read
    through their Solidity default value; a reverted call returns [Revert]
    and leaves the caller with the storage it started from.  Arithmetic is
    the checked arithmetic of Solidity 0.8: an increment of the largest
    value reverts with [Panic 0x11]. *)

From stdpp Require Import gmap strings list fin_maps.
From Stdlib Require Import NArith Lia.

Local Open Scope N_scope.

(** ** Value types *)

Abbreviation uint256 := N (only parsing).
Abbreviation bytes32 := N (only parsing).
Abbreviation address := N (only parsing).

Definition MAX_UINT256 : N := 2 ^ 256 - 1.

(** [bytes(s).length == 0] *)
Definition is_empty (s : string) : bool :=
  match s with
  | EmptyString => true
  | String _ _ => false
  end.

(** ** Errors and results *)

Inductive Error : Type :=
  | NotOwner
  | NotAuthorized
  | InvalidAddress
  | InvalidBatchId
  | BatchExists
  | BatchNotFound
  | EmptyName
  | EmptyBrand
  | NoSerials
  | InvalidOwner
  | ContractPaused
  | ContractNotPaused
  | SerialNotInBatch
  | ErrorString (msg : string)   (* a failed [require(cond, msg)] *)
  | Panic (code : N).            (* compiler-inserted checks *)

Inductive Result (A : Type) : Type :=
  | Ok (a : A)
  | Revert (e : Error).

Arguments Ok {A} a.
Arguments Revert {A} e.

Definition ReentrantCall : Error := ErrorString "ReentrancyGuard: reentrant call".
Definition LengthMismatch : Error := ErrorString "ChainCheck: arrays length mismatch".
Definition ArithmeticOverflow : Error := Panic 17.
Definition IndexOutOfBounds : Error := Panic 50.

Definition rbind {A B : Type} (r : Result A) (k : A -> Result B) : Result B :=
  match r with
  | Ok a => k a
  | Revert e => Revert e
  end.

Notation "x <- r ;; k" := (rbind r (fun x => k))
  (at level 100, r at next level, right associativity).

(** [x++] on a [uint256] under checked arithmetic *)
Definition checked_incr (x : uint256) : Result uint256 :=
  if x =? MAX_UINT256 then Revert ArithmeticOverflow else Ok (x + 1).

(** ** Storage *)

Record Product : Type := mkProduct {
  name : string;
  brand : string;
  exists_ : bool;
  registeredAt : uint256;
  ipfsHash : string;
  description : string;
  imageUrl : string
}.

Definition empty_product : Product :=
  mkProduct EmptyString EmptyString false 0 EmptyString EmptyString EmptyString.

Record VerificationRecord : Type := mkVerificationRecord {
  serialHash : bytes32;
  batchId : uint256;
  verifier : address;
  timestamp : uint256;
  isAuthentic : bool
}.

Inductive Event : Type :=
  | ProductRegistered (batchId : uint256) (name brand : string) (serialCount : uint256)
  | Verified (serialHash : bytes32) (batchId : uint256) (isAuthentic : bool)
             (verifier : address) (timestamp : uint256)
  | ManufacturerAuthorized (maker : address) (authorized : bool)
  | Paused (paused : bool).

Record State : Type := mkState {
  _locked : uint256;
  serialVerified : gmap N bool;
  serialToBatch : gmap N N;
  products : gmap N Product;
  authorizedMakers : gmap N bool;
  owner : address;
  totalProducts : uint256;
  totalVerifications : uint256;
  batchVerificationCount : gmap N N;
  manufacturerList : list N;
  paused : bool;
  verificationHistory : gmap N (list VerificationRecord);
  events : list Event   (* the log of emitted events, oldest first *)
}.

(** The transaction context of one call. *)
Record Env : Type := mkEnv {
  msg_sender : address;
  block_timestamp : uint256
}.

(** Reading a mapping: an absent key reads as the type's zero value. *)
Definition serialVerified_at (s : State) (h : bytes32) : bool :=
  default false (serialVerified s !! h).
Definition serialToBatch_at (s : State) (h : bytes32) : uint256 :=
  default 0 (serialToBatch s !! h).
Definition products_at (s : State) (b : uint256) : Product :=
  default empty_product (products s !! b).
Definition authorizedMakers_at (s : State) (a : address) : bool :=
  default false (authorizedMakers s !! a).
Definition batchVerificationCount_at (s : State) (b : uint256) : uint256 :=
  default 0 (batchVerificationCount s !! b).
Definition verificationHistory_at (s : State) (h : bytes32) : list VerificationRecord :=
  default [] (verificationHistory s !! h).

(** Field updates. *)
Definition set_locked (v : uint256) (s : State) : State :=
  mkState v (serialVerified s) (serialToBatch s) (products s)
    (authorizedMakers s) (owner s) (totalProducts s) (totalVerifications s)
    (batchVerificationCount s) (manufacturerList s) (paused s)
    (verificationHistory s) (events s).
Definition set_serialVerified (v : gmap N bool) (s : State) : State :=
  mkState (_locked s) v (serialToBatch s) (products s)
    (authorizedMakers s) (owner s) (totalProducts s) (totalVerifications s)
    (batchVerificationCount s) (manufacturerList s) (paused s)
    (verificationHistory s) (events s).
Definition set_serialToBatch (v : gmap N N) (s : State) : State :=
  mkState (_locked s) (serialVerified s) v (products s)
    (authorizedMakers s) (owner s) (totalProducts s) (totalVerifications s)
    (batchVerificationCount s) (manufacturerList s) (paused s)
    (verificationHistory s) (events s).
Definition set_products (v : gmap N Product) (s : State) : State :=
  mkState (_locked s) (serialVerified s) (serialToBatch s) v
    (authorizedMakers s) (owner s) (totalProducts s) (totalVerifications s)
    (batchVerificationCount s) (manufacturerList s) (paused s)
    (verificationHistory s) (events s).
Definition set_authorizedMakers (v : gmap N bool) (s : State) : State :=
  mkState (_locked s) (serialVerified s) (serialToBatch s) (products s)
    v (owner s) (totalProducts s) (totalVerifications s)
    (batchVerificationCount s) (manufacturerList s) (paused s)
    (verificationHistory s) (events s).
Definition set_owner (v : address) (s : State) : State :=
  mkState (_locked s) (serialVerified s) (serialToBatch s) (products s)
    (authorizedMakers s) v (totalProducts s) (totalVerifications s)
    (batchVerificationCount s) (manufacturerList s) (paused s)
    (verificationHistory s) (events s).
Definition set_totalProducts (v : uint256) (s : State) : State :=
  mkState (_locked s) (serialVerified s) (serialToBatch s) (products s)
    (authorizedMakers s) (owner s) v (totalVerifications s)
    (batchVerificationCount s) (manufacturerList s) (paused s)
    (verificationHistory s) (events s).
Definition set_totalVerifications (v : uint256) (s : State) : State :=
  mkState (_locked s) (serialVerified s) (serialToBatch s) (products s)
    (authorizedMakers s) (owner s) (totalProducts s) v
    (batchVerificationCount s) (manufacturerList s) (paused s)
    (verificationHistory s) (events s).
Definition set_batchVerificationCount (v : gmap N N) (s : State) : State :=
  mkState (_locked s) (serialVerified s) (serialToBatch s) (products s)
    (authorizedMakers s) (owner s) (totalProducts s) (totalVerifications s)
    v (manufacturerList s) (paused s)
    (verificationHistory s) (events s).
Definition set_manufacturerList (v : list N) (s : State) : State :=
  mkState (_locked s) (serialVerified s) (serialToBatch s) (products s)
    (authorizedMakers s) (owner s) (totalProducts s) (totalVerifications s)
    (batchVerificationCount s) v (paused s)
    (verificationHistory s) (events s).
Definition set_paused (v : bool) (s : State) : State :=
  mkState (_locked s) (serialVerified s) (serialToBatch s) (products s)
    (authorizedMakers s) (owner s) (totalProducts s) (totalVerifications s)
    (batchVerificationCount s) (manufacturerList s) v
    (verificationHistory s) (events s).
Definition set_verificationHistory (v : gmap N (list VerificationRecord)) (s : State) : State :=
  mkState (_locked s) (serialVerified s) (serialToBatch s) (products s)
    (authorizedMakers s) (owner s) (totalProducts s) (totalVerifications s)
    (batchVerificationCount s) (manufacturerList s) (paused s)
    v (events s).
Definition emit (ev : Event) (s : State) : State :=
  mkState (_locked s) (serialVerified s) (serialToBatch s) (products s)
    (authorizedMakers s) (owner s) (totalProducts s) (totalVerifications s)
    (batchVerificationCount s) (manufacturerList s) (paused s)
    (verificationHistory s) (events s ++ [ev]).

(** A contract call: a storage transformer that may revert. *)
Definition Call (A : Type) : Type := State -> Result (A * State).

(** ** Modifiers *)

Definition nonReentrant {A : Type} (body : Call A) : Call A := fun s =>
  if _locked s =? 1 then Revert ReentrantCall
  else
    match body (set_locked 1 s) with
    | Ok (r, s') => Ok (r, set_locked 0 s')
    | Revert e => Revert e
    end.

Definition onlyOwner {A : Type} (e : Env) (body : Call A) : Call A := fun s =>
  if negb (msg_sender e =? owner s) then Revert NotOwner else body s.

Definition onlyMaker {A : Type} (e : Env) (body : Call A) : Call A := fun s =>
  if negb (authorizedMakers_at s (msg_sender e)) then Revert NotAuthorized else body s.

Definition whenNotPaused {A : Type} (body : Call A) : Call A := fun s =>
  if paused s then Revert ContractPaused else body s.

Definition whenPaused {A : Type} (body : Call A) : Call A := fun s =>
  if negb (paused s) then Revert ContractNotPaused else body s.

(** ** The contract *)

(** [constructor]: the deployer becomes owner and first manufacturer. *)
Definition constructor (e : Env) : State :=
  let s0 := mkState 0 ∅ ∅ ∅ ∅ 0 0 0 ∅ [] false ∅ [] in
  let s1 := set_owner (msg_sender e) s0 in
  let s2 := set_authorizedMakers (<[msg_sender e := true]> (authorizedMakers s1)) s1 in
  let s3 := set_manufacturerList (manufacturerList s2 ++ [msg_sender e]) s2 in
  emit (ManufacturerAuthorized (msg_sender e) true) s3.

(** The removal loop of [authorizeManufacturer]: scan from index [i]; at the
    first slot holding [maker], overwrite it with the last element, pop, and
    stop.  [remaining] is [manufacturerList.length - i]. *)
Fixpoint remove_loop (maker : address) (remaining i : nat) (l : list N)
  : Result (list N) :=
  match remaining with
  | O => Ok l
  | S remaining' =>
    match l !! i with
    | None => Revert IndexOutOfBounds
    | Some x =>
      if x =? maker then
        match l !! (length l - 1)%nat with
        | None => Revert IndexOutOfBounds
        | Some y => Ok (removelast (<[i := y]> l))
        end
      else remove_loop maker remaining' (S i) l
    end
  end.

Definition authorizeManufacturer_body (maker : address) (authorized : bool)
  : Call unit := fun s =>
  if maker =? 0 then Revert InvalidAddress else
  let wasAuthorized := authorizedMakers_at s maker in
  let s1 := set_authorizedMakers (<[maker := authorized]> (authorizedMakers s)) s in
  s2 <- (if authorized && negb wasAuthorized then
           Ok (set_manufacturerList (manufacturerList s1 ++ [maker]) s1)
         else if negb authorized && wasAuthorized then
           l <- remove_loop maker (length (manufacturerList s1)) 0 (manufacturerList s1) ;;
           Ok (set_manufacturerList l s1)
         else Ok s1) ;;
  Ok (tt, emit (ManufacturerAuthorized maker authorized) s2).

Definition authorizeManufacturer (e : Env) (maker : address) (authorized : bool)
  : Call unit :=
  onlyOwner e (nonReentrant (authorizeManufacturer_body maker authorized)).

Definition registerProduct_body (e : Env) (batchId : uint256)
    (name brand : string) (serialHashes : list N)
    (ipfsHash description imageUrl : string) : Call unit := fun s =>
  if batchId =? 0 then Revert InvalidBatchId else
  if is_empty name then Revert EmptyName else
  if is_empty brand then Revert EmptyBrand else
  if (length serialHashes =? 0)%nat then Revert NoSerials else
  if exists_ (products_at s batchId) then Revert BatchExists else
  let p := mkProduct name brand true (block_timestamp e) ipfsHash description imageUrl in
  let s1 := set_products (<[batchId := p]> (products s)) s in
  let s2 := set_serialToBatch
              (foldl (fun m h => <[h := batchId]> m) (serialToBatch s1) serialHashes) s1 in
  n <- checked_incr (totalProducts s2) ;;
  let s3 := set_totalProducts n s2 in
  Ok (tt, emit (ProductRegistered batchId name brand (N.of_nat (length serialHashes))) s3).

Definition registerProduct (e : Env) (batchId : uint256)
    (name brand : string) (serialHashes : list N)
    (ipfsHash description imageUrl : string) : Call unit :=
  onlyMaker e (whenNotPaused (nonReentrant
    (registerProduct_body e batchId name brand serialHashes ipfsHash description imageUrl))).

Definition verify_body (e : Env) (serialHash : bytes32) (batchId : uint256)
  : Call bool := fun s =>
  if batchId =? 0 then Revert InvalidBatchId else
  if negb (exists_ (products_at s batchId)) then Revert BatchNotFound else
  if negb (serialToBatch_at s serialHash =? batchId) then Revert SerialNotInBatch else
  let isAuthentic := negb (serialVerified_at s serialHash) in
  s1 <- (if isAuthentic then
           let s' := set_serialVerified (<[serialHash := true]> (serialVerified s)) s in
           tv <- checked_incr (totalVerifications s') ;;
           let s' := set_totalVerifications tv s' in
           bc <- checked_incr (batchVerificationCount_at s' batchId) ;;
           Ok (set_batchVerificationCount
                 (<[batchId := bc]> (batchVerificationCount s')) s')
         else Ok s) ;;
  let timestamp := block_timestamp e in
  let s2 := set_verificationHistory
              (<[serialHash := verificationHistory_at s1 serialHash ++
                   [mkVerificationRecord serialHash batchId (msg_sender e) timestamp isAuthentic]]>
                 (verificationHistory s1)) s1 in
  Ok (isAuthentic,
      emit (Verified serialHash batchId isAuthentic (msg_sender e) timestamp) s2).

Definition verify (e : Env) (serialHash : bytes32) (batchId : uint256) : Call bool :=
  whenNotPaused (nonReentrant (verify_body e serialHash batchId)).

Definition transferOwnership_body (newOwner : address) : Call unit := fun s =>
  if newOwner =? 0 then Revert InvalidAddress else
  if newOwner =? owner s then Revert InvalidOwner else
  let oldOwner := owner s in
  let s1 := set_owner newOwner s in
  let s2 := set_authorizedMakers (<[oldOwner := false]> (authorizedMakers s1)) s1 in
  let s3 := set_authorizedMakers (<[newOwner := true]> (authorizedMakers s2)) s2 in
  Ok (tt, emit (ManufacturerAuthorized newOwner true)
            (emit (ManufacturerAuthorized oldOwner false) s3)).

Definition transferOwnership (e : Env) (newOwner : address) : Call unit :=
  onlyOwner e (nonReentrant (transferOwnership_body newOwner)).

(** The loop of [batchVerify], from index [i] with [remaining] iterations
    left ([serialHashes.length - i]); [results] is the memory array being
    filled in place. *)
Fixpoint batchVerify_loop (e : Env) (serialHashes : list N) (batchIds : list N)
    (remaining i : nat) (results : list bool) (s : State)
  : Result (list bool * State) :=
  match remaining with
  | O => Ok (results, s)
  | S remaining' =>
    match serialHashes !! i, batchIds !! i with
    | Some h, Some b =>
      if b =? 0 then
        batchVerify_loop e serialHashes batchIds remaining' (S i) (<[i := false]> results) s
      else if negb (exists_ (products_at s b)) then
        batchVerify_loop e serialHashes batchIds remaining' (S i) (<[i := false]> results) s
      else if negb (serialToBatch_at s h =? b) then
        batchVerify_loop e serialHashes batchIds remaining' (S i) (<[i := false]> results) s
      else
        let isAuthentic := negb (serialVerified_at s h) in
        let results := <[i := isAuthentic]> results in
        s1 <- (if isAuthentic then
                 let s' := set_serialVerified (<[h := true]> (serialVerified s)) s in
                 tv <- checked_incr (totalVerifications s') ;;
                 let s' := set_totalVerifications tv s' in
                 bc <- checked_incr (batchVerificationCount_at s' b) ;;
                 Ok (set_batchVerificationCount
                       (<[b := bc]> (batchVerificationCount s')) s')
               else Ok s) ;;
        let verifyTimestamp := block_timestamp e in
        let s2 := set_verificationHistory
                    (<[h := verificationHistory_at s1 h ++
                         [mkVerificationRecord h b (msg_sender e) verifyTimestamp isAuthentic]]>
                       (verificationHistory s1)) s1 in
        let s3 := emit (Verified h b isAuthentic (msg_sender e) verifyTimestamp) s2 in
        batchVerify_loop e serialHashes batchIds remaining' (S i) results s3
    | _, _ => Revert IndexOutOfBounds
    end
  end.

Definition batchVerify_body (e : Env) (serialHashes : list N) (batchIds : list N)
  : Call (list bool) := fun s =>
  if negb (length serialHashes =? length batchIds)%nat then Revert LengthMismatch else
  let results := replicate (length serialHashes) false in
  batchVerify_loop e serialHashes batchIds (length serialHashes) 0 results s.

Definition batchVerify (e : Env) (serialHashes : list N) (batchIds : list N)
  : Call (list bool) :=
  whenNotPaused (nonReentrant (batchVerify_body e serialHashes batchIds)).

Definition pause_body : Call unit := fun s =>
  Ok (tt, emit (Paused true) (set_paused true s)).

Definition pause (e : Env) : Call unit :=
  onlyOwner e (whenNotPaused (nonReentrant pause_body)).

Definition unpause_body : Call unit := fun s =>
  Ok (tt, emit (Paused false) (set_paused false s)).

Definition unpause (e : Env) : Call unit :=
  onlyOwner e (whenPaused (nonReentrant unpause_body)).

Definition set_ipfsHash (v : string) (p : Product) : Product :=
  mkProduct (name p) (brand p) (exists_ p) (registeredAt p) v (description p) (imageUrl p).
Definition set_description (v : string) (p : Product) : Product :=
  mkProduct (name p) (brand p) (exists_ p) (registeredAt p) (ipfsHash p) v (imageUrl p).
Definition set_imageUrl (v : string) (p : Product) : Product :=
  mkProduct (name p) (brand p) (exists_ p) (registeredAt p) (ipfsHash p) (description p) v.

Definition updateProductMetadata_body (batchId : uint256)
    (ipfsHash description imageUrl : string) : Call unit := fun s =>
  if batchId =? 0 then Revert InvalidBatchId else
  if negb (exists_ (products_at s batchId)) then Revert BatchNotFound else
  let s1 := if negb (is_empty ipfsHash) then
              set_products (<[batchId := set_ipfsHash ipfsHash (products_at s batchId)]>
                              (products s)) s
            else s in
  let s2 := if negb (is_empty description) then
              set_products (<[batchId := set_description description (products_at s1 batchId)]>
                              (products s1)) s1
            else s1 in
  let s3 := if negb (is_empty imageUrl) then
              set_products (<[batchId := set_imageUrl imageUrl (products_at s2 batchId)]>
                              (products s2)) s2
            else s2 in
  Ok (tt, s3).

Definition updateProductMetadata (e : Env) (batchId : uint256)
    (ipfsHash description imageUrl : string) : Call unit :=
  onlyMaker e (whenNotPaused (nonReentrant
    (updateProductMetadata_body batchId ipfsHash description imageUrl))).

(** Read-only entry points. *)
Definition isSerialVerified (s : State) (serialHash : bytes32) : bool :=
  serialVerified_at s serialHash.
Definition getManufacturers (s : State) : list N := manufacturerList s.
Definition getStatistics (s : State) : uint256 * uint256 * uint256 :=
  (totalProducts s, totalVerifications s, N.of_nat (length (manufacturerList s))).
Definition getVerificationHistory (s : State) (serialHash : bytes32)
  : list VerificationRecord := verificationHistory_at s serialHash.
Definition getVerificationCount (s : State) (serialHash : bytes32) : uint256 :=
  N.of_nat (length (verificationHistory_at s serialHash)).

(** ** Entry-wise reading of [batchVerify] *)

(** The three soft-failure tests of one [batchVerify] entry. *)
Definition entry_rejected (s : State) (h : bytes32) (b : uint256) : bool :=
  (b =? 0) || negb (exists_ (products_at s b)) || negb (serialToBatch_at s h =? b).

(** Follows the specification's wording, for comparison with
    [batchVerify_loop]: a rejected entry yields [false] and leaves the
    storage alone; any other entry is one run of the body of [verify]. *)
Definition verify_entry (e : Env) (h : bytes32) (b : uint256) : Call bool := fun s =>
  if entry_rejected s h b then Ok (false, s) else verify_body e h b s.

(** Follows the specification's wording: the entries are processed left to
    right, each on the storage left by the previous one, and the results are
    collected in input order. *)
Fixpoint verify_entries (e : Env) (hs : list N) (bs : list N) : Call (list bool) := fun s =>
  match hs, bs with
  | h :: hs', b :: bs' =>
    p <- verify_entry e h b s ;;
    q <- verify_entries e hs' bs' (snd p) ;;
    Ok (fst p :: fst q, snd q)
  | _, _ => Ok ([], s)
  end.

(** ** Transactions and traces *)

Inductive Op : Type :=
  | OpAuthorizeManufacturer (maker : address) (authorized : bool)
  | OpRegisterProduct (batchId : uint256) (name brand : string) (serialHashes : list N)
                      (ipfsHash description imageUrl : string)
  | OpVerify (serialHash : bytes32) (batchId : uint256)
  | OpTransferOwnership (newOwner : address)
  | OpBatchVerify (serialHashes : list N) (batchIds : list N)
  | OpPause
  | OpUnpause
  | OpUpdateProductMetadata (batchId : uint256) (ipfsHash description imageUrl : string).

Inductive Ret : Type :=
  | RetUnit
  | RetBool (b : bool)
  | RetBools (bs : list bool).

Definition returning {A : Type} (f : A -> Ret) (r : Result (A * State)) : Result (Ret * State) :=
  match r with
  | Ok (a, s) => Ok (f a, s)
  | Revert err => Revert err
  end.

(** One external call to the contract. *)
Definition exec (e : Env) (op : Op) : Call Ret := fun s =>
  match op with
  | OpAuthorizeManufacturer maker authorized =>
      returning (fun _ => RetUnit) (authorizeManufacturer e maker authorized s)
  | OpRegisterProduct b nm br hs ip de im =>
      returning (fun _ => RetUnit) (registerProduct e b nm br hs ip de im s)
  | OpVerify h b => returning RetBool (verify e h b s)
  | OpTransferOwnership newOwner =>
      returning (fun _ => RetUnit) (transferOwnership e newOwner s)
  | OpBatchVerify hs bs => returning RetBools (batchVerify e hs bs s)
  | OpPause => returning (fun _ => RetUnit) (pause e s)
  | OpUnpause => returning (fun _ => RetUnit) (unpause e s)
  | OpUpdateProductMetadata b ip de im =>
      returning (fun _ => RetUnit) (updateProductMetadata e b ip de im s)
  end.

(** The storage after a transaction: a reverted call changes nothing. *)
Definition step (tx : Env * Op) (s : State) : State :=
  match exec (fst tx) (snd tx) s with
  | Ok (_, s') => s'
  | Revert _ => s
  end.

Definition run (tr : list (Env * Op)) (s : State) : State :=
  foldl (fun s tx => step tx s) s tr.

(** How many [true] answers a list of (fingerprint, answer) pairs holds for [f]. *)
Definition authentic_slots (f : bytes32) (hrs : list (N * bool)) : nat :=
  length (filter (fun hr => (fst hr =? f) && snd hr = true) hrs).

(** One slot's contribution to [authentic_slots]. *)
Definition slot_hit (f h : bytes32) (r : bool) : nat :=
  if (h =? f) && r then 1%nat else 0%nat.

(** The number of [true] answers for a fingerprint, read off its status
    before ([v]) and after ([v']). *)
Definition newly_verified (v v' : bool) : nat := if negb v && v' then 1%nat else 0%nat.

(** How many times a successful call reported [f] authentic. *)
Definition authentic_in (f : bytes32) (op : Op) (r : Ret) : nat :=
  match op, r with
  | OpVerify h _, RetBool b => authentic_slots f [(h, b)]
  | OpBatchVerify hs _, RetBools rs => authentic_slots f (zip hs rs)
  | _, _ => 0%nat
  end.

(** How many times [f] is reported authentic along a trace started in [s]. *)
Fixpoint authentic_count (f : bytes32) (tr : list (Env * Op)) (s : State) : nat :=
  match tr with
  | [] => 0%nat
  | (e, op) :: tr' =>
    match exec e op s with
    | Ok (r, s') => (authentic_in f op r + authentic_count f tr' s')%nat
    | Revert _ => authentic_count f tr' s
    end
  end.

(** [op] is a registration that supplies fingerprint [f]. *)
Definition supplies (f : bytes32) (op : Op) : bool :=
  match op with
  | OpRegisterProduct _ _ _ hs _ _ _ => bool_decide (f ∈ hs)
  | _ => false
  end.

(** No successful registration along the trace started in [s] supplies [f]. *)
Fixpoint never_registered (f : bytes32) (tr : list (Env * Op)) (s : State) : bool :=
  match tr with
  | [] => true
  | (e, op) :: tr' =>
    match exec e op s with
    | Ok (_, s') => negb (supplies f op) && never_registered f tr' s'
    | Revert _ => never_registered f tr' s
    end
  end.

(** A deployment by address 1 on which batch 1 holds fingerprints 11 and 12. *)
Definition deployer : Env := mkEnv 1 1000.

Definition example_registered : State :=
  step (deployer,
        OpRegisterProduct 1 "Widget" "Acme" [11; 12] EmptyString EmptyString EmptyString)
       (constructor deployer).

(** The same deployment after batch 2 has claimed fingerprint 11 as well. *)
Definition example_overwritten : State :=
  step (deployer,
        OpRegisterProduct 2 "Gadget" "Acme" [11] EmptyString EmptyString EmptyString)
       example_registered.

(** The same deployment, paused by its owner. *)
Definition example_paused : State := step (deployer, OpPause) example_registered.

(** What a successful run of the body of [verify] did. *)
Record verify_effect (e : Env) (h : bytes32) (b : uint256) (s : State)
    (r : bool) (s' : State) : Prop := {
  ve_batch_nonzero : b <> 0;
  ve_batch_exists : exists_ (products_at s b) = true;
  ve_member : serialToBatch_at s h = b;
  ve_result : r = negb (serialVerified_at s h);
  ve_status : serialVerified_at s' h = true;
  ve_status_other : forall f, f <> h -> serialVerified_at s' f = serialVerified_at s f;
  ve_total : totalVerifications s' = if r then totalVerifications s + 1 else totalVerifications s;
  ve_count : batchVerificationCount_at s' b =
             if r then batchVerificationCount_at s b + 1 else batchVerificationCount_at s b;
  ve_count_other : forall b', b' <> b ->
             batchVerificationCount_at s' b' = batchVerificationCount_at s b';
  ve_count_same : r = false -> batchVerificationCount s' = batchVerificationCount s;
  ve_history : verificationHistory_at s' h =
               verificationHistory_at s h ++
                 [mkVerificationRecord h b (msg_sender e) (block_timestamp e) r];
  ve_history_other : forall f, f <> h ->
               verificationHistory_at s' f = verificationHistory_at s f;
  ve_events : events s' = events s ++
               [Verified h b r (msg_sender e) (block_timestamp e)];
  ve_locked : _locked s' = _locked s;
  ve_serialToBatch : serialToBatch s' = serialToBatch s;
  ve_products : products s' = products s;
  ve_authorizedMakers : authorizedMakers s' = authorizedMakers s;
  ve_owner : owner s' = owner s;
  ve_totalProducts : totalProducts s' = totalProducts s;
  ve_manufacturerList : manufacturerList s' = manufacturerList s;
  ve_paused : paused s' = paused s
}.

(** Fingerprint [f] is unknown to the storage: no recorded batch, never
    verified, empty history. *)
Record unregistered (f : bytes32) (s : State) : Prop := {
  un_member : serialToBatch_at s f = 0;
  un_status : serialVerified_at s f = false;
  un_history : verificationHistory_at s f = []
}.

(** Between calls the guard is unlocked and batch 0 does not exist. *)
Record at_rest (s : State) : Prop := {
  rest_locked : _locked s = 0;
  rest_batch_zero : exists_ (products_at s 0) = false
}.

(** ** Read-only bulk queries *)

(** [getProduct]: the seven fields of the stored batch, in return order. *)
Definition getProduct (s : State) (batchId : uint256)
  : string * string * bool * uint256 * string * string * string :=
  let product := products_at s batchId in
  (name product, brand product, exists_ product, registeredAt product,
   ipfsHash product, description product, imageUrl product).

(** The seven parallel memory arrays returned by [getProductsBatch]. *)
Record ProductArrays : Type := mkProductArrays {
  names : list string;
  brands : list string;
  existsArray : list bool;
  registeredAtArray : list N;
  ipfsHashes : list string;
  descriptions : list string;
  imageUrls : list string
}.

(** The loop of [getProductsBatch] from index [i], with [remaining]
    iterations left; every array has been allocated with [length] slots. *)
Fixpoint getProductsBatch_loop (s : State) (batchIds : list N) (remaining i : nat)
    (out : ProductArrays) : Result ProductArrays :=
  match remaining with
  | O => Ok out
  | S remaining' =>
    match batchIds !! i with
    | None => Revert IndexOutOfBounds
    | Some b =>
      let product := products_at s b in
      getProductsBatch_loop s batchIds remaining' (S i)
        (mkProductArrays
           (<[i := name product]> (names out))
           (<[i := brand product]> (brands out))
           (<[i := exists_ product]> (existsArray out))
           (<[i := registeredAt product]> (registeredAtArray out))
           (<[i := ipfsHash product]> (ipfsHashes out))
           (<[i := description product]> (descriptions out))
           (<[i := imageUrl product]> (imageUrls out)))
    end
  end.

Definition getProductsBatch (s : State) (batchIds : list N) : Result ProductArrays :=
  let length := length batchIds in
  getProductsBatch_loop s batchIds length 0
    (mkProductArrays (replicate length EmptyString) (replicate length EmptyString)
       (replicate length false) (replicate length 0) (replicate length EmptyString)
       (replicate length EmptyString) (replicate length EmptyString)).

(** The loop of [getVerificationHistoryBatch]. *)
Fixpoint getVerificationHistoryBatch_loop (s : State) (serialHashes : list N)
    (remaining i : nat) (records : list (list VerificationRecord))
  : Result (list (list VerificationRecord)) :=
  match remaining with
  | O => Ok records
  | S remaining' =>
    match serialHashes !! i with
    | None => Revert IndexOutOfBounds
    | Some h =>
      getVerificationHistoryBatch_loop s serialHashes remaining' (S i)
        (<[i := verificationHistory_at s h]> records)
    end
  end.

Definition getVerificationHistoryBatch (s : State) (serialHashes : list N)
  : Result (list (list VerificationRecord)) :=
  getVerificationHistoryBatch_loop s serialHashes (length serialHashes) 0
    (replicate (length serialHashes) []).

(** The columns of a list of [getProduct] results. *)
Definition columns
    (rows : list (string * string * bool * uint256 * string * string * string))
  : ProductArrays :=
  mkProductArrays
    (map (fun '(n, _, _, _, _, _, _) => n) rows)
    (map (fun '(_, b, _, _, _, _, _) => b) rows)
    (map (fun '(_, _, x, _, _, _, _) => x) rows)
    (map (fun '(_, _, _, r, _, _, _) => r) rows)
    (map (fun '(_, _, _, _, i, _, _) => i) rows)
    (map (fun '(_, _, _, _, _, d, _) => d) rows)
    (map (fun '(_, _, _, _, _, _, u) => u) rows).

(** The deployment of the examples after the first scan of fingerprint 11. *)
Definition example_verified : State :=
  step (deployer, OpVerify 11 1) example_registered.

(** The entries of a [batchVerify] call that pass the three soft-failure
    tests on storage [s], each with the answer it received. *)
Definition accepted_entries (s : State) (hs bs : list N) (rs : list bool)
  : list (N * N * bool) :=
  List.filter (fun x => negb (entry_rejected s (fst (fst x)) (snd (fst x))))
    (zip (zip hs bs) rs).

(** The [Verified] event of one accepted entry. *)
Definition verified_event (e : Env) (x : N * N * bool) : Event :=
  Verified (fst (fst x)) (snd (fst x)) (snd x) (msg_sender e) (block_timestamp e).

(** [op] is an ownership transfer. *)
Definition transfers (op : Op) : bool :=
  match op with
  | OpTransferOwnership _ => true
  | _ => false
  end.

(** No successful ownership transfer along the trace started in [s]. *)
Fixpoint never_transferred (tr : list (Env * Op)) (s : State) : bool :=
  match tr with
  | [] => true
  | (e, op) :: tr' =>
    match exec e op s with
    | Ok (_, s') => negb (transfers op) && never_transferred tr' s'
    | Revert _ => never_transferred tr' s
    end
  end.

(** The manufacturer list enumerates the authorized addresses, once each. *)
Record makers_ok (s : State) : Prop := {
  mk_nodup : NoDup (manufacturerList s);
  mk_member : forall a, a ∈ manufacturerList s <-> authorizedMakers_at s a = true
}.

(** The manufacturer list [l'] that [authorizeManufacturer maker authorized]
    leaves, from storage [s]. *)
Definition list_after (s : State) (maker : address) (authorized : bool)
    (l' : list N) : Prop :=
  if authorized then
    l' = (if authorizedMakers_at s maker then manufacturerList s
          else manufacturerList s ++ [maker])
  else if authorizedMakers_at s maker then
    remove_loop maker (length (manufacturerList s)) 0 (manufacturerList s) = Ok l'
  else l' = manufacturerList s.

(** ** Reading the event log *)

(** A [Verified] event that reports a first scan. *)
Definition authentic_event (ev : Event) : bool :=
  match ev with
  | Verified _ _ a _ _ => a
  | _ => false
  end.

(** A [Verified] event that reports a first scan under batch [b]. *)
Definition authentic_event_of (b : uint256) (ev : Event) : bool :=
  match ev with
  | Verified _ b' a _ _ => a && (b' =? b)
  | _ => false
  end.

Definition registration_event (ev : Event) : bool :=
  match ev with
  | ProductRegistered _ _ _ _ => true
  | _ => false
  end.

(** The history record a [Verified] event of fingerprint [f] stands for. *)
Definition record_of (f : bytes32) (ev : Event) : option VerificationRecord :=
  match ev with
  | Verified h b a v t => if h =? f then Some (mkVerificationRecord h b v t a) else None
  | _ => None
  end.

Definition count_events (p : Event -> bool) (evs : list Event) : N :=
  N.of_nat (length (List.filter p evs)).

(** The event log agrees with the counters and the histories. *)
Record events_ok (s : State) : Prop := {
  ev_total : count_events authentic_event (events s) = totalVerifications s;
  ev_batch : forall b,
    count_events (authentic_event_of b) (events s) = batchVerificationCount_at s b;
  ev_products : count_events registration_event (events s) = totalProducts s;
  ev_history : forall f, omap (record_of f) (events s) = verificationHistory_at s f
}.

(** ** Invariants of the storage *)

(** The sum of the per-batch verification counts. *)
Definition count_sum (m : gmap N N) : N := map_fold (fun _ c acc => c + acc) 0 m.

(** The registry part of the storage is consistent: every stored batch record
    is a registered one, under a nonzero id and with non-empty name and
    brand; [totalProducts] counts the stored records; every recorded
    membership names a registered batch. *)
Record registry_ok (s : State) : Prop := {
  reg_entries : forall b p, products s !! b = Some p ->
    exists_ p = true /\ b <> 0 /\ name p <> EmptyString /\ brand p <> EmptyString;
  reg_total : totalProducts s = N.of_nat (size (products s));
  reg_member : forall f b, serialToBatch s !! f = Some b ->
    b <> 0 /\ exists_ (products_at s b) = true
}.

(** The shape of one fingerprint's history against its verified status:
    every record carries the fingerprint and a nonzero batch id; the history
    is empty exactly while the fingerprint is unverified; otherwise its
    first record, and only that one, is authentic. *)
Definition history_shape (f : bytes32) (verified : bool)
    (l : list VerificationRecord) : Prop :=
  Forall (fun r => serialHash r = f /\ batchId r <> 0) l /\
  match l with
  | [] => verified = false
  | r :: rest =>
      verified = true /\ isAuthentic r = true /\
      Forall (fun x => isAuthentic x = false) rest
  end.

(** The verification part of the storage is consistent. *)
Record ledger_ok (s : State) : Prop := {
  led_true : forall f v, serialVerified s !! f = Some v -> v = true;
  led_total : totalVerifications s = N.of_nat (size (serialVerified s));
  led_sum : totalVerifications s = count_sum (batchVerificationCount s);
  led_member : forall f, serialVerified_at s f = true -> serialToBatch_at s f <> 0;
  led_history : forall f,
    history_shape f (serialVerified_at s f) (verificationHistory_at s f)
}.

(** ** Basic facts *)

Lemma is_empty_true (s : string) : is_empty s = true <-> s = EmptyString.
Proof. destruct s; simpl; split; congruence. Qed.

Lemma is_empty_false (s : string) : is_empty s = false <-> s <> EmptyString.
Proof. destruct s; simpl; split; congruence. Qed.

Lemma checked_incr_ok (x : N) : x < MAX_UINT256 -> checked_incr x = Ok (x + 1).
Proof.
  intros Hlt. unfold checked_incr.
  destruct (N.eqb_spec x MAX_UINT256) as [->|_]; [lia | reflexivity].
Qed.

Lemma checked_incr_inv (x y : N) : checked_incr x = Ok y -> y = x + 1 /\ x <> MAX_UINT256.
Proof.
  unfold checked_incr. destruct (N.eqb_spec x MAX_UINT256); intros H; inversion H; auto.
Qed.

Lemma checked_incr_revert (x : N) (err : Error) :
  checked_incr x = Revert err -> err = ArithmeticOverflow /\ x = MAX_UINT256.
Proof.
  unfold checked_incr. destruct (N.eqb_spec x MAX_UINT256); intros H; inversion H; auto.
Qed.

(** Unfolding of the entry points down to their guards. *)
Ltac unfold_calls :=
  unfold exec, returning, authorizeManufacturer, registerProduct, transferOwnership,
    pause, unpause, updateProductMetadata, onlyOwner, onlyMaker, whenNotPaused,
    whenPaused, nonReentrant, authorizeManufacturer_body, registerProduct_body,
    transferOwnership_body, pause_body, unpause_body, updateProductMetadata_body,
    rbind in *.

(** Lookups in updated maps. *)
Ltac solve_lookup :=
  intros; simpl;
  repeat match goal with
  | H : default _ _ = _ |- _ => rewrite H
  end;
  repeat first
    [ rewrite lookup_insert_eq
    | rewrite lookup_insert_ne by congruence ];
  try done.

(** *** Modifiers *)

Lemma nonReentrant_unlocked {A} (body : Call A) (s : State) :
  _locked s <> 1 ->
  nonReentrant body s =
    match body (set_locked 1 s) with
    | Ok (r, s') => Ok (r, set_locked 0 s')
    | Revert e => Revert e
    end.
Proof.
  intros H. unfold nonReentrant. destruct (N.eqb_spec (_locked s) 1); [done | reflexivity].
Qed.

Lemma nonReentrant_ok {A} (body : Call A) (s s' : State) (r : A) :
  nonReentrant body s = Ok (r, s') ->
  _locked s <> 1 /\ exists s1, body (set_locked 1 s) = Ok (r, s1) /\ s' = set_locked 0 s1.
Proof.
  unfold nonReentrant. destruct (N.eqb_spec (_locked s) 1); [done |].
  destruct (body _) as [[r1 s1]|]; [| done].
  intros [= <- <-]. eauto.
Qed.

Lemma onlyOwner_ok {A} (e : Env) (body : Call A) (s s' : State) (r : A) :
  onlyOwner e body s = Ok (r, s') -> msg_sender e = owner s /\ body s = Ok (r, s').
Proof.
  unfold onlyOwner. destruct (N.eqb_spec (msg_sender e) (owner s)); simpl; [auto | done].
Qed.

Lemma onlyMaker_ok {A} (e : Env) (body : Call A) (s s' : State) (r : A) :
  onlyMaker e body s = Ok (r, s') ->
  authorizedMakers_at s (msg_sender e) = true /\ body s = Ok (r, s').
Proof.
  unfold onlyMaker. destruct (authorizedMakers_at s (msg_sender e)); simpl; [auto | done].
Qed.

Lemma whenNotPaused_ok {A} (body : Call A) (s s' : State) (r : A) :
  whenNotPaused body s = Ok (r, s') -> paused s = false /\ body s = Ok (r, s').
Proof. unfold whenNotPaused. destruct (paused s); [done | auto]. Qed.

Lemma whenPaused_ok {A} (body : Call A) (s s' : State) (r : A) :
  whenPaused body s = Ok (r, s') -> paused s = true /\ body s = Ok (r, s').
Proof. unfold whenPaused. destruct (paused s); simpl; [auto | done]. Qed.

Lemma returning_ok {A} (f : A -> Ret) (c : Result (A * State)) (r : Ret) (s' : State) :
  returning f c = Ok (r, s') -> exists a, c = Ok (a, s') /\ r = f a.
Proof. destruct c as [[a s1]|]; simpl; [| done]. intros [= <- <-]. eauto. Qed.

(** *** The body of [verify] *)

Lemma verify_body_ok (e : Env) (h : bytes32) (b : uint256) (s s' : State) (r : bool) :
  verify_body e h b s = Ok (r, s') -> verify_effect e h b s r s'.
Proof.
  destruct s as [lk sv sb pr am ow tp tv bc ml pa vh ev].
  unfold verify_body, serialVerified_at, serialToBatch_at, products_at,
    batchVerificationCount_at, verificationHistory_at; simpl.
  destruct (N.eqb_spec b 0) as [|Hb]; [done |].
  destruct (exists_ (default empty_product (pr !! b))) eqn:Hex; simpl; [| done].
  destruct (N.eqb_spec (default 0 (sb !! h)) b) as [Hm|]; simpl; [| done].
  destruct (default false (sv !! h)) eqn:Hsv; simpl.
  - intros [= <- <-].
    split; unfold serialVerified_at, serialToBatch_at, products_at,
      batchVerificationCount_at, verificationHistory_at; simpl; solve_lookup.
  - destruct (checked_incr tv) as [tv'|] eqn:Htv; simpl; [| done].
    destruct (checked_incr (default 0 (bc !! b))) as [bc'|] eqn:Hbc; simpl; [| done].
    apply checked_incr_inv in Htv as [-> _]. apply checked_incr_inv in Hbc as [-> _].
    intros [= <- <-].
    split; unfold serialVerified_at, serialToBatch_at, products_at,
      batchVerificationCount_at, verificationHistory_at; simpl; solve_lookup.
Qed.

Lemma verify_body_runs (e : Env) (h : bytes32) (b : uint256) (s : State) :
  b <> 0 -> exists_ (products_at s b) = true -> serialToBatch_at s h = b ->
  (serialVerified_at s h = false ->
     totalVerifications s < MAX_UINT256 /\ batchVerificationCount_at s b < MAX_UINT256) ->
  exists s', verify_body e h b s = Ok (negb (serialVerified_at s h), s').
Proof.
  intros Hb Hex Hm Hov. unfold verify_body.
  destruct (N.eqb_spec b 0); [done |]. rewrite Hex; simpl.
  destruct (N.eqb_spec (serialToBatch_at s h) b); [| done]. simpl.
  destruct (serialVerified_at s h); simpl; [eauto |].
  destruct Hov as [Ht Hc]; [done |].
  rewrite (checked_incr_ok _ Ht). simpl.
  unfold batchVerificationCount_at in *. simpl.
  rewrite (checked_incr_ok _ Hc). simpl. eauto.
Qed.

(** The body of [verify] fails only on its three guards or on a counter
    overflow. *)
Lemma verify_body_revert (e : Env) (h : bytes32) (b : uint256) (s : State) (err : Error) :
  verify_body e h b s = Revert err ->
  (b = 0 /\ err = InvalidBatchId) \/
  (b <> 0 /\ exists_ (products_at s b) = false /\ err = BatchNotFound) \/
  (b <> 0 /\ exists_ (products_at s b) = true /\ serialToBatch_at s h <> b /\
     err = SerialNotInBatch) \/
  (entry_rejected s h b = false /\ serialVerified_at s h = false /\
     err = ArithmeticOverflow).
Proof.
  unfold verify_body, entry_rejected.
  destruct (N.eqb_spec b 0) as [|Hb]; [intros [= <-]; auto |].
  destruct (exists_ (products_at s b)) eqn:Hex; simpl; [| intros [= <-]; auto].
  destruct (N.eqb_spec (serialToBatch_at s h) b) as [Hm|]; simpl;
    [| intros [= <-]; right; right; left; auto].
  destruct (serialVerified_at s h) eqn:Hsv; simpl; [done |].
  destruct (checked_incr _) as [tv'|] eqn:Htv; simpl.
  - destruct (checked_incr (batchVerificationCount_at _ _)) as [bc'|] eqn:Hbc; simpl; [done |].
    apply checked_incr_revert in Hbc as [-> _]. intros [= <-]. auto 10.
  - apply checked_incr_revert in Htv as [-> _]. intros [= <-]. auto 10.
Qed.

(** ** [verify] *)

(** C2. A call [verify(f, b)] that passes its guards (system running, guard
    unlocked, [b] nonzero and registered, [f] recorded under [b]; the two
    counters below the largest [uint256] when they are to be incremented)
    returns the negation of [f]'s status before the call.  The status is
    [true] afterwards.  On [true] both [totalVerifications] and the count of
    batch [b] grow by exactly one; on [false] no counter changes.  In both
    cases exactly one record [{f, b, caller, timestamp, outcome}] is
    appended to [f]'s history, and no other history changes. *)
Theorem verify_outcome (e : Env) (f : bytes32) (b : uint256) (s : State) :
  paused s = false -> _locked s <> 1 ->
  b <> 0 -> exists_ (products_at s b) = true -> serialToBatch_at s f = b ->
  (serialVerified_at s f = false ->
     totalVerifications s < MAX_UINT256 /\ batchVerificationCount_at s b < MAX_UINT256) ->
  exists s',
    verify e f b s = Ok (negb (serialVerified_at s f), s') /\
    serialVerified_at s' f = true /\
    (if serialVerified_at s f
     then totalVerifications s' = totalVerifications s /\
          batchVerificationCount s' = batchVerificationCount s /\
          totalProducts s' = totalProducts s
     else totalVerifications s' = totalVerifications s + 1 /\
          batchVerificationCount_at s' b = batchVerificationCount_at s b + 1 /\
          (forall b', b' <> b ->
             batchVerificationCount_at s' b' = batchVerificationCount_at s b') /\
          totalProducts s' = totalProducts s) /\
    verificationHistory_at s' f =
      verificationHistory_at s f ++
        [mkVerificationRecord f b (msg_sender e) (block_timestamp e) (negb (serialVerified_at s f))] /\
    (forall f', f' <> f -> verificationHistory_at s' f' = verificationHistory_at s f').
Proof.
  intros Hrun Hlk Hb Hex Hm Hov.
  destruct (verify_body_runs e f b (set_locked 1 s) Hb Hex Hm Hov) as [s1 Hbody].
  exists (set_locked 0 s1).
  unfold verify, whenNotPaused. rewrite Hrun, (nonReentrant_unlocked _ _ Hlk), Hbody.
  apply verify_body_ok in Hbody. destruct Hbody.
  split; [reflexivity |].
  split; [exact ve_status0 |].
  split; [| split; [exact ve_history0 | exact ve_history_other0]].
  change (serialVerified_at (set_locked 1 s) f) with (serialVerified_at s f) in *.
  destruct (serialVerified_at s f); simpl in *; auto 10.
Qed.

Lemma verify_outcome_witness :
  exists s', verify (mkEnv 7 100) 11 1
    (mkState 0 ∅ {[ 11 := 1 ]} {[ 1 := mkProduct "Widget" "Acme" true 5 EmptyString EmptyString EmptyString ]}
       ∅ 1 1 0 ∅ [1] false ∅ []) = Ok (true, s') /\ totalVerifications s' = 1.
Proof.
  destruct (verify_outcome (mkEnv 7 100) 11 1
    (mkState 0 ∅ {[ 11 := 1 ]} {[ 1 := mkProduct "Widget" "Acme" true 5 EmptyString EmptyString EmptyString ]}
       ∅ 1 1 0 ∅ [1] false ∅ [])) as (s' & Hv & _ & Hc & _).
  - reflexivity.
  - discriminate.
  - discriminate.
  - reflexivity.
  - reflexivity.
  - intros _. split; reflexivity.
  - exists s'. split; [exact Hv |]. simpl in Hc. destruct Hc as [Ht _]. exact Ht.
Defined.

(** ** [batchVerify] *)

(** One iteration of the loop is one [verify_entry]. *)
Lemma batchVerify_loop_step (e : Env) (hs bs : list N) (n i : nat)
    (results : list bool) (s : State) (h b : N) :
  hs !! i = Some h -> bs !! i = Some b ->
  batchVerify_loop e hs bs (S n) i results s =
    (p <- verify_entry e h b s ;;
     batchVerify_loop e hs bs n (S i) (<[i := fst p]> results) (snd p)).
Proof.
  intros Hh Hb. simpl. rewrite Hh, Hb.
  unfold verify_entry, entry_rejected, verify_body.
  destruct (b =? 0); simpl; [reflexivity |].
  destruct (exists_ (products_at s b)); simpl; [| reflexivity].
  destruct (serialToBatch_at s h =? b); simpl; [| reflexivity].
  destruct (serialVerified_at s h); simpl; [reflexivity |].
  destruct (checked_incr (totalVerifications s)) as [tv|]; simpl; [| reflexivity].
  destruct (checked_incr _) as [bc|]; simpl; reflexivity.
Qed.

(** The loop, started at index [i], processes the remaining entries in
    order and leaves the slots below [i] as they were. *)
Lemma batchVerify_loop_entries (e : Env) (hs bs : list N) :
  length hs = length bs ->
  forall (n i : nat) (results : list bool) (s : State),
    (i + n)%nat = length hs -> length results = length hs ->
    batchVerify_loop e hs bs n i results s =
      (q <- verify_entries e (drop i hs) (drop i bs) s ;;
       Ok (take i results ++ fst q, snd q)).
Proof.
  intros Hlen n. induction n as [|n IH]; intros i results s Hi Hres.
  - rewrite !drop_ge by lia. simpl.
    rewrite take_ge by lia. by rewrite app_nil_r.
  - destruct (lookup_lt_is_Some_2 hs i) as [h Hh]; [lia |].
    destruct (lookup_lt_is_Some_2 bs i) as [b Hb]; [lia |].
    rewrite (batchVerify_loop_step _ _ _ _ _ _ _ _ _ Hh Hb).
    rewrite (drop_S _ _ _ Hh), (drop_S _ _ _ Hb). simpl.
    destruct (verify_entry e h b s) as [[r s1]|]; simpl; [| reflexivity].
    rewrite IH by (rewrite ?length_insert; lia).
    destruct (verify_entries e (drop (S i) hs) (drop (S i) bs) s1) as [[rs s2]|];
      simpl; [| reflexivity].
    rewrite (take_S_r _ _ r) by (apply list_lookup_insert_eq; lia).
    rewrite take_insert_ge by lia.
    by rewrite <- app_assoc.
Qed.

Lemma batchVerify_body_entries (e : Env) (hs bs : list N) (s : State) :
  length hs = length bs ->
  batchVerify_body e hs bs s = verify_entries e hs bs s.
Proof.
  intros Hlen. unfold batchVerify_body.
  destruct (Nat.eqb_spec (length hs) (length bs)); [| done]. simpl.
  rewrite (batchVerify_loop_entries e hs bs Hlen) by (rewrite ?length_replicate; lia).
  rewrite !drop_0. simpl.
  destruct (verify_entries e hs bs s) as [[rs s1]|]; reflexivity.
Qed.

Lemma verify_entries_length (e : Env) (hs bs : list N) :
  length hs = length bs ->
  forall (s s' : State) (rs : list bool),
    verify_entries e hs bs s = Ok (rs, s') -> length rs = length hs.
Proof.
  revert bs. induction hs as [|h hs IH]; intros [|b bs] Hlen s s' rs; simpl in *;
    try discriminate.
  - by intros [= <- <-].
  - destruct (verify_entry e h b s) as [[r s1]|]; simpl; [| done].
    destruct (verify_entries e hs bs s1) as [[rs1 s2]|] eqn:Hrest; simpl; [| done].
    intros [= <- <-]. simpl. f_equal. eapply IH; [| exact Hrest]. lia.
Qed.

Lemma verify_entry_revert (e : Env) (h b : N) (s : State) (err : Error) :
  verify_entry e h b s = Revert err -> err = ArithmeticOverflow.
Proof.
  unfold verify_entry. destruct (entry_rejected s h b) eqn:Hrej; [done |].
  intros H. apply verify_body_revert in H.
  unfold entry_rejected in Hrej.
  destruct H as [[-> _]|[(Hb & Hex & _)|[(Hb & Hex & Hm & _)|(_ & _ & ->)]]];
    [| | | reflexivity].
  - done.
  - rewrite Hex in Hrej. simpl in Hrej. by rewrite orb_true_r in Hrej.
  - apply N.eqb_neq in Hm. rewrite Hm in Hrej. simpl in Hrej.
    by rewrite orb_true_r in Hrej.
Qed.

Lemma verify_entries_revert (e : Env) (hs bs : list N) (s : State) (err : Error) :
  verify_entries e hs bs s = Revert err -> err = ArithmeticOverflow.
Proof.
  revert bs s. induction hs as [|h hs IH]; intros [|b bs] s; simpl; try done.
  destruct (verify_entry e h b s) as [[r s1]|] eqn:Hent; simpl.
  - destruct (verify_entries e hs bs s1) as [[rs1 s2]|] eqn:Hrest; simpl; [done |].
    intros [= <-]. eapply IH, Hrest.
  - intros [= <-]. eapply verify_entry_revert, Hent.
Qed.

Lemma entry_rejected_iff (s : State) (h b : N) :
  entry_rejected s h b = true <->
  b = 0 \/ exists_ (products_at s b) = false \/ serialToBatch_at s h <> b.
Proof.
  unfold entry_rejected.
  destruct (N.eqb_spec b 0) as [Hb|Hb]; simpl; [tauto |].
  destruct (exists_ (products_at s b)); simpl; [| tauto].
  destruct (N.eqb_spec (serialToBatch_at s h) b); simpl; split; try tauto; try done.
  intros [?|[?|?]]; done.
Qed.

Lemma verify_entry_ok (e : Env) (h b : N) (s s1 : State) (r : bool) :
  verify_entry e h b s = Ok (r, s1) ->
  (entry_rejected s h b = true /\ r = false /\ s1 = s) \/
  (entry_rejected s h b = false /\ verify_effect e h b s r s1).
Proof.
  unfold verify_entry. destruct (entry_rejected s h b).
  - intros [= <- <-]. auto.
  - intros H. right. split; [reflexivity | by apply verify_body_ok].
Qed.

Lemma verify_entry_runs (e : Env) (h b : N) (s : State) :
  totalVerifications s < MAX_UINT256 ->
  (forall b', batchVerificationCount_at s b' < MAX_UINT256) ->
  exists r s1, verify_entry e h b s = Ok (r, s1) /\
    totalVerifications s1 <= totalVerifications s + 1 /\
    (forall b', batchVerificationCount_at s1 b' <= batchVerificationCount_at s b' + 1).
Proof.
  intros Ht Hc. unfold verify_entry.
  destruct (entry_rejected s h b) eqn:Hrej.
  - exists false, s. split; [reflexivity |]. split; [lia |]. intros b'. lia.
  - unfold entry_rejected in Hrej.
    apply orb_false_elim in Hrej as [Hrej Hm]. apply orb_false_elim in Hrej as [Hb Hex].
    apply negb_false_iff in Hex, Hm. apply N.eqb_neq in Hb. apply N.eqb_eq in Hm.
    destruct (verify_body_runs e h b s Hb Hex Hm) as [s1 Hbody]; [auto |].
    exists (negb (serialVerified_at s h)), s1. split; [exact Hbody |].
    apply verify_body_ok in Hbody. destruct Hbody.
    split.
    + rewrite ve_total0. destruct (negb _); lia.
    + intros b'. destruct (N.eq_dec b' b) as [->|Hne].
      * rewrite ve_count0. destruct (negb _); lia.
      * rewrite ve_count_other0 by done. lia.
Qed.

Lemma verify_entries_runs (e : Env) (hs bs : list N) (s : State) :
  totalVerifications s + N.of_nat (length hs) <= MAX_UINT256 ->
  (forall b, batchVerificationCount_at s b + N.of_nat (length hs) <= MAX_UINT256) ->
  exists rs s', verify_entries e hs bs s = Ok (rs, s').
Proof.
  revert bs s. induction hs as [|h hs IH]; intros bs s Ht Hc; simpl; [eauto |].
  destruct bs as [|b bs]; [eauto |].
  destruct (verify_entry_runs e h b s) as (r & s1 & Hent & Ht1 & Hc1).
  { simpl in Ht. lia. }
  { intros b'. specialize (Hc b'). simpl in Hc. lia. }
  rewrite Hent. simpl.
  destruct (IH bs s1) as (rs & s2 & Hrest).
  { simpl in Ht. lia. }
  { intros b'. specialize (Hc b'). specialize (Hc1 b'). simpl in Hc. lia. }
  rewrite Hrest. simpl. eauto.
Qed.

(** C3. On a running, unlocked system [batchVerify] fails with the
    length-mismatch error exactly when the two arrays differ in length.
    With equal lengths it is the left-to-right run of [verify_entry] over
    the pairs: an entry whose batch id is zero, whose batch is unregistered
    or whose fingerprint is not recorded under the claimed batch yields
    [false] and changes nothing; every other entry is one run of the body of
    [verify] (same storage update, record and event).  The call then never
    fails on entry data: its only possible failure is a counter overflow,
    which cannot occur while the counters leave room for one increment per
    entry; and the returned array has one slot per input pair. *)
Theorem batchVerify_entrywise (e : Env) (hs bs : list N) (s : State) :
  paused s = false -> _locked s <> 1 ->
  (batchVerify e hs bs s = Revert LengthMismatch <-> length hs <> length bs) /\
  (length hs = length bs ->
     batchVerify e hs bs s = nonReentrant (verify_entries e hs bs) s /\
     (forall err, batchVerify e hs bs s = Revert err -> err = ArithmeticOverflow) /\
     (forall rs s', batchVerify e hs bs s = Ok (rs, s') -> length rs = length hs) /\
     (totalVerifications s + N.of_nat (length hs) <= MAX_UINT256 ->
      (forall b, batchVerificationCount_at s b + N.of_nat (length hs) <= MAX_UINT256) ->
      exists rs s', batchVerify e hs bs s = Ok (rs, s'))) /\
  (forall s0 h b, entry_rejected s0 h b = true <->
     b = 0 \/ exists_ (products_at s0 b) = false \/ serialToBatch_at s0 h <> b) /\
  (forall s0 h b, entry_rejected s0 h b = true -> verify_entry e h b s0 = Ok (false, s0)) /\
  (forall s0 h b, entry_rejected s0 h b = false ->
     verify_entry e h b s0 = verify_body e h b s0).
Proof.
  intros Hrun Hlk.
  assert (Heq : length hs = length bs ->
                batchVerify e hs bs s = nonReentrant (verify_entries e hs bs) s).
  { intros Hlen. unfold batchVerify, whenNotPaused. rewrite Hrun.
    rewrite !(nonReentrant_unlocked _ _ Hlk).
    by rewrite (batchVerify_body_entries _ _ _ _ Hlen). }
  assert (Herr : length hs = length bs ->
                 forall err, batchVerify e hs bs s = Revert err -> err = ArithmeticOverflow).
  { intros Hlen err. rewrite (Heq Hlen), (nonReentrant_unlocked _ _ Hlk).
    destruct (verify_entries e hs bs (set_locked 1 s)) as [[rs s1]|] eqn:Hent; [done |].
    intros [= <-]. eapply verify_entries_revert, Hent. }
  split; [| split; [| split; [| split]]].
  - split.
    + intros Hmis Hlen. by specialize (Herr Hlen _ Hmis).
    + intros Hne. unfold batchVerify, whenNotPaused. rewrite Hrun.
      rewrite (nonReentrant_unlocked _ _ Hlk). unfold batchVerify_body.
      destruct (Nat.eqb_spec (length hs) (length bs)); [done | reflexivity].
  - intros Hlen. split; [by apply Heq |]. split; [by apply Herr |]. split.
    + intros rs s'. rewrite (Heq Hlen). intros H.
      apply nonReentrant_ok in H as (_ & s1 & Hent & _).
      eapply verify_entries_length; eauto.
    + intros Ht Hc. rewrite (Heq Hlen), (nonReentrant_unlocked _ _ Hlk).
      destruct (verify_entries_runs e hs bs (set_locked 1 s) Ht Hc) as (rs & s1 & ->).
      eauto.
  - intros s0 h b. apply entry_rejected_iff.
  - intros s0 h b Hrej. unfold verify_entry. by rewrite Hrej.
  - intros s0 h b Hrej. unfold verify_entry. by rewrite Hrej.
Qed.

Lemma batchVerify_entrywise_witness :
  batchVerify deployer [11; 13] [1; 99] example_registered =
    nonReentrant (verify_entries deployer [11; 13] [1; 99]) example_registered.
Proof.
  destruct (batchVerify_entrywise deployer [11; 13] [1; 99] example_registered)
    as (_ & H & _).
  - reflexivity.
  - vm_compute. discriminate.
  - apply H. reflexivity.
Defined.

(** ** Exactly-once authenticity *)

Lemma authentic_slots_cons (f h : N) (r : bool) (l : list (N * bool)) :
  authentic_slots f ((h, r) :: l) = (slot_hit f h r + authentic_slots f l)%nat.
Proof.
  unfold authentic_slots, slot_hit. rewrite filter_cons. simpl.
  destruct ((h =? f) && r); case_decide; simpl; congruence.
Qed.

Lemma verify_entry_authentic (e : Env) (f h b : N) (s s1 : State) (r : bool) :
  verify_entry e h b s = Ok (r, s1) ->
  slot_hit f h r =
    newly_verified (serialVerified_at s f) (serialVerified_at s1 f) /\
  (serialVerified_at s f = true -> serialVerified_at s1 f = true).
Proof.
  intros H. unfold slot_hit. apply verify_entry_ok in H as [(_ & -> & ->)|[_ []]].
  - rewrite andb_false_r. unfold newly_verified.
    destruct (serialVerified_at s f); auto.
  - destruct (N.eqb_spec h f) as [->|Hne]; simpl.
    + rewrite ve_status0, ve_result0. unfold newly_verified.
      destruct (serialVerified_at s f); auto.
    + rewrite (ve_status_other0 f) by done. unfold newly_verified.
      destruct (serialVerified_at s f); auto.
Qed.

Lemma verify_entries_authentic (e : Env) (f : N) (hs bs : list N) :
  forall (s s' : State) (rs : list bool),
    verify_entries e hs bs s = Ok (rs, s') ->
    authentic_slots f (zip hs rs) =
      newly_verified (serialVerified_at s f) (serialVerified_at s' f) /\
    (serialVerified_at s f = true -> serialVerified_at s' f = true).
Proof.
  revert bs. induction hs as [|h hs IH]; intros bs s s' rs; simpl.
  - intros [= <- <-]. unfold newly_verified. destruct (serialVerified_at s f); auto.
  - destruct bs as [|b bs].
    { intros [= <- <-]. unfold newly_verified. destruct (serialVerified_at s f); auto. }
    destruct (verify_entry e h b s) as [[r s1]|] eqn:Hent; simpl; [| done].
    destruct (verify_entries e hs bs s1) as [[rs1 s2]|] eqn:Hrest; simpl; [| done].
    intros [= <- <-]. simpl. rewrite authentic_slots_cons.
    apply (verify_entry_authentic e f) in Hent as [-> Hmono1].
    apply IH in Hrest as [-> Hmono2].
    unfold newly_verified in *.
    destruct (serialVerified_at s f), (serialVerified_at s1 f),
      (serialVerified_at s2 f); simpl; auto; try (by specialize (Hmono1 eq_refl));
      by specialize (Hmono2 eq_refl).
Qed.

(** *** What each call leaves alone *)

Lemma verify_entries_frame (e : Env) (hs bs : list N) :
  forall (s s' : State) (rs : list bool),
    verify_entries e hs bs s = Ok (rs, s') ->
    serialToBatch s' = serialToBatch s /\ products s' = products s /\
    paused s' = paused s /\ _locked s' = _locked s.
Proof.
  revert bs. induction hs as [|h hs IH]; intros bs s s' rs; simpl.
  - by intros [= <- <-].
  - destruct bs as [|b bs]; [by intros [= <- <-] |].
    destruct (verify_entry e h b s) as [[r s1]|] eqn:Hent; simpl; [| done].
    destruct (verify_entries e hs bs s1) as [[rs1 s2]|] eqn:Hrest; simpl; [| done].
    intros [= <- <-]. simpl.
    apply IH in Hrest as (-> & -> & -> & ->).
    apply verify_entry_ok in Hent as [(_ & _ & ->)|[_ []]]; auto.
Qed.

(** Calls other than [verify] and [batchVerify] touch neither the verified
    status nor the history; only [registerProduct] writes the membership
    index, and only at the hashes it was given. *)
Lemma exec_frame (e : Env) (op : Op) (s s' : State) (r : Ret) :
  exec e op s = Ok (r, s') ->
  match op with
  | OpVerify _ _ | OpBatchVerify _ _ => serialToBatch s' = serialToBatch s
  | OpRegisterProduct b _ _ hs _ _ _ =>
      serialVerified s' = serialVerified s /\
      verificationHistory s' = verificationHistory s /\
      serialToBatch s' = foldl (fun m h => <[h := b]> m) (serialToBatch s) hs
  | _ =>
      serialVerified s' = serialVerified s /\
      verificationHistory s' = verificationHistory s /\
      serialToBatch s' = serialToBatch s
  end.
Proof.
  destruct op as [mk au | b0 nm br hs0 ip de im | h0 b0 | nw | hs0 bs0 | | | b0 ip de im]; intros H.
  - unfold_calls. repeat case_match; simplify_eq; simpl; auto.
  - unfold_calls. repeat case_match; simplify_eq; simpl; auto.
  - apply returning_ok in H as (a & H & _).
    apply whenNotPaused_ok in H as [_ H]. apply nonReentrant_ok in H as (_ & s1 & H & ->).
    apply verify_body_ok in H. destruct H. simpl. by rewrite ve_serialToBatch0.
  - unfold_calls. repeat case_match; simplify_eq; simpl; auto.
  - apply returning_ok in H as (a & H & _).
    apply whenNotPaused_ok in H as [_ H]. apply nonReentrant_ok in H as (Hlk & s1 & H & ->).
    unfold batchVerify_body in H.
    destruct (Nat.eqb_spec (length hs0) (length bs0)) as [Hlen|]; [| done].
    simpl in H.
    rewrite (batchVerify_loop_entries e _ _ Hlen) in H
      by (rewrite ?length_replicate; lia).
    rewrite !drop_0 in H.
    destruct (verify_entries e hs0 bs0 (set_locked 1 s))
      as [[rs s2]|] eqn:Hent; simpl in H; [| done].
    injection H as <- <-. apply verify_entries_frame in Hent as (Hsb & _). exact Hsb.
  - unfold_calls. repeat case_match; simplify_eq; simpl; auto.
  - unfold_calls. repeat case_match; simplify_eq; simpl; auto.
  - unfold_calls. repeat case_match; simplify_eq; simpl; auto.
Qed.

Lemma verify_effect_authentic (e : Env) (f h b : N) (s s1 : State) (r : bool) :
  verify_effect e h b s r s1 ->
  slot_hit f h r = newly_verified (serialVerified_at s f) (serialVerified_at s1 f) /\
  (serialVerified_at s f = true -> serialVerified_at s1 f = true).
Proof.
  intros []. unfold slot_hit, newly_verified.
  destruct (N.eqb_spec h f) as [->|Hne]; simpl.
  - rewrite ve_status0, ve_result0. destruct (serialVerified_at s f); auto.
  - rewrite (ve_status_other0 f) by done. destruct (serialVerified_at s f); auto.
Qed.

Lemma verify_ok (e : Env) (h b : N) (s s' : State) (r : bool) :
  verify e h b s = Ok (r, s') ->
  paused s = false /\ _locked s <> 1 /\
  exists s1, verify_effect e h b (set_locked 1 s) r s1 /\ s' = set_locked 0 s1.
Proof.
  intros H. apply whenNotPaused_ok in H as [Hrun H].
  apply nonReentrant_ok in H as (Hlk & s1 & H & ->).
  apply verify_body_ok in H. eauto.
Qed.

Lemma batchVerify_ok (e : Env) (hs bs : list N) (s s' : State) (rs : list bool) :
  batchVerify e hs bs s = Ok (rs, s') ->
  paused s = false /\ _locked s <> 1 /\ length hs = length bs /\
  exists s1, verify_entries e hs bs (set_locked 1 s) = Ok (rs, s1) /\ s' = set_locked 0 s1.
Proof.
  intros H. apply whenNotPaused_ok in H as [Hrun H].
  apply nonReentrant_ok in H as (Hlk & s1 & H & ->).
  assert (Hlen : length hs = length bs).
  { unfold batchVerify_body in H.
    destruct (Nat.eqb_spec (length hs) (length bs)); [done | discriminate]. }
  rewrite (batchVerify_body_entries _ _ _ _ Hlen) in H. eauto 10.
Qed.

(** A successful call reports [f] authentic exactly when it moves the status
    of [f] from [false] to [true]; a [true] status stays. *)
Lemma exec_authentic (e : Env) (f : N) (op : Op) (s s' : State) (r : Ret) :
  exec e op s = Ok (r, s') ->
  authentic_in f op r = newly_verified (serialVerified_at s f) (serialVerified_at s' f) /\
  (serialVerified_at s f = true -> serialVerified_at s' f = true).
Proof.
  intros H.
  assert (Hsame : serialVerified s' = serialVerified s ->
    0%nat = newly_verified (serialVerified_at s f) (serialVerified_at s' f) /\
    (serialVerified_at s f = true -> serialVerified_at s' f = true)).
  { intros Heq. unfold serialVerified_at, newly_verified. rewrite Heq.
    destruct (default false (serialVerified s !! f)); auto. }
  pose proof (exec_frame _ _ _ _ _ H) as Hfr.
  destruct op as [mk au | b0 nm br hs0 ip de im | h0 b0 | nw | hs0 bs0 | | | b0 ip de im]; simpl; try (apply Hsame; tauto).
  - simpl in H. apply returning_ok in H as (a & H & ->).
    apply verify_ok in H as (_ & _ & s1 & H & ->).
    apply (verify_effect_authentic e f) in H as [Hhit Hmono].
    rewrite authentic_slots_cons. unfold authentic_slots. simpl.
    rewrite Nat.add_0_r. auto.
  - simpl in H. apply returning_ok in H as (a & H & ->).
    apply batchVerify_ok in H as (_ & _ & _ & s1 & H & ->).
    apply (verify_entries_authentic e f) in H. exact H.
Qed.

Lemma newly_verified_le (v v' : bool) : (newly_verified v v' <= 1)%nat.
Proof. unfold newly_verified. destruct (negb v && v'); lia. Qed.

(** Along a whole trace, too, the count is read off the first and last status. *)
Lemma authentic_count_trace (f : N) (tr : list (Env * Op)) :
  forall s : State,
    authentic_count f tr s =
      newly_verified (serialVerified_at s f) (serialVerified_at (run tr s) f) /\
    (serialVerified_at s f = true -> serialVerified_at (run tr s) f = true).
Proof.
  induction tr as [|[e op] tr IH]; intros s; simpl.
  - unfold newly_verified. destruct (serialVerified_at s f); auto.
  - unfold step. simpl.
    destruct (exec e op s) as [[r s1]|] eqn:Hex; [| apply IH].
    apply (exec_authentic e f) in Hex as [-> Hmono1].
    destruct (IH s1) as [-> Hmono2].
    unfold newly_verified in *.
    destruct (serialVerified_at s f), (serialVerified_at s1 f),
      (serialVerified_at (run tr s1) f); simpl; auto;
      try (by specialize (Hmono1 eq_refl)); by specialize (Hmono2 eq_refl).
Qed.

(** C1. The verified status of a fingerprint [f] starts [false] at
    deployment; no successful call of any kind resets a [true] status, and a
    call made when the status is [true] never reports [f] authentic; a call
    reports [f] authentic at most once, and only by moving the status from
    [false] to [true].  Hence along any sequence of calls, from deployment
    or from any storage, at most one [verify] call or [batchVerify] entry
    for [f] yields [true], and none once the status is [true]. *)
Theorem authentic_at_most_once (d : Env) (f : bytes32) (tr : list (Env * Op)) :
  serialVerified_at (constructor d) f = false /\
  (authentic_count f tr (constructor d) <= 1)%nat /\
  (forall e op s r s', exec e op s = Ok (r, s') ->
     serialVerified_at s f = true ->
     serialVerified_at s' f = true /\ authentic_in f op r = 0%nat) /\
  (forall e op s r s', exec e op s = Ok (r, s') ->
     (authentic_in f op r <= 1)%nat /\
     (authentic_in f op r = 1%nat ->
        serialVerified_at s f = false /\ serialVerified_at s' f = true)) /\
  (forall s, (authentic_count f tr s <= 1)%nat /\
     (serialVerified_at s f = true ->
        authentic_count f tr s = 0%nat /\ serialVerified_at (run tr s) f = true)) /\
  (forall e b s r s', verify e f b s = Ok (r, s') ->
     r = negb (serialVerified_at s f) /\ serialVerified_at s' f = true).
Proof.
  split; [reflexivity |].
  split; [destruct (authentic_count_trace f tr (constructor d)) as [-> _];
          apply newly_verified_le |].
  split; [| split; [| split]].
  - intros e op s r s' Hex Hv.
    apply (exec_authentic e f) in Hex as [-> Hmono].
    split; [auto |]. unfold newly_verified. by rewrite Hv.
  - intros e op s r s' Hex.
    apply (exec_authentic e f) in Hex as [-> Hmono].
    split; [apply newly_verified_le |].
    unfold newly_verified.
    destruct (serialVerified_at s f), (serialVerified_at s' f); simpl; auto; discriminate.
  - intros s. destruct (authentic_count_trace f tr s) as [-> Hmono].
    split; [apply newly_verified_le |].
    intros Hv. split; [| auto]. unfold newly_verified. by rewrite Hv.
  - intros e b s r s' Hv.
    apply verify_ok in Hv as (_ & _ & s1 & [] & ->). auto.
Qed.

Lemma authentic_at_most_once_witness :
  serialVerified_at
    (run [(deployer, OpVerify 11 1); (deployer, OpVerify 11 1)] example_registered) 11 = true /\
  authentic_in 11 (OpVerify 11 1) (RetBool false) = 0%nat.
Proof.
  destruct (authentic_at_most_once deployer 11 []) as (_ & _ & H & _).
  apply (H deployer (OpVerify 11 1)
           (run [(deployer, OpVerify 11 1)] example_registered) (RetBool false)
           (run [(deployer, OpVerify 11 1); (deployer, OpVerify 11 1)] example_registered)).
  - vm_compute. reflexivity.
  - vm_compute. reflexivity.
Defined.

(** ** [registerProduct] *)

Lemma foldl_insert_lookup (b : N) (hs : list N) (m : gmap N N) (f : N) :
  foldl (fun m h => <[h := b]> m) m hs !! f =
    if bool_decide (f ∈ hs) then Some b else m !! f.
Proof.
  revert m. induction hs as [|h hs IH]; intros m.
  - reflexivity.
  - cbn [foldl]. rewrite IH. destruct (decide (f = h)) as [->|Hne].
    + rewrite lookup_insert_eq.
      rewrite (bool_decide_eq_true_2 (h ∈ h :: hs)) by (by left).
      by destruct (bool_decide (h ∈ hs)).
    + rewrite lookup_insert_ne by done.
      destruct (decide (f ∈ hs)) as [Hin|Hnin].
      * rewrite (bool_decide_eq_true_2 (f ∈ hs)) by done.
        by rewrite (bool_decide_eq_true_2 (f ∈ h :: hs)) by (by right).
      * rewrite (bool_decide_eq_false_2 (f ∈ hs)) by done.
        rewrite (bool_decide_eq_false_2 (f ∈ h :: hs)); [done |].
        intros [?|?]%elem_of_cons; done.
Qed.

(** What a successful [registerProduct] did. *)
Lemma registerProduct_ok (e : Env) (b : N) (nm br : string) (hs : list N)
    (ip de im : string) (s s' : State) (u : unit) :
  registerProduct e b nm br hs ip de im s = Ok (u, s') ->
  (authorizedMakers_at s (msg_sender e) = true /\ paused s = false /\ _locked s <> 1 /\
   b <> 0 /\ nm <> EmptyString /\ br <> EmptyString /\ hs <> [] /\
   exists_ (products_at s b) = false /\ totalProducts s <> MAX_UINT256) /\
  s' = set_locked 0
         (emit (ProductRegistered b nm br (N.of_nat (length hs)))
            (set_totalProducts (totalProducts s + 1)
               (set_serialToBatch (foldl (fun m h => <[h := b]> m) (serialToBatch s) hs)
                  (set_products
                     (<[b := mkProduct nm br true (block_timestamp e) ip de im]> (products s))
                     (set_locked 1 s))))).
Proof.
  intros H. apply onlyMaker_ok in H as [Hauth H].
  apply whenNotPaused_ok in H as [Hrun H].
  apply nonReentrant_ok in H as (Hlk & s1 & H & ->).
  unfold registerProduct_body in H.
  destruct (N.eqb_spec b 0) as [|Hb]; [done |].
  destruct (is_empty nm) eqn:Hnm; [done |].
  destruct (is_empty br) eqn:Hbr; [done |].
  destruct hs as [|h hs]; [done |]. simpl in H.
  change (products_at (set_locked 1 s) b) with (products_at s b) in H.
  destruct (exists_ (products_at s b)) eqn:Hex; [done |].
  destruct (checked_incr (totalProducts s)) as [n|] eqn:Hn; simpl in H; [| done].
  apply checked_incr_inv in Hn as [-> Hmax].
  destruct u. injection H as <-.
  apply is_empty_false in Hnm, Hbr.
  split; [by repeat split |]. reflexivity.
Qed.

Lemma registerProduct_runs (e : Env) (b : N) (nm br : string) (hs : list N)
    (ip de im : string) (s : State) :
  authorizedMakers_at s (msg_sender e) = true -> paused s = false -> _locked s <> 1 ->
  b <> 0 -> nm <> EmptyString -> br <> EmptyString -> hs <> [] ->
  exists_ (products_at s b) = false -> totalProducts s < MAX_UINT256 ->
  exists s', registerProduct e b nm br hs ip de im s = Ok (tt, s').
Proof.
  intros Hauth Hrun Hlk Hb Hnm Hbr Hhs Hex Hmax.
  unfold registerProduct, onlyMaker, whenNotPaused. rewrite Hauth, Hrun. simpl.
  rewrite (nonReentrant_unlocked _ _ Hlk). unfold registerProduct_body.
  destruct (N.eqb_spec b 0); [done |].
  apply is_empty_false in Hnm, Hbr. rewrite Hnm, Hbr.
  destruct hs as [|h hs]; [done |]. simpl.
  change (products_at (set_locked 1 s) b) with (products_at s b).
  rewrite Hex, (checked_incr_ok _ Hmax). simpl. eauto.
Qed.

(** The first failing check decides the error of [registerProduct]. *)
Lemma registerProduct_error (e : Env) (b : N) (nm br : string) (hs : list N)
    (ip de im : string) (s : State) :
  authorizedMakers_at s (msg_sender e) = true -> paused s = false -> _locked s <> 1 ->
  registerProduct e b nm br hs ip de im s =
    if b =? 0 then Revert InvalidBatchId
    else if is_empty nm then Revert EmptyName
    else if is_empty br then Revert EmptyBrand
    else if (length hs =? 0)%nat then Revert NoSerials
    else if exists_ (products_at s b) then Revert BatchExists
    else registerProduct e b nm br hs ip de im s.
Proof.
  intros Hauth Hrun Hlk.
  destruct (b =? 0) eqn:Hb; [| destruct (is_empty nm) eqn:Hnm;
    [| destruct (is_empty br) eqn:Hbr; [| destruct (length hs =? 0)%nat eqn:Hhs;
    [| destruct (exists_ (products_at s b)) eqn:Hex; [| reflexivity]]]]];
  unfold registerProduct, onlyMaker, whenNotPaused; rewrite Hauth, Hrun; simpl;
  rewrite (nonReentrant_unlocked _ _ Hlk); unfold registerProduct_body;
  change (products_at (set_locked 1 s) b) with (products_at s b);
  rewrite ?Hb, ?Hnm, ?Hbr, ?Hhs, ?Hex; reflexivity.
Qed.

Lemma registerProduct_effect (e : Env) (b : N) (nm br : string) (hs : list N)
    (ip de im : string) (s s' : State) :
  registerProduct e b nm br hs ip de im s = Ok (tt, s') ->
  products_at s' b = mkProduct nm br true (block_timestamp e) ip de im /\
  (forall b', b' <> b -> products_at s' b' = products_at s b') /\
  (forall h, h ∈ hs -> serialToBatch_at s' h = b) /\
  (forall h, h ∉ hs -> serialToBatch_at s' h = serialToBatch_at s h) /\
  totalProducts s' = totalProducts s + 1 /\
  events s' = events s ++ [ProductRegistered b nm br (N.of_nat (length hs))].
Proof.
  intros Hreg. apply registerProduct_ok in Hreg as [_ ->].
  unfold products_at, serialToBatch_at. simpl.
  split; [by rewrite lookup_insert_eq |].
  split; [intros b' Hb'; by rewrite lookup_insert_ne |].
  split; [intros h Hh; by rewrite foldl_insert_lookup, bool_decide_eq_true_2 |].
  split; [intros h Hh; by rewrite foldl_insert_lookup, bool_decide_eq_false_2 |].
  done.
Qed.

(** C4, as the contract has it.  For an authorized caller on a running,
    unlocked system the checks of [registerProduct] are made in the order
    batch id, name, brand, serials, existence, and the first one that fails
    decides the error: [InvalidBatchId] iff the id is zero; [EmptyName] iff
    the id is nonzero and the name empty; [EmptyBrand] iff moreover the name
    is non-empty and the brand empty; [NoSerials] iff moreover the brand is
    non-empty and no hash is supplied; [BatchExists] iff all of these pass
    and the id is already registered.  When every check passes and the
    batch counter is below the largest [uint256] the call succeeds.  For
    a caller that is not authorized the call fails with [NotAuthorized];
    for every caller and every storage, a call on a registered id fails.  A
    successful call stores the batch record with the block timestamp,
    records every supplied hash under the batch, leaves every other hash
    and batch alone and adds exactly one to [totalProducts]; a failed call
    changes nothing. *)
Theorem registerProduct_checks (e : Env) (b : uint256) (nm br : string)
    (hs : list N) (ip de im : string) (s : State) :
  (authorizedMakers_at s (msg_sender e) = true -> paused s = false -> _locked s <> 1 ->
     (registerProduct e b nm br hs ip de im s = Revert InvalidBatchId <-> b = 0) /\
     (registerProduct e b nm br hs ip de im s = Revert EmptyName <->
        b <> 0 /\ nm = EmptyString) /\
     (registerProduct e b nm br hs ip de im s = Revert EmptyBrand <->
        b <> 0 /\ nm <> EmptyString /\ br = EmptyString) /\
     (registerProduct e b nm br hs ip de im s = Revert NoSerials <->
        b <> 0 /\ nm <> EmptyString /\ br <> EmptyString /\ hs = []) /\
     (registerProduct e b nm br hs ip de im s = Revert BatchExists <->
        b <> 0 /\ nm <> EmptyString /\ br <> EmptyString /\ hs <> [] /\
        exists_ (products_at s b) = true) /\
     (b <> 0 -> nm <> EmptyString -> br <> EmptyString -> hs <> [] ->
      exists_ (products_at s b) = false -> totalProducts s < MAX_UINT256 ->
      exists s', registerProduct e b nm br hs ip de im s = Ok (tt, s'))) /\
  (authorizedMakers_at s (msg_sender e) = false ->
     registerProduct e b nm br hs ip de im s = Revert NotAuthorized) /\
  (exists_ (products_at s b) = true ->
     exists err, registerProduct e b nm br hs ip de im s = Revert err) /\
  (forall s', registerProduct e b nm br hs ip de im s = Ok (tt, s') ->
     products_at s' b = mkProduct nm br true (block_timestamp e) ip de im /\
     (forall b', b' <> b -> products_at s' b' = products_at s b') /\
     (forall h, h ∈ hs -> serialToBatch_at s' h = b) /\
     (forall h, h ∉ hs -> serialToBatch_at s' h = serialToBatch_at s h) /\
     totalProducts s' = totalProducts s + 1 /\
     events s' = events s ++ [ProductRegistered b nm br (N.of_nat (length hs))]) /\
  (forall err, registerProduct e b nm br hs ip de im s = Revert err ->
     step (e, OpRegisterProduct b nm br hs ip de im) s = s).
Proof.
  split; [| split; [| split; [| split]]].
  2: { intros Hno. unfold registerProduct, onlyMaker. by rewrite Hno. }
  - intros Hauth Hrun Hlk.
    pose proof (registerProduct_error e b nm br hs ip de im s Hauth Hrun Hlk) as Herr.
    destruct (N.eqb_spec b 0) as [Hb|Hb].
    { rewrite Herr. repeat split; try done; intros; tauto. }
    destruct (is_empty nm) eqn:Hnm.
    { apply is_empty_true in Hnm. rewrite Herr.
      repeat split; try done; intros; tauto. }
    apply is_empty_false in Hnm.
    destruct (is_empty br) eqn:Hbr.
    { apply is_empty_true in Hbr. rewrite Herr.
      repeat split; try done; intros; tauto. }
    apply is_empty_false in Hbr.
    destruct (length hs =? 0)%nat eqn:Hhs.
    { assert (hs = []) as -> by (by destruct hs).
      rewrite Herr. repeat split; try done; intros; tauto. }
    assert (Hne : hs <> []) by (intros ->; discriminate).
    destruct (exists_ (products_at s b)) eqn:Hex.
    { rewrite Herr. repeat split; try done; intros; tauto. }
    clear Herr.
    assert (Hnot : forall err, registerProduct e b nm br hs ip de im s = Revert err ->
                               err = ArithmeticOverflow).
    { intros err. unfold registerProduct, onlyMaker, whenNotPaused.
      rewrite Hauth, Hrun. simpl. rewrite (nonReentrant_unlocked _ _ Hlk).
      unfold registerProduct_body.
      destruct (N.eqb_spec b 0); [done |].
      apply is_empty_false in Hnm, Hbr. rewrite Hnm, Hbr, Hhs.
      change (products_at (set_locked 1 s) b) with (products_at s b). rewrite Hex.
      simpl. destruct (checked_incr (totalProducts s)) as [tp|] eqn:Htp; simpl; [done |].
      apply checked_incr_revert in Htp as [-> _]. congruence. }
    split; [| split; [| split; [| split; [| split]]]];
      try (split; [intros H; apply Hnot in H; discriminate
                  | intros ?; destruct_and?; congruence]).
    intros _ _ _ _ _ Hmax. by apply registerProduct_runs.
  - intros Hex.
    destruct (registerProduct e b nm br hs ip de im s) as [[[] s']|err] eqn:Hreg; [| eauto].
    apply registerProduct_ok in Hreg as [(_ & _ & _ & _ & _ & _ & _ & Hno & _) _].
    congruence.
  - intros s' Hreg. by apply registerProduct_effect.
  - intros err Hreg. unfold step. simpl. by rewrite Hreg.
Qed.

Lemma registerProduct_checks_witness :
  exists s', registerProduct deployer 2 "Gadget" "Acme" [21] EmptyString EmptyString
               EmptyString example_registered = Ok (tt, s').
Proof.
  destruct (registerProduct_checks deployer 2 "Gadget" "Acme" [21] EmptyString
              EmptyString EmptyString example_registered) as (H & _).
  destruct H as (_ & _ & _ & _ & _ & H).
  - reflexivity.
  - reflexivity.
  - vm_compute. discriminate.
  - apply H; try discriminate; try reflexivity.
Defined.

(** C4 as stated fails: with a zero batch id and an empty name, an authorized
    caller on a running system gets [InvalidBatchId], not [EmptyName]; and an
    unauthorized caller registering the already registered batch 1 gets
    [NotAuthorized], not [BatchExists]. *)
Lemma registerProduct_iff_counterexample :
  authorizedMakers_at (constructor deployer) (msg_sender deployer) = true /\
  paused (constructor deployer) = false /\
  ~ (registerProduct deployer 0 EmptyString "Acme" [11] EmptyString EmptyString
       EmptyString (constructor deployer) = Revert EmptyName <->
     EmptyString = EmptyString) /\
  exists_ (products_at example_registered 1) = true /\
  registerProduct (mkEnv 9 2000) 1 "Widget" "Acme" [13] EmptyString EmptyString
    EmptyString example_registered = Revert NotAuthorized.
Proof.
  split; [reflexivity |]. split; [reflexivity |]. split.
  - intros [_ H]. specialize (H eq_refl). vm_compute in H. discriminate.
  - split; reflexivity.
Qed.

(** ** [transferOwnership] *)

(** What a successful [transferOwnership] did: the owner and the two
    authorization flags change, the manufacturer list does not. *)
Lemma transferOwnership_ok (e : Env) (newOwner : N) (s s' : State) (u : unit) :
  transferOwnership e newOwner s = Ok (u, s') ->
  msg_sender e = owner s /\ newOwner <> 0 /\ newOwner <> owner s /\
  owner s' = newOwner /\
  authorizedMakers_at s' (owner s) = false /\
  authorizedMakers_at s' newOwner = true /\
  manufacturerList s' = manufacturerList s /\
  events s' = events s ++ [ManufacturerAuthorized (owner s) false;
                           ManufacturerAuthorized newOwner true].
Proof.
  intros H. apply onlyOwner_ok in H as [Hown H].
  apply nonReentrant_ok in H as (Hlk & s1 & H & ->).
  unfold transferOwnership_body in H. simpl in H.
  destruct (N.eqb_spec newOwner 0) as [|Hz]; [done |].
  destruct (N.eqb_spec newOwner (owner s)) as [|Hne]; [done |].
  destruct u. injection H as <-.
  unfold authorizedMakers_at. simpl.
  rewrite lookup_insert_ne by done. rewrite !lookup_insert_eq.
  rewrite <- app_assoc. auto 10.
Qed.

(** C5, the code at a concrete input.  After the deployer (address 1) hands
    the contract to address 2, the owner and both authorization flags are
    as the claim says, but [getManufacturers] still lists the old owner and
    does not list the new one: [transferOwnership] never touches
    [manufacturerList], unlike [authorizeManufacturer] and the constructor. *)
Theorem transferOwnership_leaves_list :
  exists s',
    transferOwnership deployer 2 (constructor deployer) = Ok (tt, s') /\
    owner s' = 2 /\
    authorizedMakers_at s' 1 = false /\ authorizedMakers_at s' 2 = true /\
    getManufacturers s' = [1] /\
    1 ∈ getManufacturers s' /\ 2 ∉ getManufacturers s'.
Proof.
  eexists. split; [vm_compute; reflexivity |].
  do 4 (split; [reflexivity |]).
  split; [constructor |].
  intros [Heq|Hnil]%elem_of_cons; [discriminate | by apply elem_of_nil in Hnil].
Qed.

(** ** [updateProductMetadata] *)

Lemma products_at_set_locked (v : N) (s : State) (b : N) :
  products_at (set_locked v s) b = products_at s b.
Proof. reflexivity. Qed.

Lemma products_at_insert_eq (m : gmap N Product) (s : State) (b : N) (p : Product) :
  products_at (set_products (<[b := p]> m) s) b = p.
Proof. unfold products_at. simpl. by rewrite lookup_insert_eq. Qed.

Lemma products_at_insert_ne (s s0 : State) (b b' : N) (p : Product) :
  b' <> b ->
  products_at (set_products (<[b := p]> (products s0)) s) b' = products_at s0 b'.
Proof. intros Hne. unfold products_at. simpl. by rewrite lookup_insert_ne. Qed.

(** The metadata patch: a supplied empty string keeps the stored field. *)
Lemma updateProductMetadata_ok (e : Env) (b : N) (ip de im : string)
    (s s' : State) (u : unit) :
  updateProductMetadata e b ip de im s = Ok (u, s') ->
  (authorizedMakers_at s (msg_sender e) = true /\ paused s = false /\ _locked s <> 1 /\
   b <> 0 /\ exists_ (products_at s b) = true) /\
  products_at s' b =
    mkProduct (name (products_at s b)) (brand (products_at s b))
      (exists_ (products_at s b)) (registeredAt (products_at s b))
      (if is_empty ip then ipfsHash (products_at s b) else ip)
      (if is_empty de then description (products_at s b) else de)
      (if is_empty im then imageUrl (products_at s b) else im) /\
  (forall b', b' <> b -> products_at s' b' = products_at s b') /\
  serialVerified s' = serialVerified s /\ serialToBatch s' = serialToBatch s /\
  authorizedMakers s' = authorizedMakers s /\ owner s' = owner s /\
  totalProducts s' = totalProducts s /\ totalVerifications s' = totalVerifications s /\
  batchVerificationCount s' = batchVerificationCount s /\
  manufacturerList s' = manufacturerList s /\ paused s' = paused s /\
  verificationHistory s' = verificationHistory s /\ events s' = events s.
Proof.
  intros H. apply onlyMaker_ok in H as [Hauth H].
  apply whenNotPaused_ok in H as [Hrun H].
  apply nonReentrant_ok in H as (Hlk & s1 & H & ->).
  unfold updateProductMetadata_body in H.
  destruct (N.eqb_spec b 0) as [|Hb]; [done |].
  change (products_at (set_locked 1 s) b) with (products_at s b) in H.
  assert (Hex : exists_ (products_at s b) = true).
  { destruct (exists_ (products_at s b)); [reflexivity | discriminate H]. }
  rewrite Hex in H.
  cbv zeta in H. cbn [negb] in H. destruct u. injection H as <-.
  split; [auto |].
  destruct (is_empty ip), (is_empty de), (is_empty im); cbn [negb];
    rewrite ?products_at_set_locked, ?products_at_insert_eq;
    (split; [by destruct (products_at s b) |]);
    (split; [intros b' Hb';
             repeat (rewrite products_at_set_locked ||
                     rewrite products_at_insert_ne by done); reflexivity |]);
    auto 15.
Qed.

Lemma updateProductMetadata_runs (e : Env) (b : N) (ip de im : string) (s : State) :
  authorizedMakers_at s (msg_sender e) = true -> paused s = false -> _locked s <> 1 ->
  b <> 0 -> exists_ (products_at s b) = true ->
  exists s', updateProductMetadata e b ip de im s = Ok (tt, s').
Proof.
  intros Hauth Hrun Hlk Hb Hex.
  unfold updateProductMetadata, onlyMaker, whenNotPaused. rewrite Hauth, Hrun. simpl.
  rewrite (nonReentrant_unlocked _ _ Hlk). unfold updateProductMetadata_body.
  destruct (N.eqb_spec b 0); [done |].
  change (products_at (set_locked 1 s) b) with (products_at s b).
  rewrite Hex. simpl. eauto.
Qed.

(** C8. A call of [updateProductMetadata] by an authorized caller on a
    running system, for a registered nonzero batch, succeeds; and after any
    successful call each of the three metadata fields holds the supplied
    value if that value is non-empty and its previous value otherwise (so a
    field that is empty afterwards was empty before), while the name, brand,
    existence flag and creation time of the batch, and every other batch,
    are unchanged. *)
Theorem updateProductMetadata_patch (e : Env) (b : uint256) (ip de im : string)
    (s : State) :
  (authorizedMakers_at s (msg_sender e) = true -> paused s = false -> _locked s <> 1 ->
   b <> 0 -> exists_ (products_at s b) = true ->
   exists s', updateProductMetadata e b ip de im s = Ok (tt, s')) /\
  (forall s', updateProductMetadata e b ip de im s = Ok (tt, s') ->
     ipfsHash (products_at s' b) =
       (if is_empty ip then ipfsHash (products_at s b) else ip) /\
     description (products_at s' b) =
       (if is_empty de then description (products_at s b) else de) /\
     imageUrl (products_at s' b) =
       (if is_empty im then imageUrl (products_at s b) else im) /\
     (ipfsHash (products_at s' b) = EmptyString ->
        ipfsHash (products_at s b) = EmptyString) /\
     (description (products_at s' b) = EmptyString ->
        description (products_at s b) = EmptyString) /\
     (imageUrl (products_at s' b) = EmptyString ->
        imageUrl (products_at s b) = EmptyString) /\
     name (products_at s' b) = name (products_at s b) /\
     brand (products_at s' b) = brand (products_at s b) /\
     exists_ (products_at s' b) = exists_ (products_at s b) /\
     registeredAt (products_at s' b) = registeredAt (products_at s b) /\
     (forall b', b' <> b -> products_at s' b' = products_at s b')).
Proof.
  split; [apply updateProductMetadata_runs |].
  intros s' H. apply updateProductMetadata_ok in H as (_ & -> & Hother & _). simpl.
  repeat split; try done.
  - destruct (is_empty ip) eqn:Hip; [done |]. intros ->. discriminate.
  - destruct (is_empty de) eqn:Hde; [done |]. intros ->. discriminate.
  - destruct (is_empty im) eqn:Him; [done |]. intros ->. discriminate.
Qed.

Lemma updateProductMetadata_patch_witness :
  exists s', updateProductMetadata deployer 1 "QmHash" EmptyString EmptyString
               example_registered = Ok (tt, s').
Proof.
  destruct (updateProductMetadata_patch deployer 1 "QmHash" EmptyString EmptyString
              example_registered) as [H _].
  apply H; try reflexivity; vm_compute; discriminate.
Defined.

(** ** Membership and last-write-wins *)

(** A call leaves a batch record alone, or leaves it registered under a
    nonzero id. *)
Lemma exec_products (e : Env) (op : Op) (s s' : State) (r : Ret) (b : N) :
  exec e op s = Ok (r, s') ->
  products_at s' b = products_at s b \/
  (b <> 0 /\ exists_ (products_at s' b) = true).
Proof.
  intros H.
  assert (Hsame : products s' = products s -> products_at s' b = products_at s b).
  { intros Heq. unfold products_at. by rewrite Heq. }
  destruct op as [mk au | b0 nm br hs0 ip de im | h0 b0 | nw | hs0 bs0 | | | b0 ip de im]; simpl in H; apply returning_ok in H as (a & H & _).
  - left. apply Hsame. unfold_calls. repeat case_match; simplify_eq; simpl; auto.
  - destruct a. pose proof (registerProduct_effect _ _ _ _ _ _ _ _ _ _ H) as (Hb & Hother & _).
    apply registerProduct_ok in H as [(_ & _ & _ & Hnz & _) _].
    destruct (decide (b = b0)) as [->|Hne].
    + right. by rewrite Hb.
    + left. by apply Hother.
  - left. apply verify_ok in H as (_ & _ & s1 & [] & ->). apply Hsame. simpl. done.
  - left. apply Hsame. unfold_calls. repeat case_match; simplify_eq; simpl; auto.
  - left. apply batchVerify_ok in H as (_ & _ & _ & s1 & H & ->).
    apply verify_entries_frame in H as (_ & Hp & _). apply Hsame. simpl. done.
  - left. apply Hsame. unfold_calls. repeat case_match; simplify_eq; simpl; auto.
  - left. apply Hsame. unfold_calls. repeat case_match; simplify_eq; simpl; auto.
  - destruct a.
    apply updateProductMetadata_ok in H as ((_ & _ & _ & Hnz & Hex) & Hb & Hother & _).
    destruct (decide (b = b0)) as [->|Hne].
    + right. rewrite Hb. simpl. auto.
    + left. by apply Hother.
Qed.

(** A registered batch stays registered. *)
Lemma exec_keeps_batch (e : Env) (op : Op) (s s' : State) (r : Ret) (b : N) :
  exec e op s = Ok (r, s') ->
  exists_ (products_at s b) = true -> exists_ (products_at s' b) = true.
Proof.
  intros H Hex. destruct (exec_products _ _ _ _ _ b H) as [->|[_ ?]]; done.
Qed.

Lemma run_keeps_batch (tr : list (Env * Op)) (b : N) :
  forall s, exists_ (products_at s b) = true -> exists_ (products_at (run tr s) b) = true.
Proof.
  induction tr as [|[e op] tr IH]; intros s Hex; simpl; [done |].
  apply IH. unfold step. simpl.
  destruct (exec e op s) as [[r s1]|] eqn:Hexec; [| done].
  eapply exec_keeps_batch; eauto.
Qed.

Lemma verify_wrong_batch (e : Env) (f b : N) (s : State) :
  paused s = false -> _locked s <> 1 -> b <> 0 ->
  exists_ (products_at s b) = true -> serialToBatch_at s f <> b ->
  verify e f b s = Revert SerialNotInBatch.
Proof.
  intros Hrun Hlk Hb Hex Hm.
  unfold verify, whenNotPaused. rewrite Hrun, (nonReentrant_unlocked _ _ Hlk).
  unfold verify_body.
  destruct (N.eqb_spec b 0); [done |].
  change (products_at (set_locked 1 s) b) with (products_at s b). rewrite Hex. simpl.
  change (serialToBatch_at (set_locked 1 s) f) with (serialToBatch_at s f).
  destruct (N.eqb_spec (serialToBatch_at s f) b); [done | reflexivity].
Qed.

(** C6. Let fingerprint [f] be supplied in a successful registration of
    batch [b1] and, after any further calls, in a successful registration of
    a different batch [b2].  Then [f] is recorded under [b1] after the first
    call and under [b2] after the second (the later call overwrites), and a
    following [verify(f, b1)] fails with [SerialNotInBatch].  In general, on
    a running system, [verify(f, b)] with [b] nonzero and registered fails
    with [SerialNotInBatch] whenever [f]'s recorded batch is not [b]. *)
Theorem last_registration_wins (e1 e2 ev : Env) (f : bytes32) (b1 b2 : uint256)
    (nm1 br1 ip1 de1 im1 nm2 br2 ip2 de2 im2 : string) (hs1 hs2 : list N)
    (tr : list (Env * Op)) (s0 s1 s2 : State) :
  registerProduct e1 b1 nm1 br1 hs1 ip1 de1 im1 s0 = Ok (tt, s1) ->
  registerProduct e2 b2 nm2 br2 hs2 ip2 de2 im2 (run tr s1) = Ok (tt, s2) ->
  f ∈ hs1 -> f ∈ hs2 -> b1 <> b2 ->
  serialToBatch_at s1 f = b1 /\
  serialToBatch_at s2 f = b2 /\
  verify ev f b1 s2 = Revert SerialNotInBatch /\
  (forall e b s,
     paused s = false -> _locked s <> 1 -> b <> 0 ->
     exists_ (products_at s b) = true -> serialToBatch_at s f <> b ->
     verify e f b s = Revert SerialNotInBatch).
Proof.
  intros Hreg1 Hreg2 Hin1 Hin2 Hne.
  destruct (registerProduct_effect _ _ _ _ _ _ _ _ _ _ Hreg1) as (Hp1 & _ & Hm1 & _).
  destruct (registerProduct_effect _ _ _ _ _ _ _ _ _ _ Hreg2) as (_ & Hp2 & Hm2 & _).
  apply registerProduct_ok in Hreg1 as [(_ & _ & _ & Hb1 & _) _].
  apply registerProduct_ok in Hreg2 as [(_ & Hrun & _) Hs2].
  split; [by apply Hm1 |]. split; [by apply Hm2 |].
  split; [| intros; by apply verify_wrong_batch].
  apply verify_wrong_batch.
  - rewrite Hs2. exact Hrun.
  - rewrite Hs2. simpl. discriminate.
  - exact Hb1.
  - rewrite Hp2 by done. apply run_keeps_batch. by rewrite Hp1.
  - rewrite (Hm2 f Hin2). congruence.
Qed.

Lemma last_registration_wins_witness :
  serialToBatch_at example_overwritten 11 = 2 /\
  verify deployer 11 1 example_overwritten = Revert SerialNotInBatch.
Proof.
  destruct (last_registration_wins deployer deployer deployer 11 1 2
              "Widget" "Acme" EmptyString EmptyString EmptyString
              "Gadget" "Acme" EmptyString EmptyString EmptyString
              [11; 12] [11] [] (constructor deployer) example_registered
              example_overwritten) as (_ & H2 & H3 & _).
  - vm_compute. reflexivity.
  - vm_compute. reflexivity.
  - constructor.
  - constructor.
  - discriminate.
  - split; [exact H2 | exact H3].
Defined.

(** ** The pause gate *)

(** C7, as the contract has it.  While the pause flag is set, [verify] and
    [batchVerify] fail with [ContractPaused] for every caller;
    [registerProduct] and [updateProductMetadata] check the caller first, so
    they fail with [ContractPaused] for an authorized caller and with
    [NotAuthorized] for any other; in all four cases the storage is
    unchanged.  [pause] and [unpause] fail with [NotOwner] unless the caller
    is the owner.  For the owner, [pause] on a paused system fails with
    [ContractPaused] and [unpause] on a running system fails with
    [ContractNotPaused]; from the opposite state (guard unlocked) each
    succeeds, flips the flag and emits the [Paused] event with the new
    value. *)
Theorem pause_gate (e : Env) (s : State) :
  (paused s = true ->
     (forall h b, verify e h b s = Revert ContractPaused) /\
     (forall hs bs, batchVerify e hs bs s = Revert ContractPaused) /\
     (forall b nm br hs ip de im,
        registerProduct e b nm br hs ip de im s =
          if authorizedMakers_at s (msg_sender e) then Revert ContractPaused
          else Revert NotAuthorized) /\
     (forall b ip de im,
        updateProductMetadata e b ip de im s =
          if authorizedMakers_at s (msg_sender e) then Revert ContractPaused
          else Revert NotAuthorized) /\
     (forall op,
        match op with
        | OpVerify _ _ | OpBatchVerify _ _ | OpRegisterProduct _ _ _ _ _ _ _
        | OpUpdateProductMetadata _ _ _ _ => step (e, op) s = s
        | _ => True
        end)) /\
  (msg_sender e <> owner s ->
     pause e s = Revert NotOwner /\ unpause e s = Revert NotOwner) /\
  (msg_sender e = owner s ->
     (paused s = true -> pause e s = Revert ContractPaused) /\
     (paused s = false -> unpause e s = Revert ContractNotPaused) /\
     (paused s = false -> _locked s <> 1 ->
        pause e s = Ok (tt, set_locked 0 (emit (Paused true) (set_paused true s)))) /\
     (paused s = true -> _locked s <> 1 ->
        unpause e s = Ok (tt, set_locked 0 (emit (Paused false) (set_paused false s))))).
Proof.
  split; [| split].
  - intros Hp.
    assert (Hv : forall h b, verify e h b s = Revert ContractPaused).
    { intros. unfold verify, whenNotPaused. by rewrite Hp. }
    assert (Hbv : forall hs bs, batchVerify e hs bs s = Revert ContractPaused).
    { intros. unfold batchVerify, whenNotPaused. by rewrite Hp. }
    assert (Hreg : forall b nm br hs ip de im,
        registerProduct e b nm br hs ip de im s =
          if authorizedMakers_at s (msg_sender e) then Revert ContractPaused
          else Revert NotAuthorized).
    { intros. unfold registerProduct, onlyMaker, whenNotPaused. rewrite Hp.
      by destruct (authorizedMakers_at s (msg_sender e)). }
    assert (Hupd : forall b ip de im,
        updateProductMetadata e b ip de im s =
          if authorizedMakers_at s (msg_sender e) then Revert ContractPaused
          else Revert NotAuthorized).
    { intros. unfold updateProductMetadata, onlyMaker, whenNotPaused. rewrite Hp.
      by destruct (authorizedMakers_at s (msg_sender e)). }
    repeat split; auto.
    intros op. destruct op; try exact I; unfold step; simpl;
      rewrite ?Hv, ?Hbv, ?Hreg, ?Hupd;
      by destruct (authorizedMakers_at s (msg_sender e)).
  - intros Hne. unfold pause, unpause, onlyOwner.
    destruct (N.eqb_spec (msg_sender e) (owner s)); [done | auto].
  - intros Hown. unfold pause, unpause, onlyOwner, whenNotPaused, whenPaused.
    destruct (N.eqb_spec (msg_sender e) (owner s)); [| done]. simpl.
    repeat split.
    + by intros ->.
    + by intros ->.
    + intros -> Hlk. by rewrite (nonReentrant_unlocked _ _ Hlk).
    + intros -> Hlk. by rewrite (nonReentrant_unlocked _ _ Hlk).
Qed.

Lemma pause_gate_witness :
  verify (mkEnv 9 2000) 11 1 example_paused = Revert ContractPaused /\
  pause deployer example_paused = Revert ContractPaused.
Proof.
  destruct (pause_gate (mkEnv 9 2000) example_paused) as ((Hv & _) & _).
  { reflexivity. }
  destruct (pause_gate deployer example_paused) as (_ & _ & (Hp & _)).
  { reflexivity. }
  split; [apply Hv | apply Hp; reflexivity].
Defined.

(** C7 as stated fails: on a paused system a caller that is not an authorized
    manufacturer gets [NotAuthorized] from [registerProduct], not the pause
    error; and the owner calling [pause] again gets [ContractPaused], not
    [ContractNotPaused]. *)
Lemma pause_gate_counterexample :
  paused example_paused = true /\
  registerProduct (mkEnv 9 2000) 3 "Gizmo" "Acme" [31] EmptyString EmptyString
    EmptyString example_paused = Revert NotAuthorized /\
  registerProduct (mkEnv 9 2000) 3 "Gizmo" "Acme" [31] EmptyString EmptyString
    EmptyString example_paused <> Revert ContractPaused /\
  msg_sender deployer = owner example_paused /\
  pause deployer example_paused = Revert ContractPaused /\
  pause deployer example_paused <> Revert ContractNotPaused.
Proof.
  repeat split; try reflexivity; vm_compute; discriminate.
Qed.

(** ** [authorizeManufacturer] *)

(** Overwriting slot [k], which holds [a], with the last element and popping
    removes one occurrence of [a] and keeps everything else. *)
Lemma swap_pop_perm (l : list N) (k : nat) (a y : N) :
  l !! k = Some a -> last l = Some y ->
  l ≡ₚ a :: removelast (<[k := y]> l).
Proof.
  intros Hk Hlast. apply last_Some in Hlast as [l0 ->].
  apply lookup_snoc_Some in Hk as [[Hlt Hk]|[-> ->]].
  - rewrite insert_app_l by done. rewrite removelast_last.
    rewrite insert_take_drop by done.
    rewrite <- (take_drop_middle l0 k a Hk) at 1.
    rewrite <- !Permutation_middle. simpl.
    rewrite app_nil_r. apply perm_swap.
  - rewrite list_insert_id by (by rewrite list_lookup_middle).
    rewrite removelast_last. by rewrite <- Permutation_cons_append.
Qed.

(** The removal loop finds the first slot holding [maker], if any. *)
Lemma remove_loop_spec (maker : N) (l : list N) :
  forall n i : nat,
    (i + n)%nat = length l ->
    (forall j, (j < i)%nat -> l !! j <> Some maker) ->
    ((maker ∉ l) /\ remove_loop maker n i l = Ok l) \/
    (exists l', remove_loop maker n i l = Ok l' /\ l ≡ₚ maker :: l').
Proof.
  induction n as [|n IH]; intros i Hi Hbefore.
  - left. split; [| reflexivity].
    intros [j Hj]%list_elem_of_lookup. apply (Hbefore j); [| done].
    apply lookup_lt_Some in Hj. lia.
  - destruct (lookup_lt_is_Some_2 l i) as [x Hx]; [lia |].
    simpl. rewrite Hx.
    destruct (N.eqb_spec x maker) as [->|Hne].
    + right.
      destruct (lookup_lt_is_Some_2 l (length l - 1)) as [y Hy]; [lia |].
      rewrite Hy. eexists. split; [reflexivity |].
      apply swap_pop_perm; [done |].
      by rewrite last_lookup, <- Nat.sub_1_r.
    + apply IH; [lia |].
      intros j Hj. destruct (decide (j = i)) as [->|]; [congruence |].
      apply Hbefore. lia.
Qed.

Lemma authorizeManufacturer_revoke (e : Env) (a : N) (s : State) (l' : list N) :
  msg_sender e = owner s -> _locked s <> 1 -> a <> 0 ->
  authorizedMakers_at s a = true ->
  remove_loop a (length (manufacturerList s)) 0 (manufacturerList s) = Ok l' ->
  authorizeManufacturer e a false s =
    Ok (tt, set_locked 0 (emit (ManufacturerAuthorized a false)
              (set_manufacturerList l'
                 (set_authorizedMakers (<[a := false]> (authorizedMakers s))
                    (set_locked 1 s))))).
Proof.
  intros Hown Hlk Ha Hauth Hloop.
  unfold authorizeManufacturer, onlyOwner. rewrite Hown, N.eqb_refl. simpl.
  rewrite (nonReentrant_unlocked _ _ Hlk). unfold authorizeManufacturer_body.
  destruct (N.eqb_spec a 0); [done |].
  change (authorizedMakers_at (set_locked 1 s) a) with (authorizedMakers_at s a).
  rewrite Hauth. simpl. rewrite Hloop. reflexivity.
Qed.

Lemma authorizeManufacturer_grant (e : Env) (a : N) (s : State) :
  msg_sender e = owner s -> _locked s <> 1 -> a <> 0 ->
  authorizeManufacturer e a true s =
    Ok (tt, set_locked 0 (emit (ManufacturerAuthorized a true)
              (set_manufacturerList
                 (if authorizedMakers_at s a then manufacturerList s
                  else manufacturerList s ++ [a])
                 (set_authorizedMakers (<[a := true]> (authorizedMakers s))
                    (set_locked 1 s))))).
Proof.
  intros Hown Hlk Ha.
  unfold authorizeManufacturer, onlyOwner. rewrite Hown, N.eqb_refl. simpl.
  rewrite (nonReentrant_unlocked _ _ Hlk). unfold authorizeManufacturer_body.
  destruct (N.eqb_spec a 0); [done |].
  change (authorizedMakers_at (set_locked 1 s) a) with (authorizedMakers_at s a).
  destruct (authorizedMakers_at s a); reflexivity.
Qed.

(** C9. Let the owner call, with the guard unlocked, for a nonzero address
    [a] that is authorized.  If [a] occurs exactly once in the manufacturer
    list, revoking [a] succeeds, clears its flag and removes it from the
    list; granting it again succeeds, sets the flag and leaves [a]
    occurring exactly once, the list being a rearrangement of the original
    one.  And granting the already authorized [a] succeeds, leaves the list
    as it is and still appends the [ManufacturerAuthorized] event. *)
Theorem revoke_then_regrant (e1 e2 : Env) (a : address) (s : State) :
  msg_sender e1 = owner s -> msg_sender e2 = owner s ->
  _locked s <> 1 -> a <> 0 -> authorizedMakers_at s a = true ->
  (count_occ N.eq_dec (manufacturerList s) a = 1%nat ->
   exists s1 s2,
     authorizeManufacturer e1 a false s = Ok (tt, s1) /\
     authorizedMakers_at s1 a = false /\
     (a ∉ manufacturerList s1) /\
     authorizeManufacturer e2 a true s1 = Ok (tt, s2) /\
     authorizedMakers_at s2 a = true /\
     count_occ N.eq_dec (manufacturerList s2) a = 1%nat /\
     manufacturerList s2 ≡ₚ manufacturerList s) /\
  (exists s3,
     authorizeManufacturer e1 a true s = Ok (tt, s3) /\
     authorizedMakers_at s3 a = true /\
     manufacturerList s3 = manufacturerList s /\
     events s3 = events s ++ [ManufacturerAuthorized a true]).
Proof.
  intros Hown1 Hown2 Hlk Ha Hauth. split.
  - intros Hcount.
    destruct (remove_loop_spec a (manufacturerList s) (length (manufacturerList s)) 0)
      as [[Hnin _]|(l' & Hloop & Hperm)]; [lia | intros j Hj; lia | |].
    { rewrite list_elem_of_In in Hnin. apply (count_occ_not_In N.eq_dec) in Hnin. lia. }
    assert (Hnin : a ∉ l').
    { intros Hin. rewrite list_elem_of_In in Hin. apply (count_occ_In N.eq_dec) in Hin.
      rewrite (Permutation_count_occ N.eq_dec) in Hperm. specialize (Hperm a).
      rewrite count_occ_cons_eq in Hperm by done. lia. }
    eexists _, _.
    split; [by apply authorizeManufacturer_revoke |].
    split; [unfold authorizedMakers_at; simpl; by rewrite lookup_insert_eq |].
    split; [exact Hnin |].
    rewrite authorizeManufacturer_grant by (simpl; done || discriminate).
    split; [reflexivity |].
    unfold authorizedMakers_at. simpl. rewrite !lookup_insert_eq. simpl.
    split; [reflexivity |].
    assert (Hperm' : l' ++ [a] ≡ₚ manufacturerList s).
    { by rewrite Hperm, <- Permutation_cons_append. }
    split; [| exact Hperm'].
    rewrite (Permutation_count_occ N.eq_dec) in Hperm'. by rewrite Hperm'.
  - eexists. split; [by apply authorizeManufacturer_grant |].
    rewrite Hauth. unfold authorizedMakers_at. simpl.
    by rewrite lookup_insert_eq.
Qed.

Lemma revoke_then_regrant_witness :
  exists s1 s2,
    authorizeManufacturer deployer 1 false example_registered = Ok (tt, s1) /\
    authorizeManufacturer deployer 1 true s1 = Ok (tt, s2) /\
    manufacturerList s2 ≡ₚ manufacturerList example_registered.
Proof.
  destruct (revoke_then_regrant deployer deployer 1 example_registered) as [H _];
    try reflexivity; try (vm_compute; discriminate).
  destruct H as (s1 & s2 & H1 & _ & _ & H2 & _ & _ & H3); [reflexivity |].
  exists s1, s2. auto.
Defined.

(** ** Fingerprints that were never registered *)

Lemma verify_entry_unregistered (e : Env) (f h b : N) (s s1 : State) (r : bool) :
  unregistered f s -> verify_entry e h b s = Ok (r, s1) ->
  unregistered f s1 /\ (h = f -> r = false).
Proof.
  intros [Hm Hs Hh] H. apply verify_entry_ok in H as [(_ & -> & ->)|[_ []]].
  - by split.
  - assert (Hne : f <> h).
    { intros ->. unfold serialToBatch_at in *. congruence. }
    split; [| congruence].
    split.
    + unfold serialToBatch_at in *. by rewrite ve_serialToBatch0.
    + by rewrite ve_status_other0.
    + by rewrite ve_history_other0.
Qed.

Lemma verify_entries_unregistered (e : Env) (f : N) (hs bs : list N) :
  forall (s s' : State) (rs : list bool),
    unregistered f s -> verify_entries e hs bs s = Ok (rs, s') ->
    unregistered f s' /\ (forall i, hs !! i = Some f -> rs !! i = Some false \/ rs !! i = None).
Proof.
  revert bs. induction hs as [|h hs IH]; intros bs s s' rs Hun; simpl.
  - intros [= <- <-]. split; [done |]. intros i Hi. by rewrite lookup_nil in Hi.
  - destruct bs as [|b bs].
    { intros [= <- <-]. split; [done |]. intros i _. right. apply lookup_nil. }
    destruct (verify_entry e h b s) as [[r s1]|] eqn:Hent; simpl; [| done].
    destruct (verify_entries e hs bs s1) as [[rs1 s2]|] eqn:Hrest; simpl; [| done].
    intros [= <- <-].
    destruct (verify_entry_unregistered _ _ _ _ _ _ _ Hun Hent) as [Hun1 Hr].
    destruct (IH _ _ _ _ Hun1 Hrest) as [Hun2 Hrs].
    split; [done |].
    intros [|i] Hi; simpl in *.
    + left. injection Hi as ->. by rewrite Hr.
    + by apply Hrs.
Qed.

Lemma set_locked_unregistered (f : N) (v : N) (s : State) :
  unregistered f (set_locked v s) <-> unregistered f s.
Proof. split; intros [? ? ?]; by split. Qed.

Lemma newly_verified_false (v : bool) : newly_verified v false = 0%nat.
Proof. unfold newly_verified. by rewrite andb_false_r. Qed.

(** A call that does not register [f] leaves it unknown and does not report
    it authentic. *)
Lemma exec_unregistered (e : Env) (f : N) (op : Op) (s s' : State) (r : Ret) :
  unregistered f s -> exec e op s = Ok (r, s') -> supplies f op = false ->
  unregistered f s' /\ authentic_in f op r = 0%nat.
Proof.
  intros Hun H Hsup.
  assert (Hkeep : unregistered f s').
  { pose proof (exec_frame _ _ _ _ _ H) as Hfr.
    destruct Hun as [Hm Hs Hh].
    destruct op as [mk au | b0 nm br hs0 ip de im | h0 b0 | nw | hs0 bs0 | | | b0 ip de im]; simpl in H; apply returning_ok in H as (a & H & _).
    - destruct Hfr as (Hv & Hhi & Hb).
      split; unfold serialToBatch_at, serialVerified_at, verificationHistory_at in *;
        by rewrite ?Hv, ?Hhi, ?Hb.
    - destruct Hfr as (Hv & Hhi & Hb). simpl in Hsup.
      apply bool_decide_eq_false in Hsup.
      split; unfold serialToBatch_at, serialVerified_at, verificationHistory_at in *;
        rewrite ?Hv, ?Hhi, ?Hb; try done.
      by rewrite foldl_insert_lookup, bool_decide_eq_false_2.
    - apply whenNotPaused_ok in H as [_ H].
      apply nonReentrant_ok in H as (_ & s1 & H & ->).
      apply set_locked_unregistered.
      assert (Hent : verify_entry e h0 b0 (set_locked 1 s) = Ok (a, s1)).
      { unfold verify_entry.
        destruct (entry_rejected (set_locked 1 s) h0 b0) eqn:Hrej; [| done].
        apply entry_rejected_iff in Hrej. apply verify_body_ok in H. destruct H.
        destruct Hrej as [?|[?|?]]; congruence. }
      eapply verify_entry_unregistered; [| exact Hent]. by split.
    - destruct Hfr as (Hv & Hhi & Hb).
      split; unfold serialToBatch_at, serialVerified_at, verificationHistory_at in *;
        by rewrite ?Hv, ?Hhi, ?Hb.
    - apply batchVerify_ok in H as (_ & _ & _ & s1 & H & ->).
      apply set_locked_unregistered.
      eapply verify_entries_unregistered; [| exact H]. by split.
    - destruct Hfr as (Hv & Hhi & Hb).
      split; unfold serialToBatch_at, serialVerified_at, verificationHistory_at in *;
        by rewrite ?Hv, ?Hhi, ?Hb.
    - destruct Hfr as (Hv & Hhi & Hb).
      split; unfold serialToBatch_at, serialVerified_at, verificationHistory_at in *;
        by rewrite ?Hv, ?Hhi, ?Hb.
    - destruct Hfr as (Hv & Hhi & Hb).
      split; unfold serialToBatch_at, serialVerified_at, verificationHistory_at in *;
        by rewrite ?Hv, ?Hhi, ?Hb. }
  split; [exact Hkeep |].
  destruct (exec_authentic e f _ _ _ _ H) as [-> _].
  destruct Hkeep as [_ -> _]. apply newly_verified_false.
Qed.

Lemma run_unregistered (f : N) (tr : list (Env * Op)) :
  forall s : State,
    unregistered f s -> never_registered f tr s = true ->
    unregistered f (run tr s) /\ authentic_count f tr s = 0%nat.
Proof.
  induction tr as [|[e op] tr IH]; intros s Hun Hnever; simpl in *; [done |].
  unfold step. simpl.
  destruct (exec e op s) as [[r s1]|] eqn:Hex; [| by apply IH].
  apply andb_true_iff in Hnever as [Hsup Hnever]. apply negb_true_iff in Hsup.
  destruct (exec_unregistered _ _ _ _ _ _ Hun Hex Hsup) as [Hun1 ->].
  by apply IH.
Qed.

(** Every successful call leaves the guard unlocked and batch 0 absent. *)
Lemma exec_at_rest (e : Env) (op : Op) (s s' : State) (r : Ret) :
  at_rest s -> exec e op s = Ok (r, s') -> at_rest s'.
Proof.
  intros [Hlk Hz] H. split.
  - destruct op; simpl in H; apply returning_ok in H as (a & H & _);
      repeat first
        [ apply onlyOwner_ok in H as [_ H]
        | apply onlyMaker_ok in H as [_ H]
        | apply whenNotPaused_ok in H as [_ H]
        | apply whenPaused_ok in H as [_ H] ];
      apply nonReentrant_ok in H as (_ & s1 & _ & ->); reflexivity.
  - destruct (exec_products _ _ _ _ _ 0 H) as [->|[? _]]; done.
Qed.

Lemma run_at_rest (tr : list (Env * Op)) :
  forall s : State, at_rest s -> at_rest (run tr s).
Proof.
  induction tr as [|[e op] tr IH]; intros s Hrest; simpl; [done |].
  apply IH. unfold step. simpl.
  destruct (exec e op s) as [[r s1]|] eqn:Hex; [| done].
  eapply exec_at_rest; eauto.
Qed.

Lemma constructor_at_rest (d : Env) : at_rest (constructor d).
Proof. by split. Qed.

Lemma constructor_unregistered (d : Env) (f : N) : unregistered f (constructor d).
Proof. by split. Qed.

(** [verify] on an unknown fingerprint always fails, on one of its three
    guards unless the pause gate or the reentrancy guard fails first. *)
Lemma verify_unregistered (e : Env) (f b : N) (s : State) :
  serialToBatch_at s f = 0 ->
  exists err, verify e f b s = Revert err /\
    (paused s = false -> _locked s <> 1 ->
       (b = 0 /\ err = InvalidBatchId) \/
       (b <> 0 /\ exists_ (products_at s b) = false /\ err = BatchNotFound) \/
       (b <> 0 /\ exists_ (products_at s b) = true /\ err = SerialNotInBatch)).
Proof.
  intros Hm. unfold verify, whenNotPaused.
  destruct (paused s); [eexists; split; [reflexivity | done] |].
  unfold nonReentrant.
  destruct (N.eqb_spec (_locked s) 1); [eexists; split; [reflexivity | done] |].
  unfold verify_body.
  change (products_at (set_locked 1 s) b) with (products_at s b).
  change (serialToBatch_at (set_locked 1 s) f) with (serialToBatch_at s f).
  rewrite Hm.
  destruct (N.eqb_spec b 0) as [Hb|Hb]; [eexists; split; [reflexivity | auto] |].
  destruct (exists_ (products_at s b)); cbn [negb];
    [| eexists; split; [reflexivity | auto 10]].
  destruct (N.eqb_spec 0 b); [congruence |]. cbn [negb].
  eexists; split; [reflexivity | auto 10].
Qed.

(** C10. Take any sequence of calls after deployment in which no successful
    [registerProduct] supplied fingerprint [f].  In the storage it leads to,
    [f]'s recorded batch is the default zero, batch 0 is not registered, [f]
    is unverified with an empty history, and no call of the sequence
    reported [f] authentic.  From there every [verify] of [f] fails and
    changes nothing; on a running system the error is [InvalidBatchId] (for
    batch id zero), [BatchNotFound] or [SerialNotInBatch].  And in every
    successful [batchVerify] each slot whose fingerprint is [f] holds
    [false], while [f] stays unverified with an empty history. *)
Theorem unregistered_never_authentic (d : Env) (f : bytes32) (tr : list (Env * Op)) :
  never_registered f tr (constructor d) = true ->
  let s := run tr (constructor d) in
  serialToBatch_at s f = 0 /\
  exists_ (products_at s 0) = false /\
  serialVerified_at s f = false /\
  verificationHistory_at s f = [] /\
  authentic_count f tr (constructor d) = 0%nat /\
  (forall e b,
     (exists err, verify e f b s = Revert err /\
        (paused s = false ->
           (b = 0 /\ err = InvalidBatchId) \/
           (b <> 0 /\ err = BatchNotFound) \/
           (b <> 0 /\ err = SerialNotInBatch))) /\
     step (e, OpVerify f b) s = s) /\
  (forall e hs bs rs s',
     batchVerify e hs bs s = Ok (rs, s') ->
     (forall i, hs !! i = Some f -> rs !! i = Some false) /\
     serialVerified_at s' f = false /\
     verificationHistory_at s' f = []).
Proof.
  intros Hnever s.
  destruct (run_unregistered f tr (constructor d) (constructor_unregistered d f) Hnever)
    as [Hun Hcount].
  pose proof (run_at_rest tr _ (constructor_at_rest d)) as [Hlk Hz].
  fold s in Hun, Hlk, Hz.
  destruct Hun as [Hm Hs Hh].
  split; [exact Hm |]. split; [exact Hz |]. split; [exact Hs |].
  split; [exact Hh |]. split; [exact Hcount |]. split.
  - intros e b. destruct (verify_unregistered e f b s Hm) as (err & Hv & Herr).
    split.
    + exists err. split; [exact Hv |]. intros Hrun.
      destruct Herr as [?|[(? & _ & ?)|(? & _ & ?)]]; auto.
      rewrite Hlk. discriminate.
    + unfold step. simpl. by rewrite Hv.
  - intros e hs bs rs s' H.
    apply batchVerify_ok in H as (_ & _ & Hlen & s1 & H & ->).
    pose proof (verify_entries_length e hs bs Hlen _ _ _ H) as Hrs.
    destruct (verify_entries_unregistered e f hs bs (set_locked 1 s) s1 rs) as [Hun1 Hslots];
      [by split | exact H |].
    destruct Hun1 as [_ Hs1 Hh1].
    split; [| by split].
    intros i Hi. destruct (Hslots i Hi) as [?|Hnone]; [done |].
    apply lookup_ge_None in Hnone. apply lookup_lt_Some in Hi. lia.
Qed.

Lemma unregistered_never_authentic_witness :
  serialToBatch_at example_registered 13 = 0 /\
  step (deployer, OpVerify 13 1) example_registered = example_registered.
Proof.
  destruct (unregistered_never_authentic deployer 13
              [(deployer,
                OpRegisterProduct 1 "Widget" "Acme" [11; 12] EmptyString EmptyString
                  EmptyString)]) as (H1 & _ & _ & _ & _ & H & _).
  - vm_compute. reflexivity.
  - split; [exact H1 | apply (H deployer 1)].
Defined.

(** * Further properties of the contract *)

(** ** Bulk queries *)

Lemma take_insert_snoc {A} (l : list A) (i : nat) (x : A) :
  (i < length l)%nat -> take (S i) (<[i := x]> l) = take i l ++ [x].
Proof.
  intros Hi. rewrite (take_S_r _ _ x) by (by apply list_lookup_insert_eq).
  by rewrite take_insert_ge.
Qed.

Lemma getProductsBatch_loop_columns (s : State) (batchIds : list N) :
  forall (n i : nat) (out : ProductArrays),
    (i + n)%nat = length batchIds ->
    length (names out) = length batchIds ->
    length (brands out) = length batchIds ->
    length (existsArray out) = length batchIds ->
    length (registeredAtArray out) = length batchIds ->
    length (ipfsHashes out) = length batchIds ->
    length (descriptions out) = length batchIds ->
    length (imageUrls out) = length batchIds ->
    getProductsBatch_loop s batchIds n i out =
      Ok (let rest := columns (map (getProduct s) (drop i batchIds)) in
          mkProductArrays
            (take i (names out) ++ names rest)
            (take i (brands out) ++ brands rest)
            (take i (existsArray out) ++ existsArray rest)
            (take i (registeredAtArray out) ++ registeredAtArray rest)
            (take i (ipfsHashes out) ++ ipfsHashes rest)
            (take i (descriptions out) ++ descriptions rest)
            (take i (imageUrls out) ++ imageUrls rest)).
Proof.
  induction n as [|n IH]; intros i out Hi H1 H2 H3 H4 H5 H6 H7.
  - rewrite drop_ge by lia. simpl. rewrite !take_ge by lia.
    rewrite !app_nil_r. by destruct out.
  - destruct (lookup_lt_is_Some_2 batchIds i) as [b Hb]; [lia |].
    simpl. rewrite Hb.
    rewrite IH by (simpl; rewrite ?length_insert; lia).
    rewrite (drop_S _ _ _ Hb). simpl.
    rewrite !take_insert_snoc by lia.
    rewrite <- !app_assoc. reflexivity.
Qed.

(** X1. [getProductsBatch] never fails, and its seven arrays are the columns
    of the [getProduct] results of the requested ids, in input order: each
    array has one slot per id, and the slots at index [i] are the fields of
    [getProduct (batchIds[i])]. *)
Theorem getProductsBatch_columns (s : State) (batchIds : list N) :
  getProductsBatch s batchIds = Ok (columns (map (getProduct s) batchIds)) /\
  length (names (columns (map (getProduct s) batchIds))) = length batchIds /\
  (forall i b, batchIds !! i = Some b ->
     names (columns (map (getProduct s) batchIds)) !! i = Some (name (products_at s b)) /\
     brands (columns (map (getProduct s) batchIds)) !! i = Some (brand (products_at s b)) /\
     existsArray (columns (map (getProduct s) batchIds)) !! i =
       Some (exists_ (products_at s b)) /\
     registeredAtArray (columns (map (getProduct s) batchIds)) !! i =
       Some (registeredAt (products_at s b)) /\
     ipfsHashes (columns (map (getProduct s) batchIds)) !! i =
       Some (ipfsHash (products_at s b)) /\
     descriptions (columns (map (getProduct s) batchIds)) !! i =
       Some (description (products_at s b)) /\
     imageUrls (columns (map (getProduct s) batchIds)) !! i =
       Some (imageUrl (products_at s b))).
Proof.
  split; [| split].
  - unfold getProductsBatch.
    rewrite getProductsBatch_loop_columns by (simpl; rewrite ?length_replicate; lia).
    by rewrite drop_0.
  - simpl. by rewrite !length_map.
  - intros i b Hb. simpl.
    rewrite !list_lookup_fmap, Hb. simpl. auto 10.
Qed.

Lemma getProductsBatch_columns_witness :
  existsArray (columns (map (getProduct example_registered) [1; 99])) !! 1%nat =
    Some (exists_ (products_at example_registered 99)).
Proof.
  destruct (getProductsBatch_columns example_registered [1; 99]) as (_ & _ & H).
  destruct (H 1%nat 99) as (_ & _ & H3 & _); [reflexivity | exact H3].
Defined.

Lemma getVerificationHistoryBatch_loop_map (s : State) (serialHashes : list N) :
  forall (n i : nat) (records : list (list VerificationRecord)),
    (i + n)%nat = length serialHashes -> length records = length serialHashes ->
    getVerificationHistoryBatch_loop s serialHashes n i records =
      Ok (take i records ++ map (getVerificationHistory s) (drop i serialHashes)).
Proof.
  induction n as [|n IH]; intros i records Hi Hlen.
  - rewrite drop_ge by lia. simpl. rewrite take_ge by lia. by rewrite app_nil_r.
  - destruct (lookup_lt_is_Some_2 serialHashes i) as [h Hh]; [lia |].
    simpl. rewrite Hh. rewrite IH by (rewrite ?length_insert; lia).
    rewrite (drop_S _ _ _ Hh). simpl.
    rewrite take_insert_snoc by lia. by rewrite <- app_assoc.
Qed.

(** X2. [getVerificationHistoryBatch] never fails and returns, in input
    order, exactly the histories [getVerificationHistory] returns for each
    requested hash; a hash that was never verified contributes an empty
    history. *)
Theorem getVerificationHistoryBatch_map (s : State) (serialHashes : list N) :
  getVerificationHistoryBatch s serialHashes =
    Ok (map (getVerificationHistory s) serialHashes) /\
  (forall i h, serialHashes !! i = Some h ->
     map (getVerificationHistory s) serialHashes !! i =
       Some (getVerificationHistory s h)) /\
  (forall h, verificationHistory s !! h = None -> getVerificationHistory s h = []).
Proof.
  split; [| split].
  - unfold getVerificationHistoryBatch.
    rewrite getVerificationHistoryBatch_loop_map by (rewrite ?length_replicate; lia).
    by rewrite drop_0.
  - intros i h Hh. by rewrite list_lookup_fmap, Hh.
  - intros h Hh. unfold getVerificationHistory, verificationHistory_at. by rewrite Hh.
Qed.

Lemma getVerificationHistoryBatch_map_witness :
  getVerificationHistory example_registered 11 = [].
Proof.
  destruct (getVerificationHistoryBatch_map example_registered [11]) as (_ & _ & H).
  apply H. reflexivity.
Defined.

(** ** Explicit post-states *)

(** The storage a successful body of [verify] leaves. *)
Lemma verify_body_state (e : Env) (h b : N) (s s' : State) (r : bool) :
  verify_body e h b s = Ok (r, s') ->
  s' = emit (Verified h b r (msg_sender e) (block_timestamp e))
         (set_verificationHistory
            (<[h := verificationHistory_at s h ++
                 [mkVerificationRecord h b (msg_sender e) (block_timestamp e) r]]>
               (verificationHistory s))
            (if r then
               set_batchVerificationCount
                 (<[b := batchVerificationCount_at s b + 1]> (batchVerificationCount s))
                 (set_totalVerifications (totalVerifications s + 1)
                    (set_serialVerified (<[h := true]> (serialVerified s)) s))
             else s)).
Proof.
  unfold verify_body.
  destruct (b =? 0); [done |].
  destruct (exists_ (products_at s b)); [| done].
  destruct (serialToBatch_at s h =? b); [| done]. cbn [negb].
  destruct (serialVerified_at s h); cbn [negb].
  - simpl. by intros [= <- <-].
  - destruct (checked_incr (totalVerifications _)) as [tv|] eqn:Htv; [| done].
    apply checked_incr_inv in Htv as [-> _]. simpl.
    destruct (checked_incr _) as [bc|] eqn:Hbc; [| done].
    apply checked_incr_inv in Hbc as [-> _]. simpl.
    by intros [= <- <-].
Qed.

(** Calls that only administer the contract leave registry and ledger alone. *)
Lemma admin_frame (e : Env) (op : Op) (s s' : State) (r : Ret) :
  exec e op s = Ok (r, s') ->
  match op with
  | OpAuthorizeManufacturer _ _ | OpTransferOwnership _ | OpPause | OpUnpause =>
      serialVerified s' = serialVerified s /\ serialToBatch s' = serialToBatch s /\
      products s' = products s /\ totalProducts s' = totalProducts s /\
      totalVerifications s' = totalVerifications s /\
      batchVerificationCount s' = batchVerificationCount s /\
      verificationHistory s' = verificationHistory s
  | _ => True
  end.
Proof.
  destruct op as [mk au | b0 nm br hs0 ip de im | h0 b0 | nw | hs0 bs0 | | | b0 ip de im];
    intros H; try exact I;
    unfold_calls; repeat case_match; simplify_eq; simpl; auto 10.
Qed.

Lemma registry_ok_ext (s s' : State) :
  products s' = products s -> totalProducts s' = totalProducts s ->
  serialToBatch s' = serialToBatch s -> registry_ok s -> registry_ok s'.
Proof.
  intros Hp Ht Hm [H1 H2 H3].
  split; unfold products_at in *; rewrite ?Hp, ?Ht, ?Hm; auto.
Qed.

Lemma ledger_ok_ext (s s' : State) :
  serialVerified s' = serialVerified s -> totalVerifications s' = totalVerifications s ->
  batchVerificationCount s' = batchVerificationCount s ->
  verificationHistory s' = verificationHistory s ->
  serialToBatch s' = serialToBatch s -> ledger_ok s -> ledger_ok s'.
Proof.
  intros Hv Ht Hc Hh Hm [H1 H2 H3 H4 H5].
  split; unfold serialVerified_at, serialToBatch_at, verificationHistory_at in *;
    rewrite ?Hv, ?Ht, ?Hc, ?Hh, ?Hm; auto.
Qed.

(** ** The verification ledger *)

Lemma count_sum_comm (j1 j2 : N) (z1 z2 y : N) : z1 + (z2 + y) = z2 + (z1 + y).
Proof. lia. Qed.

Lemma count_sum_lookup (m : gmap N N) (b c : N) :
  m !! b = Some c -> count_sum m = c + count_sum (delete b m).
Proof.
  intros Hb. unfold count_sum.
  rewrite (map_fold_delete_L _ _ b c m); [done | | done].
  intros. apply (count_sum_comm j1 j2).
Qed.

Lemma count_sum_insert_fresh (m : gmap N N) (b c : N) :
  m !! b = None -> count_sum (<[b := c]> m) = c + count_sum m.
Proof.
  intros Hb. unfold count_sum.
  rewrite map_fold_insert_L; [done | | done].
  intros. apply (count_sum_comm j1 j2).
Qed.

Lemma count_sum_incr (m : gmap N N) (b : N) :
  count_sum (<[b := default 0 (m !! b) + 1]> m) = count_sum m + 1.
Proof.
  destruct (m !! b) as [c|] eqn:Hb; simpl.
  - rewrite <- insert_delete_eq.
    rewrite count_sum_insert_fresh by apply lookup_delete_eq.
    rewrite (count_sum_lookup m b c Hb). lia.
  - rewrite count_sum_insert_fresh by done. lia.
Qed.

Lemma count_sum_bound (m : gmap N N) (b : N) : default 0 (m !! b) <= count_sum m.
Proof.
  destruct (m !! b) as [c|] eqn:Hb; simpl; [| lia].
  rewrite (count_sum_lookup m b c Hb). lia.
Qed.

Lemma history_shape_append (f b : N) (a : address) (t : N) (v : bool)
    (l : list VerificationRecord) :
  b <> 0 -> history_shape f v l ->
  history_shape f true (l ++ [mkVerificationRecord f b a t (negb v)]).
Proof.
  intros Hb [Htag Hshape]. split.
  - apply Forall_app. split; [done |]. by repeat constructor.
  - destruct l as [|r0 rest]; simpl.
    + subst v. by repeat constructor.
    + destruct Hshape as (-> & Hr0 & Hrest). repeat split; [done |].
      apply Forall_app. split; [done |]. by repeat constructor.
Qed.

(** A successful body of [verify] keeps the ledger consistent. *)
Lemma verify_body_ledger (e : Env) (h b : N) (s s' : State) (r : bool) :
  ledger_ok s -> verify_body e h b s = Ok (r, s') -> ledger_ok s'.
Proof.
  intros [Htrue Htot Hsum Hmem Hhist] Hbody.
  pose proof (verify_body_ok _ _ _ _ _ _ Hbody) as Heff.
  pose proof (ve_batch_nonzero _ _ _ _ _ _ Heff) as Hb.
  pose proof (ve_member _ _ _ _ _ _ Heff) as Hm.
  pose proof (ve_result _ _ _ _ _ _ Heff) as Hr.
  apply verify_body_state in Hbody. clear Heff.
  assert (Hshape : forall f, history_shape f
            (if decide (f = h) then true else serialVerified_at s f)
            (default [] (<[h := verificationHistory_at s h ++
                 [mkVerificationRecord h b (msg_sender e) (block_timestamp e) r]]>
               (verificationHistory s) !! f))).
  { intros f. destruct (decide (f = h)) as [->|Hne].
    - rewrite lookup_insert_eq. simpl. rewrite Hr.
      by apply history_shape_append.
    - rewrite lookup_insert_ne by done. apply Hhist. }
  destruct r; subst s'.
  - symmetry in Hr. apply negb_true_iff in Hr.
    assert (Hnone : serialVerified s !! h = None).
    { unfold serialVerified_at in Hr. destruct (serialVerified s !! h) as [v|] eqn:Hv;
        [| done]. apply Htrue in Hv. subst v. discriminate. }
    split; unfold serialVerified_at, serialToBatch_at, verificationHistory_at,
      batchVerificationCount_at in *; simpl.
    + intros f v. destruct (decide (f = h)) as [->|Hne].
      * rewrite lookup_insert_eq. congruence.
      * rewrite lookup_insert_ne by done. apply Htrue.
    + rewrite map_size_insert_None by done. lia.
    + rewrite count_sum_incr. lia.
    + intros f. destruct (decide (f = h)) as [->|Hne].
      * intros _. congruence.
      * rewrite lookup_insert_ne by done. apply Hmem.
    + intros f. specialize (Hshape f).
      destruct (decide (f = h)) as [->|Hne].
      * by rewrite lookup_insert_eq.
      * by rewrite lookup_insert_ne by done.
  - symmetry in Hr. apply negb_false_iff in Hr.
    split; unfold serialVerified_at, serialToBatch_at, verificationHistory_at in *;
      simpl; auto.
    intros f. specialize (Hshape f).
    destruct (decide (f = h)) as [->|Hne]; [by rewrite Hr | done].
Qed.

Lemma verify_entries_ledger (e : Env) (hs bs : list N) :
  forall (s s' : State) (rs : list bool),
    ledger_ok s -> verify_entries e hs bs s = Ok (rs, s') -> ledger_ok s'.
Proof.
  revert bs. induction hs as [|h hs IH]; intros bs s s' rs Hok; simpl.
  - by intros [= <- <-].
  - destruct bs as [|b bs]; [by intros [= <- <-] |].
    destruct (verify_entry e h b s) as [[r s1]|] eqn:Hent; simpl; [| done].
    destruct (verify_entries e hs bs s1) as [[rs1 s2]|] eqn:Hrest; simpl; [| done].
    intros [= <- <-]. simpl. eapply IH; [| exact Hrest].
    unfold verify_entry in Hent. destruct (entry_rejected s h b).
    + by injection Hent as <- <-.
    + eapply verify_body_ledger; eauto.
Qed.

(** Everything a run of [batchVerify] entries leaves as it was. *)
Lemma verify_entries_keeps (e : Env) (hs bs : list N) :
  forall (s s' : State) (rs : list bool),
    verify_entries e hs bs s = Ok (rs, s') ->
    products s' = products s /\ serialToBatch s' = serialToBatch s /\
    totalProducts s' = totalProducts s /\ owner s' = owner s /\
    authorizedMakers s' = authorizedMakers s /\
    manufacturerList s' = manufacturerList s /\ paused s' = paused s /\
    _locked s' = _locked s.
Proof.
  revert bs. induction hs as [|h hs IH]; intros bs s s' rs; simpl.
  - intros [= <- <-]. auto 10.
  - destruct bs as [|b bs]; [intros [= <- <-]; auto 10 |].
    destruct (verify_entry e h b s) as [[r s1]|] eqn:Hent; simpl; [| done].
    destruct (verify_entries e hs bs s1) as [[rs1 s2]|] eqn:Hrest; simpl; [| done].
    intros [= <- <-]. simpl.
    apply IH in Hrest as (-> & -> & -> & -> & -> & -> & -> & ->).
    apply verify_entry_ok in Hent as [(_ & _ & ->)|[_ []]]; auto 10.
Qed.

Lemma updateProductMetadata_products (e : Env) (b : N) (ip de im : string)
    (s s' : State) :
  updateProductMetadata e b ip de im s = Ok (tt, s') ->
  products s' = products s \/ products s' = <[b := products_at s' b]> (products s).
Proof.
  intros H. apply onlyMaker_ok in H as [_ H].
  apply whenNotPaused_ok in H as [_ H].
  apply nonReentrant_ok in H as (_ & s1 & H & ->).
  unfold updateProductMetadata_body in H.
  destruct (b =? 0); [done |].
  destruct (exists_ (products_at (set_locked 1 s) b)); [| done].
  cbv zeta in H. cbn [negb] in H. injection H as <-.
  destruct (is_empty ip), (is_empty de), (is_empty im); cbn [negb];
    unfold products_at; simpl; rewrite ?lookup_insert_eq; simpl;
    rewrite ?insert_insert_eq; auto.
Qed.

(** Every successful call keeps the registry consistent. *)
Lemma exec_registry_ok (e : Env) (op : Op) (s s' : State) (r : Ret) :
  registry_ok s -> exec e op s = Ok (r, s') -> registry_ok s'.
Proof.
  intros Hok H. pose proof (admin_frame _ _ _ _ _ H) as Hadm.
  destruct op as [mk au | b0 nm br hs0 ip de im | h0 b0 | nw | hs0 bs0 | | | b0 ip de im];
    try (destruct Hadm as (_ & Hm & Hp & Ht & _); by apply (registry_ok_ext s));
    simpl in H; apply returning_ok in H as (a & H & _).
  - destruct a. apply registerProduct_ok in H
      as [(_ & _ & _ & Hb & Hnm & Hbr & _ & Hno & _) ->].
    destruct Hok as [Hent Htot Hmem].
    assert (Hfresh : products s !! b0 = None).
    { unfold products_at in Hno. destruct (products s !! b0) as [p|] eqn:Hp; [| done].
      apply Hent in Hp as [Hp _]. simpl in Hno. congruence. }
    split; unfold products_at; simpl.
    + intros b p. destruct (decide (b = b0)) as [->|Hne].
      * rewrite lookup_insert_eq. intros [= <-]. auto.
      * rewrite lookup_insert_ne by done. apply Hent.
    + rewrite map_size_insert_None by done. lia.
    + intros f b. rewrite foldl_insert_lookup. case_bool_decide.
      * intros [= <-]. by rewrite lookup_insert_eq.
      * intros Hf. destruct (Hmem f b Hf) as [Hnz Hex]. split; [done |].
        destruct (decide (b = b0)) as [->|Hne]; [by rewrite lookup_insert_eq |].
        by rewrite lookup_insert_ne.
  - apply verify_ok in H as (_ & _ & s1 & [] & ->). by apply (registry_ok_ext s).
  - apply batchVerify_ok in H as (_ & _ & _ & s1 & H & ->).
    apply verify_entries_keeps in H as (Hp & Hm & Ht & _). by apply (registry_ok_ext s).
  - destruct a. pose proof (updateProductMetadata_products _ _ _ _ _ _ _ H) as Hmap.
    apply updateProductMetadata_ok in H
      as ((_ & _ & _ & Hb & Hex) & Hnew & Hother & _ & Hm & _ & _ & Ht & _).
    destruct Hmap as [Hmap|Hmap]; [by apply (registry_ok_ext s) |].
    destruct Hok as [Hent Htot Hmem].
    assert (Hold : exists p, products s !! b0 = Some p /\ products_at s b0 = p).
    { unfold products_at in *. destruct (products s !! b0) as [p|] eqn:Hp; [eauto |].
      simpl in Hex. discriminate. }
    destruct Hold as (p & Hp & Hpat).
    destruct (Hent _ _ Hp) as (Hpe & _ & Hpn & Hpb).
    split.
    + intros b p'. rewrite Hmap. destruct (decide (b = b0)) as [->|Hne].
      * rewrite lookup_insert_eq. intros [= <-]. rewrite Hnew, Hpat. simpl. auto.
      * rewrite lookup_insert_ne by done. apply Hent.
    + rewrite Ht, Hmap, map_size_insert_Some by eauto. done.
    + intros f b. rewrite Hm. intros Hf. destruct (Hmem f b Hf) as [Hnz Hbx].
      split; [done |]. destruct (decide (b = b0)) as [->|Hne].
      * rewrite Hnew. simpl. exact Hex.
      * by rewrite Hother.
Qed.

(** Every successful call keeps the ledger consistent. *)
Lemma exec_ledger_ok (e : Env) (op : Op) (s s' : State) (r : Ret) :
  ledger_ok s -> exec e op s = Ok (r, s') -> ledger_ok s'.
Proof.
  intros Hok H. pose proof (admin_frame _ _ _ _ _ H) as Hadm.
  destruct op as [mk au | b0 nm br hs0 ip de im | h0 b0 | nw | hs0 bs0 | | | b0 ip de im];
    try (destruct Hadm as (Hv & Hm & _ & _ & Ht & Hc & Hh); by apply (ledger_ok_ext s));
    simpl in H; apply returning_ok in H as (a & H & _).
  - destruct a. apply registerProduct_ok in H as [(_ & _ & _ & Hb & _) ->].
    destruct Hok as [Htrue Htot Hsum Hmem Hhist].
    split; unfold serialVerified_at, serialToBatch_at, verificationHistory_at in *;
      simpl; auto.
    intros f Hf. rewrite foldl_insert_lookup. case_bool_decide; simpl; auto.
  - apply whenNotPaused_ok in H as [_ H].
    apply nonReentrant_ok in H as (_ & s1 & H & ->).
    apply (ledger_ok_ext s1); try reflexivity.
    eapply verify_body_ledger; [| exact H]. by apply (ledger_ok_ext s).
  - apply batchVerify_ok in H as (_ & _ & _ & s1 & H & ->).
    apply (ledger_ok_ext s1); try reflexivity.
    eapply verify_entries_ledger; [| exact H]. by apply (ledger_ok_ext s).
  - destruct a. apply updateProductMetadata_ok in H
      as (_ & _ & _ & Hv & Hm & _ & _ & _ & Ht & Hc & _ & _ & Hh & _).
    by apply (ledger_ok_ext s).
Qed.

Lemma constructor_registry_ok (d : Env) : registry_ok (constructor d).
Proof. split; simpl; intros; try done. Qed.

Lemma constructor_ledger_ok (d : Env) : ledger_ok (constructor d).
Proof.
  split; simpl; intros; try done;
    unfold history_shape, serialVerified_at, verificationHistory_at; simpl; by split.
Qed.

Lemma run_invariants (tr : list (Env * Op)) :
  forall s, registry_ok s -> ledger_ok s ->
    registry_ok (run tr s) /\ ledger_ok (run tr s).
Proof.
  induction tr as [|[e op] tr IH]; intros s Hreg Hled; simpl; [done |].
  unfold step. simpl.
  destruct (exec e op s) as [[r s1]|] eqn:Hex; [| by apply IH].
  apply IH; [eapply exec_registry_ok | eapply exec_ledger_ok]; eauto.
Qed.

Lemma reachable_invariants (d : Env) (tr : list (Env * Op)) :
  registry_ok (run tr (constructor d)) /\ ledger_ok (run tr (constructor d)).
Proof.
  apply run_invariants; [apply constructor_registry_ok | apply constructor_ledger_ok].
Qed.

(** ** Invariants of every reachable storage *)

(** X3. In every storage reachable from a deployment, a registered batch has
    a nonzero id and a non-empty name and brand, and [getProduct] of an id
    that is not registered (in particular of id 0) returns the all-empty
    record with [exists = false]. *)
Theorem getProduct_registered_or_empty (d : Env) (tr : list (Env * Op)) (b : uint256) :
  (exists_ (products_at (run tr (constructor d)) b) = true ->
     b <> 0 /\
     name (products_at (run tr (constructor d)) b) <> EmptyString /\
     brand (products_at (run tr (constructor d)) b) <> EmptyString) /\
  (exists_ (products_at (run tr (constructor d)) b) = false ->
     getProduct (run tr (constructor d)) b =
       (EmptyString, EmptyString, false, 0, EmptyString, EmptyString, EmptyString)) /\
  exists_ (products_at (run tr (constructor d)) 0) = false.
Proof.
  destruct (reachable_invariants d tr) as [[Hent _ _] _].
  set (s := run tr (constructor d)) in *.
  assert (Hcase : forall b', products s !! b' = None \/
            (exists_ (products_at s b') = true /\ b' <> 0 /\
             name (products_at s b') <> EmptyString /\
             brand (products_at s b') <> EmptyString)).
  { intros b'. unfold products_at. destruct (products s !! b') as [p|] eqn:Hp; [| auto].
    right. simpl. by apply (Hent b'). }
  split; [| split].
  - intros Hex. destruct (Hcase b) as [Hnone|(_ & ?)]; [| done].
    unfold products_at in Hex. by rewrite Hnone in Hex.
  - intros Hex. destruct (Hcase b) as [Hnone|(Hyes & _)]; [| congruence].
    unfold getProduct, products_at. by rewrite Hnone.
  - destruct (Hcase 0) as [Hnone|(_ & ? & _)]; [| done].
    unfold products_at. by rewrite Hnone.
Qed.

Lemma getProduct_registered_or_empty_witness :
  getProduct example_registered 99 =
    (EmptyString, EmptyString, false, 0, EmptyString, EmptyString, EmptyString).
Proof.
  destruct (getProduct_registered_or_empty deployer
              [(deployer,
                OpRegisterProduct 1 "Widget" "Acme" [11; 12] EmptyString EmptyString
                  EmptyString)] 99) as (_ & H & _).
  apply H. reflexivity.
Defined.

(** X4. In every reachable storage [totalProducts] (the first component of
    [getStatistics]) is the number of registered batches: the batch ids with
    a stored record are exactly those whose [exists] flag is set, and
    [totalProducts] is their number. *)
Theorem totalProducts_counts_batches (d : Env) (tr : list (Env * Op)) :
  totalProducts (run tr (constructor d)) =
    N.of_nat (size (dom (products (run tr (constructor d))))) /\
  (forall b, b ∈ dom (products (run tr (constructor d))) <->
             exists_ (products_at (run tr (constructor d)) b) = true) /\
  fst (fst (getStatistics (run tr (constructor d)))) =
    totalProducts (run tr (constructor d)).
Proof.
  destruct (reachable_invariants d tr) as [[Hent Htot _] _].
  set (s := run tr (constructor d)) in *.
  split; [by rewrite size_dom |]. split; [| reflexivity].
  intros b. rewrite elem_of_dom. unfold products_at.
  destruct (products s !! b) as [p|] eqn:Hp; simpl.
  - split; [intros _; by apply (Hent b) | eauto].
  - split; [by intros [? ?] | done].
Qed.

(** X5. In every reachable storage [totalVerifications] is the number of
    fingerprints whose verified status is [true]. *)
Theorem totalVerifications_counts_verified (d : Env) (tr : list (Env * Op)) :
  totalVerifications (run tr (constructor d)) =
    N.of_nat (size (dom (serialVerified (run tr (constructor d))))) /\
  (forall f, f ∈ dom (serialVerified (run tr (constructor d))) <->
             isSerialVerified (run tr (constructor d)) f = true).
Proof.
  destruct (reachable_invariants d tr) as [_ [Htrue Htot _ _ _]].
  set (s := run tr (constructor d)) in *.
  split; [by rewrite size_dom |].
  intros f. rewrite elem_of_dom. unfold isSerialVerified, serialVerified_at.
  destruct (serialVerified s !! f) as [v|] eqn:Hv; simpl.
  - split; [intros _; by apply (Htrue f) | eauto].
  - split; [by intros [? ?] | done].
Qed.

(** X6. In every reachable storage [totalVerifications] is the sum of the
    per-batch verification counts, so no batch count exceeds it. *)
Theorem totalVerifications_sums_batches (d : Env) (tr : list (Env * Op)) :
  totalVerifications (run tr (constructor d)) =
    count_sum (batchVerificationCount (run tr (constructor d))) /\
  (forall b, batchVerificationCount_at (run tr (constructor d)) b <=
             totalVerifications (run tr (constructor d))).
Proof.
  destruct (reachable_invariants d tr) as [_ [_ _ Hsum _ _]].
  split; [exact Hsum |].
  intros b. rewrite Hsum. apply count_sum_bound.
Qed.

(** X7. In every reachable storage the history of a fingerprint [f] is empty
    exactly while [f] is unverified; once [f] is verified its first record
    is the authentic one and every later record is not authentic; and every
    record of the history carries [f] itself and a nonzero batch id.  So
    [getVerificationCount f] is zero iff [isSerialVerified f] is false. *)
Theorem history_first_record_authentic (d : Env) (tr : list (Env * Op)) (f : bytes32) :
  (isSerialVerified (run tr (constructor d)) f = false <->
     getVerificationHistory (run tr (constructor d)) f = []) /\
  (getVerificationCount (run tr (constructor d)) f = 0 <->
     isSerialVerified (run tr (constructor d)) f = false) /\
  (forall r rest, getVerificationHistory (run tr (constructor d)) f = r :: rest ->
     isAuthentic r = true /\ Forall (fun x => isAuthentic x = false) rest) /\
  Forall (fun r => serialHash r = f /\ batchId r <> 0)
    (getVerificationHistory (run tr (constructor d)) f).
Proof.
  destruct (reachable_invariants d tr) as [_ [_ _ _ _ Hhist]].
  set (s := run tr (constructor d)) in *.
  destruct (Hhist f) as [Htag Hshape].
  unfold isSerialVerified, getVerificationHistory, getVerificationCount.
  destruct (verificationHistory_at s f) as [|r0 rest0] eqn:Hl.
  - simpl in Hshape. rewrite Hshape. repeat split; done.
  - destruct Hshape as (Hv & Hr0 & Hrest). rewrite Hv.
    split; [split; discriminate |].
    split; [split; [intros Hz; simpl in Hz; lia | discriminate] |].
    split; [| done]. intros r rest [= <- <-]. done.
Qed.

(** X8. In every reachable storage a recorded (nonzero) membership names a
    registered batch, and a verified fingerprint has a recorded membership:
    every verified fingerprint belongs to a registered batch. *)
Theorem verified_belongs_to_registered_batch (d : Env) (tr : list (Env * Op))
    (f : bytes32) :
  (serialToBatch_at (run tr (constructor d)) f <> 0 ->
     exists_ (products_at (run tr (constructor d))
                (serialToBatch_at (run tr (constructor d)) f)) = true) /\
  (isSerialVerified (run tr (constructor d)) f = true ->
     serialToBatch_at (run tr (constructor d)) f <> 0 /\
     exists_ (products_at (run tr (constructor d))
                (serialToBatch_at (run tr (constructor d)) f)) = true).
Proof.
  destruct (reachable_invariants d tr) as [[_ _ Hmem] [_ _ _ Hver _]].
  set (s := run tr (constructor d)) in *.
  assert (H1 : serialToBatch_at s f <> 0 ->
               exists_ (products_at s (serialToBatch_at s f)) = true).
  { unfold serialToBatch_at. destruct (serialToBatch s !! f) as [b|] eqn:Hb; simpl;
      [| done]. intros _. by apply (Hmem f b). }
  split; [exact H1 |].
  intros Hv. apply Hver in Hv. auto.
Qed.

Lemma totalProducts_counts_batches_witness :
  1 ∈ dom (products example_registered).
Proof.
  destruct (totalProducts_counts_batches deployer
              [(deployer,
                OpRegisterProduct 1 "Widget" "Acme" [11; 12] EmptyString EmptyString
                  EmptyString)]) as (_ & H & _).
  apply (H 1). reflexivity.
Defined.

Lemma totalVerifications_counts_verified_witness :
  11 ∈ dom (serialVerified example_verified).
Proof.
  destruct (totalVerifications_counts_verified deployer
              [(deployer,
                OpRegisterProduct 1 "Widget" "Acme" [11; 12] EmptyString EmptyString
                  EmptyString);
               (deployer, OpVerify 11 1)]) as (_ & H).
  apply (H 11). reflexivity.
Defined.

Lemma history_first_record_authentic_witness :
  getVerificationHistory example_registered 11 = [].
Proof.
  destruct (history_first_record_authentic deployer
              [(deployer,
                OpRegisterProduct 1 "Widget" "Acme" [11; 12] EmptyString EmptyString
                  EmptyString)] 11) as (H & _).
  apply H. reflexivity.
Defined.

Lemma verified_belongs_to_registered_batch_witness :
  serialToBatch_at example_verified 11 <> 0 /\
  exists_ (products_at example_verified (serialToBatch_at example_verified 11)) = true.
Proof.
  destruct (verified_belongs_to_registered_batch deployer
              [(deployer,
                OpRegisterProduct 1 "Widget" "Acme" [11; 12] EmptyString EmptyString
                  EmptyString);
               (deployer, OpVerify 11 1)] 11) as (_ & H).
  apply H. reflexivity.
Defined.

(** ** What a call can and cannot change *)

Lemma exec_batch_identity (e : Env) (op : Op) (s s' : State) (r : Ret) (b : N) :
  exec e op s = Ok (r, s') -> exists_ (products_at s b) = true ->
  name (products_at s' b) = name (products_at s b) /\
  brand (products_at s' b) = brand (products_at s b) /\
  exists_ (products_at s' b) = true /\
  registeredAt (products_at s' b) = registeredAt (products_at s b) /\
  (ipfsHash (products_at s b) <> EmptyString ->
     ipfsHash (products_at s' b) <> EmptyString) /\
  (description (products_at s b) <> EmptyString ->
     description (products_at s' b) <> EmptyString) /\
  (imageUrl (products_at s b) <> EmptyString ->
     imageUrl (products_at s' b) <> EmptyString).
Proof.
  intros H Hex.
  assert (Hsame : products_at s' b = products_at s b ->
    name (products_at s' b) = name (products_at s b) /\
    brand (products_at s' b) = brand (products_at s b) /\
    exists_ (products_at s' b) = true /\
    registeredAt (products_at s' b) = registeredAt (products_at s b) /\
    (ipfsHash (products_at s b) <> EmptyString ->
       ipfsHash (products_at s' b) <> EmptyString) /\
    (description (products_at s b) <> EmptyString ->
       description (products_at s' b) <> EmptyString) /\
    (imageUrl (products_at s b) <> EmptyString ->
       imageUrl (products_at s' b) <> EmptyString)).
  { intros ->. auto 10. }
  assert (Hmap : products s' = products s -> products_at s' b = products_at s b).
  { intros Heq. unfold products_at. by rewrite Heq. }
  pose proof (admin_frame _ _ _ _ _ H) as Hadm.
  destruct op as [mk au | b0 nm br hs0 ip de im | h0 b0 | nw | hs0 bs0 | | | b0 ip de im];
    try (apply Hsame, Hmap; tauto);
    simpl in H; apply returning_ok in H as (a & H & _).
  - destruct a. pose proof (registerProduct_effect _ _ _ _ _ _ _ _ _ _ H) as (_ & Hother & _).
    apply registerProduct_ok in H as [(_ & _ & _ & _ & _ & _ & _ & Hno & _) _].
    apply Hsame, Hother. congruence.
  - apply verify_ok in H as (_ & _ & s1 & [] & ->). by apply Hsame, Hmap.
  - apply batchVerify_ok in H as (_ & _ & _ & s1 & H & ->).
    apply verify_entries_keeps in H as (Hp & _). by apply Hsame, Hmap.
  - destruct a. apply updateProductMetadata_ok in H as (_ & Hnew & Hother & _).
    destruct (decide (b = b0)) as [->|Hne]; [| by apply Hsame, Hother].
    rewrite Hnew. simpl. repeat split; try done.
    + destruct (is_empty ip) eqn:Hip; [done |]. intros _. by apply is_empty_false.
    + destruct (is_empty de) eqn:Hde; [done |]. intros _. by apply is_empty_false.
    + destruct (is_empty im) eqn:Him; [done |]. intros _. by apply is_empty_false.
Qed.

(** X9. Once a batch is registered, no sequence of calls changes its name,
    brand, existence flag or registration time, and a metadata field that is
    non-empty never becomes empty again. *)
Theorem batch_identity_is_permanent (tr : list (Env * Op)) (s : State) (b : uint256) :
  exists_ (products_at s b) = true ->
  name (products_at (run tr s) b) = name (products_at s b) /\
  brand (products_at (run tr s) b) = brand (products_at s b) /\
  exists_ (products_at (run tr s) b) = true /\
  registeredAt (products_at (run tr s) b) = registeredAt (products_at s b) /\
  (ipfsHash (products_at s b) <> EmptyString ->
     ipfsHash (products_at (run tr s) b) <> EmptyString) /\
  (description (products_at s b) <> EmptyString ->
     description (products_at (run tr s) b) <> EmptyString) /\
  (imageUrl (products_at s b) <> EmptyString ->
     imageUrl (products_at (run tr s) b) <> EmptyString).
Proof.
  revert s. induction tr as [|[e op] tr IH]; intros s Hex; simpl; [auto 10 |].
  unfold step. simpl.
  destruct (exec e op s) as [[r s1]|] eqn:Hexec; [| by apply IH].
  destruct (exec_batch_identity _ _ _ _ _ b Hexec Hex)
    as (Hn & Hb & Hx & Hr & Hi & Hd & Hu).
  destruct (IH s1 Hx) as (Hn' & Hb' & Hx' & Hr' & Hi' & Hd' & Hu').
  rewrite Hn', Hb', Hr', Hn, Hb, Hr. auto 10.
Qed.

Lemma batch_identity_is_permanent_witness :
  name (products_at
          (run [(deployer, OpUpdateProductMetadata 1 "QmHash" EmptyString EmptyString)]
             example_registered) 1) = name (products_at example_registered 1).
Proof.
  destruct (batch_identity_is_permanent
              [(deployer, OpUpdateProductMetadata 1 "QmHash" EmptyString EmptyString)]
              example_registered 1) as (H & _).
  - reflexivity.
  - exact H.
Defined.

(** X10. Access control.  A successful call made by anyone but the owner
    changes neither the owner, nor any authorization flag, nor the
    manufacturer list, nor the pause flag; a successful call made by a caller
    who is not an authorized manufacturer changes neither the batch records,
    nor the membership index, nor [totalProducts]. *)
Theorem exec_access_control (e : Env) (op : Op) (s s' : State) (r : Ret) :
  exec e op s = Ok (r, s') ->
  (msg_sender e <> owner s ->
     owner s' = owner s /\ authorizedMakers s' = authorizedMakers s /\
     manufacturerList s' = manufacturerList s /\ paused s' = paused s) /\
  (authorizedMakers_at s (msg_sender e) = false ->
     products s' = products s /\ serialToBatch s' = serialToBatch s /\
     totalProducts s' = totalProducts s).
Proof.
  intros H. pose proof (admin_frame _ _ _ _ _ H) as Hadm.
  destruct op as [mk au | b0 nm br hs0 ip de im | h0 b0 | nw | hs0 bs0 | | | b0 ip de im];
    simpl in H; apply returning_ok in H as (a & H & _).
  - split; [| tauto]. intros Hne. by apply onlyOwner_ok in H as [? _].
  - destruct a. split.
    + intros _. by apply registerProduct_ok in H as [_ ->].
    + intros Hno. apply onlyMaker_ok in H as [? _]. congruence.
  - apply verify_ok in H as (_ & _ & s1 & [] & ->). simpl. auto 10.
  - split; [| tauto]. intros Hne. by apply onlyOwner_ok in H as [? _].
  - apply batchVerify_ok in H as (_ & _ & _ & s1 & H & ->).
    apply verify_entries_keeps in H as (? & ? & ? & ? & ? & ? & ? & _). simpl. auto 10.
  - split; [| tauto]. intros Hne. by apply onlyOwner_ok in H as [? _].
  - split; [| tauto]. intros Hne. by apply onlyOwner_ok in H as [? _].
  - destruct a. split.
    + intros _. apply updateProductMetadata_ok in H
        as (_ & _ & _ & _ & _ & ? & ? & _ & _ & _ & ? & ? & _). auto.
    + intros Hno. apply onlyMaker_ok in H as [? _]. congruence.
Qed.

Lemma exec_access_control_witness :
  owner (step (mkEnv 9 2000, OpVerify 11 1) example_registered) =
    owner example_registered /\
  products (step (mkEnv 9 2000, OpVerify 11 1) example_registered) =
    products example_registered.
Proof.
  destruct (exec_access_control (mkEnv 9 2000) (OpVerify 11 1) example_registered
              (step (mkEnv 9 2000, OpVerify 11 1) example_registered)
              (RetBool true)) as [H1 H2].
  - vm_compute. reflexivity.
  - destruct H1 as (Ho & _); [vm_compute; discriminate |].
    destruct H2 as (Hp & _); [reflexivity |].
    split; [exact Ho | exact Hp].
Defined.

(** ** [batchVerify] seen from the storage before the call *)

Lemma entry_rejected_ext (s s1 : State) (h b : N) :
  products s1 = products s -> serialToBatch s1 = serialToBatch s ->
  entry_rejected s1 h b = entry_rejected s h b.
Proof.
  intros Hp Hm. unfold entry_rejected, products_at, serialToBatch_at. by rewrite Hp, Hm.
Qed.

Lemma accepted_entries_ext (s s1 : State) (hs bs : list N) (rs : list bool) :
  products s1 = products s -> serialToBatch s1 = serialToBatch s ->
  accepted_entries s1 hs bs rs = accepted_entries s hs bs rs.
Proof.
  intros Hp Hm. unfold accepted_entries. apply List.filter_ext.
  intros x. by rewrite (entry_rejected_ext s s1).
Qed.

Lemma verify_entries_events (e : Env) (hs bs : list N) :
  forall (s s' : State) (rs : list bool),
    verify_entries e hs bs s = Ok (rs, s') ->
    events s' = events s ++ map (verified_event e) (accepted_entries s hs bs rs) /\
    (forall i h b, hs !! i = Some h -> bs !! i = Some b ->
       entry_rejected s h b = true -> rs !! i = Some false).
Proof.
  revert bs. induction hs as [|h hs IH]; intros bs s s' rs; simpl.
  - intros [= <- <-]. split; [by rewrite app_nil_r | intros i ? ? Hi; by destruct i].
  - destruct bs as [|b bs].
    { intros [= <- <-]. split; [by rewrite app_nil_r | intros i ? ? _ Hi; by destruct i]. }
    destruct (verify_entry e h b s) as [[r s1]|] eqn:Hent; simpl; [| done].
    destruct (verify_entries e hs bs s1) as [[rs1 s2]|] eqn:Hrest; simpl; [| done].
    intros [= <- <-].
    destruct (IH _ _ _ _ Hrest) as [Hev Hslots].
    apply verify_entry_ok in Hent as [(Hrej & -> & ->)|[Hrej Heff]].
    + split.
      * rewrite Hev. unfold accepted_entries. simpl. by rewrite Hrej.
      * intros [|i] h' b' Hh Hb Hr; simpl in *; [done | eauto].
    + pose proof (ve_events _ _ _ _ _ _ Heff) as Hev1.
      pose proof (ve_products _ _ _ _ _ _ Heff) as Hp.
      pose proof (ve_serialToBatch _ _ _ _ _ _ Heff) as Hm.
      split.
      * rewrite Hev, Hev1, (accepted_entries_ext s s1) by done.
        unfold accepted_entries at 2. simpl. rewrite Hrej. simpl.
        by rewrite <- app_assoc.
      * intros [|i] h' b' Hh Hb Hr; simpl in *.
        { injection Hh as <-. injection Hb as <-. congruence. }
        apply (Hslots i h' b'); try done. by rewrite (entry_rejected_ext s s1).
Qed.

(** X11. A successful [batchVerify] changes neither the batch records, the
    membership index, [totalProducts], the owner, the authorizations, the
    manufacturer list nor the pause flag.  Hence the three soft-failure
    tests of every entry can be read off the storage before the call: a slot
    whose entry fails them holds [false], and the call appends to the event
    log exactly one [Verified] event per entry that passes them, in input
    order and carrying that slot's answer. *)
Theorem batchVerify_seen_from_start (e : Env) (hs bs : list N) (s s' : State)
    (rs : list bool) :
  batchVerify e hs bs s = Ok (rs, s') ->
  (products s' = products s /\ serialToBatch s' = serialToBatch s /\
   totalProducts s' = totalProducts s /\ owner s' = owner s /\
   authorizedMakers s' = authorizedMakers s /\
   manufacturerList s' = manufacturerList s /\ paused s' = paused s) /\
  (forall i h b, hs !! i = Some h -> bs !! i = Some b ->
     entry_rejected s h b = true -> rs !! i = Some false) /\
  events s' = events s ++ map (verified_event e) (accepted_entries s hs bs rs).
Proof.
  intros H. apply batchVerify_ok in H as (_ & _ & _ & s1 & H & ->).
  pose proof (verify_entries_keeps _ _ _ _ _ _ H) as (? & ? & ? & ? & ? & ? & ? & _).
  apply verify_entries_events in H as [Hev Hslots].
  split; [simpl; auto 10 |]. split; [exact Hslots | exact Hev].
Qed.

Lemma batchVerify_seen_from_start_witness :
  exists rs s', batchVerify deployer [11; 13] [1; 99] example_registered = Ok (rs, s') /\
    rs !! 1%nat = Some false.
Proof.
  destruct (batchVerify deployer [11; 13] [1; 99] example_registered)
    as [[rs s']|] eqn:Hb; [| vm_compute in Hb; discriminate].
  exists rs, s'. split; [reflexivity |].
  destruct (batchVerify_seen_from_start _ _ _ _ _ _ Hb) as (_ & H & _).
  apply (H 1%nat 13 99); reflexivity.
Defined.

(** ** Append-only logs *)

Lemma verify_entries_append_only (e : Env) (hs bs : list N) :
  forall (s s' : State) (rs : list bool),
    verify_entries e hs bs s = Ok (rs, s') ->
    forall f, verificationHistory_at s f `prefix_of` verificationHistory_at s' f.
Proof.
  revert bs. induction hs as [|h hs IH]; intros bs s s' rs; simpl.
  - by intros [= <- <-].
  - destruct bs as [|b bs]; [by intros [= <- <-] |].
    destruct (verify_entry e h b s) as [[r s1]|] eqn:Hent; simpl; [| done].
    destruct (verify_entries e hs bs s1) as [[rs1 s2]|] eqn:Hrest; simpl; [| done].
    intros [= <- <-] f. simpl.
    etrans; [| by eapply IH].
    apply verify_entry_ok in Hent as [(_ & _ & ->)|[_ []]]; [done |].
    destruct (decide (f = h)) as [->|Hne].
    + rewrite ve_history0. by apply prefix_app_r.
    + by rewrite ve_history_other0.
Qed.

Lemma exec_append_only (e : Env) (op : Op) (s s' : State) (r : Ret) :
  exec e op s = Ok (r, s') ->
  events s `prefix_of` events s' /\
  (forall f, verificationHistory_at s f `prefix_of` verificationHistory_at s' f).
Proof.
  intros H.
  assert (Hsame : verificationHistory s' = verificationHistory s ->
    forall f, verificationHistory_at s f `prefix_of` verificationHistory_at s' f).
  { intros Heq f. unfold verificationHistory_at. by rewrite Heq. }
  pose proof (admin_frame _ _ _ _ _ H) as Hadm.
  destruct op as [mk au | b0 nm br hs0 ip de im | h0 b0 | nw | hs0 bs0 | | | b0 ip de im];
    simpl in H; apply returning_ok in H as (a & H & _).
  - split; [| apply Hsame; tauto].
    unfold_calls. repeat case_match; simplify_eq; simpl; by apply prefix_app_r.
  - destruct a. apply registerProduct_ok in H as [_ ->]. simpl.
    split; [by apply prefix_app_r | by apply Hsame].
  - apply verify_ok in H as (_ & _ & s1 & [] & ->). simpl. split.
    + rewrite ve_events0. by apply prefix_app_r.
    + intros f. change (verificationHistory_at (set_locked 0 s1) f)
        with (verificationHistory_at s1 f).
      destruct (decide (f = h0)) as [->|Hne].
      * rewrite ve_history0. by apply prefix_app_r.
      * by rewrite ve_history_other0.
  - split; [| apply Hsame; tauto].
    unfold_calls. repeat case_match; simplify_eq; simpl; by repeat apply prefix_app_r.
  - apply batchVerify_ok in H as (_ & _ & _ & s1 & H & ->). split.
    + apply verify_entries_events in H as [Hev _]. simpl. rewrite Hev.
      by apply prefix_app_r.
    + intros f. by apply (verify_entries_append_only _ _ _ _ _ _ H f).
  - split; [| apply Hsame; tauto].
    unfold_calls. repeat case_match; simplify_eq; simpl; by apply prefix_app_r.
  - split; [| apply Hsame; tauto].
    unfold_calls. repeat case_match; simplify_eq; simpl; by apply prefix_app_r.
  - destruct a. apply updateProductMetadata_ok in H
      as (_ & _ & _ & _ & _ & _ & _ & _ & _ & _ & _ & _ & Hh & He).
    split; [by rewrite He | by apply Hsame].
Qed.

(** X12. The event log and every fingerprint's verification history are
    append-only: whatever calls are made, by whomever, the log and each
    history before the calls are prefixes of what they are afterwards. *)
Theorem logs_are_append_only (tr : list (Env * Op)) (s : State) :
  events s `prefix_of` events (run tr s) /\
  (forall f, verificationHistory_at s f `prefix_of` verificationHistory_at (run tr s) f).
Proof.
  revert s. induction tr as [|[e op] tr IH]; intros s; simpl; [done |].
  unfold step. simpl.
  destruct (exec e op s) as [[r s1]|] eqn:Hex; [| apply IH].
  destruct (exec_append_only _ _ _ _ _ Hex) as [He Hh].
  destruct (IH s1) as [He' Hh'].
  split; [etrans; [exact He | exact He'] | intros f; etrans; [apply Hh | apply Hh']].
Qed.

(** ** How verification calls compose *)

Lemma verify_entries_app (e : Env) (hs1 bs1 hs2 bs2 : list N) :
  length hs1 = length bs1 ->
  forall s : State,
    verify_entries e (hs1 ++ hs2) (bs1 ++ bs2) s =
      (p <- verify_entries e hs1 bs1 s ;;
       q <- verify_entries e hs2 bs2 (snd p) ;;
       Ok (fst p ++ fst q, snd q)).
Proof.
  revert bs1. induction hs1 as [|h hs1 IH]; intros [|b bs1] Hlen s; try discriminate.
  - simpl. by destruct (verify_entries e hs2 bs2 s) as [[rs s1]|].
  - simpl. destruct (verify_entry e h b s) as [[r s1]|]; simpl; [| done].
    rewrite IH by (simpl in Hlen; lia).
    destruct (verify_entries e hs1 bs1 s1) as [[rs1 s2]|]; simpl; [| done].
    by destruct (verify_entries e hs2 bs2 s2) as [[rs2 s3]|].
Qed.

Lemma batchVerify_running (e : Env) (hs bs : list N) (s : State) :
  paused s = false -> _locked s <> 1 -> length hs = length bs ->
  batchVerify e hs bs s =
    match verify_entries e hs bs (set_locked 1 s) with
    | Ok (rs, s1) => Ok (rs, set_locked 0 s1)
    | Revert err => Revert err
    end.
Proof.
  intros Hrun Hlk Hlen. unfold batchVerify, whenNotPaused.
  rewrite Hrun, (nonReentrant_unlocked _ _ Hlk).
  by rewrite (batchVerify_body_entries _ _ _ _ Hlen).
Qed.

Lemma set_locked_back (s : State) : _locked s = 1 -> set_locked 1 (set_locked 0 s) = s.
Proof. destruct s. simpl. by intros ->. Qed.

(** X13. Splitting a batch.  On a running system, one [batchVerify] call on
    the concatenation of two well-formed batches gives the same answers,
    the same final storage and the same failure as the two batches
    submitted one after the other in the same transaction context. *)
Theorem batchVerify_split (e : Env) (hs1 bs1 hs2 bs2 : list N) (s : State) :
  paused s = false -> _locked s <> 1 ->
  length hs1 = length bs1 -> length hs2 = length bs2 ->
  batchVerify e (hs1 ++ hs2) (bs1 ++ bs2) s =
    (p <- batchVerify e hs1 bs1 s ;;
     q <- batchVerify e hs2 bs2 (snd p) ;;
     Ok (fst p ++ fst q, snd q)).
Proof.
  intros Hrun Hlk Hlen1 Hlen2.
  rewrite (batchVerify_running e (hs1 ++ hs2)) by (rewrite ?length_app; auto).
  rewrite (batchVerify_running e hs1) by done.
  rewrite verify_entries_app by done.
  destruct (verify_entries e hs1 bs1 (set_locked 1 s)) as [[rs1 s1]|] eqn:H1;
    simpl; [| done].
  apply verify_entries_keeps in H1 as (_ & _ & _ & _ & _ & _ & Hp & Hl).
  simpl in Hp, Hl.
  rewrite (batchVerify_running e hs2) by (simpl; (congruence || done)).
  rewrite set_locked_back by exact Hl.
  by destruct (verify_entries e hs2 bs2 s1) as [[rs2 s2]|].
Qed.

Lemma batchVerify_split_witness :
  batchVerify deployer ([11] ++ [12; 13]) ([1] ++ [1; 99]) example_registered =
    (p <- batchVerify deployer [11] [1] example_registered ;;
     q <- batchVerify deployer [12; 13] [1; 99] (snd p) ;;
     Ok (fst p ++ fst q, snd q)).
Proof.
  apply batchVerify_split; try reflexivity. vm_compute. discriminate.
Defined.

(** X14. A one-entry batch against a single [verify].  On a running system
    [batchVerify([h], [b])] answers [[false]] without touching the ledger
    when the entry fails one of the three tests on which [verify(h, b)]
    would revert; otherwise it does exactly what [verify(h, b)] does: the
    same answer, the same storage, the same overflow failure. *)
Theorem batchVerify_one_entry (e : Env) (h b : N) (s : State) :
  paused s = false -> _locked s <> 1 ->
  batchVerify e [h] [b] s =
    (if entry_rejected s h b then Ok ([false], set_locked 0 s)
     else p <- verify e h b s ;; Ok ([fst p], snd p)) /\
  (entry_rejected s h b = true ->
     verify e h b s = Revert InvalidBatchId \/ verify e h b s = Revert BatchNotFound \/
     verify e h b s = Revert SerialNotInBatch).
Proof.
  intros Hrun Hlk. split.
  - rewrite batchVerify_running by done. simpl.
    unfold verify_entry, verify, whenNotPaused.
    rewrite Hrun, (nonReentrant_unlocked _ _ Hlk).
    change (entry_rejected (set_locked 1 s) h b) with (entry_rejected s h b).
    destruct (entry_rejected s h b); [reflexivity |].
    by destruct (verify_body e h b (set_locked 1 s)) as [[r s1]|].
  - intros Hrej. unfold verify, whenNotPaused.
    rewrite Hrun, (nonReentrant_unlocked _ _ Hlk). unfold verify_body.
    change (products_at (set_locked 1 s) b) with (products_at s b).
    change (serialToBatch_at (set_locked 1 s) h) with (serialToBatch_at s h).
    unfold entry_rejected in Hrej.
    destruct (b =? 0); [auto |].
    destruct (exists_ (products_at s b)); cbn [negb]; [| auto].
    destruct (serialToBatch_at s h =? b); cbn [negb]; [discriminate | auto].
Qed.

Lemma batchVerify_one_entry_witness :
  batchVerify deployer [13] [1] example_registered =
    Ok ([false], set_locked 0 example_registered).
Proof.
  destruct (batchVerify_one_entry deployer 13 1 example_registered) as [H _].
  - reflexivity.
  - vm_compute. discriminate.
  - exact H.
Defined.

Lemma verify_runs (e : Env) (f b : N) (s : State) :
  paused s = false -> _locked s <> 1 ->
  b <> 0 -> exists_ (products_at s b) = true -> serialToBatch_at s f = b ->
  (serialVerified_at s f = false ->
     totalVerifications s < MAX_UINT256 /\ batchVerificationCount_at s b < MAX_UINT256) ->
  exists s', verify e f b s = Ok (negb (serialVerified_at s f), s').
Proof.
  intros Hrun Hlk Hb Hex Hm Hov.
  destruct (verify_body_runs e f b (set_locked 1 s) Hb Hex Hm Hov) as [s1 Hbody].
  exists (set_locked 0 s1).
  unfold verify, whenNotPaused. by rewrite Hrun, (nonReentrant_unlocked _ _ Hlk), Hbody.
Qed.

(** X15. Registration does not reset a fingerprint.  A successful
    [registerProduct] leaves every verified status and every history as it
    was, so the first [verify] of one of its fingerprints under the new
    batch is authentic exactly when that fingerprint had never been verified
    before, under whatever batch (counters below the largest [uint256]). *)
Theorem register_then_verify (e e' : Env) (b : uint256) (nm br : string)
    (hs : list N) (ip de im : string) (s s' : State) (f : bytes32) :
  registerProduct e b nm br hs ip de im s = Ok (tt, s') ->
  (forall h, isSerialVerified s' h = isSerialVerified s h /\
             getVerificationHistory s' h = getVerificationHistory s h) /\
  (f ∈ hs ->
   (isSerialVerified s f = false ->
      totalVerifications s < MAX_UINT256 /\ batchVerificationCount_at s b < MAX_UINT256) ->
   exists s'', verify e' f b s' = Ok (negb (isSerialVerified s f), s'')).
Proof.
  intros Hreg.
  pose proof (registerProduct_effect _ _ _ _ _ _ _ _ _ _ Hreg) as (Hp & _ & Hm & _).
  apply registerProduct_ok in Hreg as [(_ & Hrun & _ & Hb & _) ->].
  split; [intros h; split; reflexivity |].
  intros Hin Hov.
  match goal with
  | |- exists s'', verify _ _ _ ?st = _ =>
      change (isSerialVerified s f) with (serialVerified_at st f)
  end.
  apply verify_runs.
  - exact Hrun.
  - simpl. discriminate.
  - exact Hb.
  - by rewrite Hp.
  - by apply Hm.
  - exact Hov.
Qed.

Lemma register_then_verify_witness :
  exists s'', verify deployer 11 1 example_registered = Ok (true, s'').
Proof.
  destruct (register_then_verify deployer deployer 1 "Widget" "Acme" [11; 12]
              EmptyString EmptyString EmptyString (constructor deployer)
              example_registered 11) as [_ H].
  - vm_compute. reflexivity.
  - apply H; [constructor |]. intros _. split; reflexivity.
Defined.

(** ** Authorizations and ownership *)

(** What a successful [authorizeManufacturer] did. *)
Lemma authorizeManufacturer_ok (e : Env) (maker : N) (authorized : bool)
    (s s' : State) (u : unit) :
  authorizeManufacturer e maker authorized s = Ok (u, s') ->
  msg_sender e = owner s /\ _locked s <> 1 /\ maker <> 0 /\
  exists l', list_after s maker authorized l' /\
    s' = set_locked 0 (emit (ManufacturerAuthorized maker authorized)
           (set_manufacturerList l'
              (set_authorizedMakers (<[maker := authorized]> (authorizedMakers s))
                 (set_locked 1 s)))).
Proof.
  intros H. apply onlyOwner_ok in H as [Hown H].
  apply nonReentrant_ok in H as (Hlk & s1 & H & ->).
  unfold authorizeManufacturer_body in H.
  destruct (N.eqb_spec maker 0) as [|Hz]; [done |].
  change (authorizedMakers_at (set_locked 1 s) maker)
    with (authorizedMakers_at s maker) in H.
  repeat split; try done. unfold list_after. destruct u.
  destruct authorized, (authorizedMakers_at s maker); simpl in H.
  - injection H as <-. eexists. split; [reflexivity |]. by destruct s.
  - injection H as <-. eexists. split; reflexivity.
  - destruct (remove_loop _ _ _ _) as [l'|] eqn:Hloop; simpl in H; [| done].
    injection H as <-. exists l'. split; reflexivity.
  - injection H as <-. eexists. split; [reflexivity |]. by destruct s.
Qed.

Lemma remove_loop_runs (maker : N) (l : list N) :
  exists l', remove_loop maker (length l) 0 l = Ok l'.
Proof.
  destruct (remove_loop_spec maker l (length l) 0) as [[_ H]|(l' & H & _)];
    [lia | intros j Hj; lia | eauto | eauto].
Qed.

(** X17. [authorizeManufacturer] fails with [NotOwner] for a caller that is
    not the owner, and for the owner (guard unlocked) with [InvalidAddress]
    exactly when the address is zero; otherwise it succeeds: the removal
    loop never runs out of bounds.  A successful call sets the flag of the
    address it was given and appends its event; it changes neither the flag
    nor the number of list occurrences of any other address, so revoking one
    manufacturer never drops or duplicates another. *)
Theorem authorizeManufacturer_is_local (e : Env) (maker : address) (authorized : bool)
    (s : State) :
  (msg_sender e <> owner s ->
     authorizeManufacturer e maker authorized s = Revert NotOwner) /\
  (msg_sender e = owner s -> _locked s <> 1 ->
     (maker = 0 -> authorizeManufacturer e maker authorized s = Revert InvalidAddress) /\
     (maker <> 0 -> exists s', authorizeManufacturer e maker authorized s = Ok (tt, s'))) /\
  (forall s', authorizeManufacturer e maker authorized s = Ok (tt, s') ->
     authorizedMakers_at s' maker = authorized /\
     events s' = events s ++ [ManufacturerAuthorized maker authorized] /\
     owner s' = owner s /\ paused s' = paused s /\
     (forall a, a <> maker ->
        authorizedMakers_at s' a = authorizedMakers_at s a /\
        count_occ N.eq_dec (manufacturerList s') a =
          count_occ N.eq_dec (manufacturerList s) a)).
Proof.
  split; [| split].
  - intros Hne. unfold authorizeManufacturer, onlyOwner.
    destruct (N.eqb_spec (msg_sender e) (owner s)); [done | reflexivity].
  - intros Hown Hlk.
    unfold authorizeManufacturer, onlyOwner. rewrite Hown, N.eqb_refl. simpl.
    rewrite (nonReentrant_unlocked _ _ Hlk). unfold authorizeManufacturer_body.
    split.
    + intros ->. reflexivity.
    + intros Hz. destruct (N.eqb_spec maker 0); [done |].
      destruct authorized, (authorizedMakers_at (set_locked 1 s) maker); simpl; eauto.
      destruct (remove_loop_runs maker (manufacturerList s)) as [l' ->]. simpl. eauto.
  - intros s' H. apply authorizeManufacturer_ok in H as (_ & _ & Hz & l' & Hl & ->).
    unfold authorizedMakers_at. simpl. rewrite lookup_insert_eq. simpl.
    repeat split; try done.
    + by rewrite lookup_insert_ne.
    + unfold list_after in Hl.
      destruct authorized, (authorizedMakers_at s maker); subst; try done.
      * rewrite count_occ_app. simpl. destruct (N.eq_dec maker a); [congruence | lia].
      * destruct (remove_loop_spec maker (manufacturerList s)
                    (length (manufacturerList s)) 0)
          as [[_ Hsame]|(l2 & Hl2 & Hperm)]; [lia | intros j Hj; lia | |].
        { congruence. }
        assert (l2 = l') as -> by congruence.
        rewrite (Permutation_count_occ N.eq_dec) in Hperm. rewrite (Hperm a).
        by rewrite count_occ_cons_neq.
Qed.

Lemma authorizeManufacturer_is_local_witness :
  exists s', authorizeManufacturer deployer 7 true example_registered = Ok (tt, s').
Proof.
  destruct (authorizeManufacturer_is_local deployer 7 true example_registered)
    as (_ & H & _).
  destruct H as [_ H]; [reflexivity | vm_compute; discriminate |].
  apply H. discriminate.
Defined.

Lemma makers_ok_ext (s s' : State) :
  authorizedMakers s' = authorizedMakers s -> manufacturerList s' = manufacturerList s ->
  makers_ok s -> makers_ok s'.
Proof.
  intros Ha Hl [Hnd Hmem]. split; unfold authorizedMakers_at in *; rewrite ?Ha, ?Hl; auto.
Qed.

Lemma authorizeManufacturer_makers_ok (e : Env) (maker : N) (authorized : bool)
    (s s' : State) :
  makers_ok s -> authorizeManufacturer e maker authorized s = Ok (tt, s') ->
  makers_ok s'.
Proof.
  intros [Hnd Hmem] H. apply authorizeManufacturer_ok in H as (_ & _ & _ & l' & Hl & ->).
  unfold list_after in Hl.
  assert (Hflag : forall a, default false (<[maker := authorized]> (authorizedMakers s) !! a)
                  = if decide (a = maker) then authorized else authorizedMakers_at s a).
  { intros a. destruct (decide (a = maker)) as [->|Hne].
    - by rewrite lookup_insert_eq.
    - by rewrite lookup_insert_ne. }
  destruct authorized, (authorizedMakers_at s maker) eqn:Hauth; subst.
  - split; unfold authorizedMakers_at; simpl; [done |].
    intros a. rewrite Hflag. case_decide as Ha; [| apply Hmem].
    subst a. split; [done |]. intros _. by apply Hmem.
  - assert (Hnin : maker ∉ manufacturerList s).
    { intros Hin. apply Hmem in Hin. congruence. }
    split; unfold authorizedMakers_at; simpl.
    + apply NoDup_app. split; [done |]. split; [| apply NoDup_singleton].
      intros x Hx ->%list_elem_of_singleton. done.
    + intros a. rewrite Hflag, elem_of_app, list_elem_of_singleton.
      case_decide as Ha; [tauto |]. rewrite <- Hmem. tauto.
  - destruct (remove_loop_spec maker (manufacturerList s)
                (length (manufacturerList s)) 0)
      as [[Hnin _]|(l2 & Hl2 & Hperm)]; [lia | intros j Hj; lia | |].
    { exfalso. apply Hnin. by apply Hmem. }
    assert (l2 = l') as -> by congruence.
    rewrite Hperm in Hnd. apply NoDup_cons in Hnd as [Hnin Hnd'].
    split; unfold authorizedMakers_at; simpl; [done |].
    intros a. rewrite Hflag. case_decide as Ha.
    + subst a. split; [done | discriminate].
    + rewrite <- Hmem, Hperm, elem_of_cons. tauto.
  - split; unfold authorizedMakers_at; simpl; [done |].
    intros a. rewrite Hflag. case_decide as Ha; [| apply Hmem].
    subst a. rewrite Hmem, Hauth. done.
Qed.

Lemma exec_makers_ok (e : Env) (op : Op) (s s' : State) (r : Ret) :
  makers_ok s -> exec e op s = Ok (r, s') -> transfers op = false -> makers_ok s'.
Proof.
  intros Hok H Htr.
  destruct op as [mk au | b0 nm br hs0 ip de im | h0 b0 | nw | hs0 bs0 | | | b0 ip de im];
    try discriminate; simpl in H; apply returning_ok in H as (a & H & _).
  - destruct a. eapply authorizeManufacturer_makers_ok; eauto.
  - destruct a. apply registerProduct_ok in H as [_ ->]. by apply (makers_ok_ext s).
  - apply verify_ok in H as (_ & _ & s1 & [] & ->). by apply (makers_ok_ext s).
  - apply batchVerify_ok in H as (_ & _ & _ & s1 & H & ->).
    apply verify_entries_keeps in H as (_ & _ & _ & _ & ? & ? & _).
    by apply (makers_ok_ext s).
  - apply (makers_ok_ext s); [| | done];
      unfold_calls; repeat case_match; simplify_eq; reflexivity.
  - apply (makers_ok_ext s); [| | done];
      unfold_calls; repeat case_match; simplify_eq; reflexivity.
  - destruct a. apply updateProductMetadata_ok in H
      as (_ & _ & _ & _ & _ & ? & _ & _ & _ & _ & ? & _).
    by apply (makers_ok_ext s).
Qed.

Lemma constructor_makers_ok (d : Env) : makers_ok (constructor d).
Proof.
  split; simpl.
  - apply NoDup_singleton.
  - intros a. unfold authorizedMakers_at. simpl. rewrite list_elem_of_singleton.
    destruct (decide (a = msg_sender d)) as [->|Hne].
    + by rewrite lookup_insert_eq.
    + rewrite lookup_insert_ne by done. split; [done | discriminate].
Qed.

(** X16. As long as ownership has never been transferred, the manufacturer
    list returned by [getManufacturers] holds exactly the addresses whose
    authorization flag is set, each once; so the third component of
    [getStatistics] is the number of authorized manufacturers. *)
Theorem manufacturers_enumerated (d : Env) (tr : list (Env * Op)) :
  never_transferred tr (constructor d) = true ->
  NoDup (getManufacturers (run tr (constructor d))) /\
  (forall a, a ∈ getManufacturers (run tr (constructor d)) <->
             authorizedMakers_at (run tr (constructor d)) a = true) /\
  snd (getStatistics (run tr (constructor d))) =
    N.of_nat (length (getManufacturers (run tr (constructor d)))).
Proof.
  intros Hnever.
  assert (Hok : makers_ok (run tr (constructor d))).
  { pose proof (constructor_makers_ok d) as H0.
    revert H0 Hnever. generalize (constructor d).
    induction tr as [|[e op] tr IH]; intros s Hs Hnever; simpl in *; [done |].
    unfold step. simpl.
    destruct (exec e op s) as [[r s1]|] eqn:Hex; [| by apply IH].
    apply andb_true_iff in Hnever as [Htr Hnever]. apply negb_true_iff in Htr.
    apply IH; [| done]. eapply exec_makers_ok; eauto. }
  destruct Hok as [Hnd Hmem]. split; [exact Hnd |]. split; [exact Hmem | reflexivity].
Qed.

Lemma manufacturers_enumerated_witness :
  NoDup (getManufacturers
           (run [(deployer, OpAuthorizeManufacturer 7 true)] (constructor deployer))).
Proof.
  destruct (manufacturers_enumerated deployer [(deployer, OpAuthorizeManufacturer 7 true)])
    as (H & _).
  - vm_compute. reflexivity.
  - exact H.
Defined.

(** X18. Handing over ownership.  [transferOwnership] succeeds exactly when
    the caller is the owner (guard unlocked) and the new owner is neither
    the zero address nor the current owner.  After a successful transfer
    the previous owner is rejected with [NotOwner] by every owner-only entry
    point and with [NotAuthorized] by both manufacturer-only entry points,
    while the new owner passes both checks. *)
Theorem transferOwnership_hands_over (e : Env) (newOwner : address) (s : State) :
  ((exists s', transferOwnership e newOwner s = Ok (tt, s')) <->
     msg_sender e = owner s /\ _locked s <> 1 /\ newOwner <> 0 /\ newOwner <> owner s) /\
  (forall s', transferOwnership e newOwner s = Ok (tt, s') ->
     (forall a b, authorizeManufacturer e a b s' = Revert NotOwner) /\
     (forall a, transferOwnership e a s' = Revert NotOwner) /\
     pause e s' = Revert NotOwner /\ unpause e s' = Revert NotOwner /\
     (forall b nm br hs ip de im,
        registerProduct e b nm br hs ip de im s' = Revert NotAuthorized) /\
     (forall b ip de im, updateProductMetadata e b ip de im s' = Revert NotAuthorized) /\
     owner s' = newOwner /\ authorizedMakers_at s' newOwner = true /\
     _locked s' = 0 /\ paused s' = paused s).
Proof.
  split.
  - split.
    + intros [s' H]. apply onlyOwner_ok in H as [Hown H].
      apply nonReentrant_ok in H as (Hlk & s1 & H & _).
      unfold transferOwnership_body in H. simpl in H.
      destruct (N.eqb_spec newOwner 0); [done |].
      destruct (N.eqb_spec newOwner (owner s)); [done |]. auto.
    + intros (Hown & Hlk & Hz & Hne).
      unfold transferOwnership, onlyOwner. rewrite Hown, N.eqb_refl. simpl.
      rewrite (nonReentrant_unlocked _ _ Hlk). unfold transferOwnership_body. simpl.
      destruct (N.eqb_spec newOwner 0); [done |].
      destruct (N.eqb_spec newOwner (owner s)); [congruence |]. eauto.
  - intros s' H.
    pose proof (transferOwnership_ok _ _ _ _ _ H)
      as (Hown & Hz & Hne & Ho & Hold & Hnew & _).
    assert (Hnot : (msg_sender e =? owner s') = false).
    { apply N.eqb_neq. congruence. }
    assert (Hunauth : authorizedMakers_at s' (msg_sender e) = false) by congruence.
    apply onlyOwner_ok in H as [_ H]. apply nonReentrant_ok in H as (_ & s1 & H & ->).
    unfold transferOwnership_body in H.
    destruct (newOwner =? 0); [done |]. destruct (newOwner =? owner _); [done |].
    injection H as <-.
    repeat split; try done;
      unfold authorizeManufacturer, transferOwnership, pause, unpause, registerProduct,
        updateProductMetadata, onlyOwner, onlyMaker; intros;
      rewrite ?Hnot, ?Hunauth; reflexivity.
Qed.

Lemma transferOwnership_hands_over_witness :
  exists s', transferOwnership deployer 2 example_registered = Ok (tt, s').
Proof.
  destruct (transferOwnership_hands_over deployer 2 example_registered) as [[_ H] _].
  apply H. repeat split; try reflexivity; vm_compute; discriminate.
Defined.

(** The owner changes only by a successful [transferOwnership], to a nonzero
    address. *)
Lemma exec_owner (e : Env) (op : Op) (s s' : State) (r : Ret) :
  exec e op s = Ok (r, s') -> owner s' = owner s \/ owner s' <> 0.
Proof.
  intros H.
  destruct op as [mk au | b0 nm br hs0 ip de im | h0 b0 | nw | hs0 bs0 | | | b0 ip de im];
    simpl in H; apply returning_ok in H as (a & H & _).
  - left. destruct a. by apply authorizeManufacturer_ok in H as (_ & _ & _ & l' & _ & ->).
  - left. destruct a. by apply registerProduct_ok in H as [_ ->].
  - left. by apply verify_ok in H as (_ & _ & s1 & [] & ->).
  - right. destruct a. apply transferOwnership_ok in H as (_ & ? & _ & -> & _). done.
  - left. apply batchVerify_ok in H as (_ & _ & _ & s1 & H & ->).
    by apply verify_entries_keeps in H as (_ & _ & _ & ? & _).
  - left. unfold_calls. repeat case_match; simplify_eq; reflexivity.
  - left. unfold_calls. repeat case_match; simplify_eq; reflexivity.
  - left. destruct a.
    by apply updateProductMetadata_ok in H as (_ & _ & _ & _ & _ & _ & ? & _).
Qed.

(** X19. If the deployer is not the zero address, the owner is never the zero
    address, whatever calls are made: the contract cannot be left without an
    owner. *)
Theorem owner_never_zero (d : Env) (tr : list (Env * Op)) :
  msg_sender d <> 0 -> owner (run tr (constructor d)) <> 0.
Proof.
  intros Hd.
  assert (H0 : owner (constructor d) <> 0) by exact Hd.
  revert H0. generalize (constructor d).
  induction tr as [|[e op] tr IH]; intros s Hs; simpl; [done |].
  apply IH. unfold step. simpl.
  destruct (exec e op s) as [[r s1]|] eqn:Hex; [| done].
  destruct (exec_owner _ _ _ _ _ Hex) as [->|?]; done.
Qed.

Lemma owner_never_zero_witness :
  owner (run [(deployer, OpTransferOwnership 2)] (constructor deployer)) <> 0.
Proof. apply owner_never_zero. discriminate. Defined.

(** X20. Pausing and unpausing.  From a running storage at rest the owner's
    [pause] followed by the owner's [unpause] both succeed and leave the
    whole storage as it was, except for the two [Paused] events appended to
    the log. *)
Theorem pause_unpause_round_trip (e1 e2 : Env) (s : State) :
  msg_sender e1 = owner s -> msg_sender e2 = owner s ->
  paused s = false -> _locked s = 0 ->
  exists s1,
    pause e1 s = Ok (tt, s1) /\ paused s1 = true /\
    unpause e2 s1 = Ok (tt, emit (Paused false) (emit (Paused true) s)).
Proof.
  intros Hown1 Hown2 Hrun Hlk.
  exists (set_locked 0 (emit (Paused true) (set_paused true s))).
  unfold pause, unpause, onlyOwner, whenNotPaused, whenPaused, nonReentrant,
    pause_body, unpause_body.
  simpl. rewrite Hown1, Hown2, N.eqb_refl, Hrun, Hlk. simpl.
  repeat split. destruct s. simpl in *. by subst.
Qed.

Lemma pause_unpause_round_trip_witness :
  exists s1,
    pause deployer example_registered = Ok (tt, s1) /\ paused s1 = true /\
    unpause deployer s1 =
      Ok (tt, emit (Paused false) (emit (Paused true) example_registered)).
Proof. apply pause_unpause_round_trip; reflexivity. Defined.

(** ** Metadata updates *)

(** X21. An [updateProductMetadata] call with three empty strings, on a
    storage at rest, succeeds for a registered batch and changes nothing at
    all; and repeating any successful update with the same arguments
    succeeds again and changes nothing. *)
Theorem updateProductMetadata_idempotent (e e' : Env) (b : uint256)
    (ip de im : string) (s : State) :
  (authorizedMakers_at s (msg_sender e) = true -> paused s = false -> _locked s = 0 ->
   b <> 0 -> exists_ (products_at s b) = true ->
   updateProductMetadata e b EmptyString EmptyString EmptyString s = Ok (tt, s)) /\
  (forall s1, updateProductMetadata e b ip de im s = Ok (tt, s1) ->
     authorizedMakers_at s (msg_sender e') = true ->
     updateProductMetadata e' b ip de im s1 = Ok (tt, s1)).
Proof.
  split.
  - intros Hauth Hrun Hlk Hb Hex.
    unfold updateProductMetadata, onlyMaker, whenNotPaused, nonReentrant,
      updateProductMetadata_body.
    rewrite Hauth, Hrun, Hlk. simpl.
    destruct (N.eqb_spec b 0); [done |].
    change (products_at (set_locked 1 s) b) with (products_at s b). rewrite Hex. simpl.
    destruct s. simpl in *. by subst.
  - intros s1 H Hauth'.
    apply onlyMaker_ok in H as [_ H]. apply whenNotPaused_ok in H as [Hrun H].
    apply nonReentrant_ok in H as (Hlk & s0 & H & ->).
    unfold updateProductMetadata_body in H.
    destruct (N.eqb_spec b 0) as [|Hb]; [done |].
    change (products_at (set_locked 1 s) b) with (products_at s b) in H.
    destruct (exists_ (products_at s b)) eqn:Hex; [| done].
    cbv zeta in H. cbn [negb] in H. injection H as <-.
    unfold updateProductMetadata, onlyMaker, whenNotPaused, nonReentrant,
      updateProductMetadata_body.
    destruct (N.eqb_spec b 0); [done |].
    destruct (products_at s b) as [pn pb pe pr pi pd pm] eqn:Hp. simpl in Hex. subst pe.
    unfold products_at, authorizedMakers_at in *.
    destruct (is_empty ip), (is_empty de), (is_empty im); cbn [negb]; simpl;
      rewrite ?Hauth', ?Hrun; simpl;
      rewrite ?lookup_insert_eq, ?Hp; simpl;
      rewrite ?lookup_insert_eq; simpl;
      rewrite ?insert_insert_eq; reflexivity.
Qed.

Lemma updateProductMetadata_idempotent_witness :
  updateProductMetadata deployer 1 EmptyString EmptyString EmptyString example_registered =
    Ok (tt, example_registered).
Proof.
  destruct (updateProductMetadata_idempotent deployer deployer 1 EmptyString EmptyString
              EmptyString example_registered) as [H _].
  apply H; try reflexivity; discriminate.
Defined.

(** ** Counters and memberships over time *)

Lemma verify_entries_counters (e : Env) (hs bs : list N) :
  forall (s s' : State) (rs : list bool),
    verify_entries e hs bs s = Ok (rs, s') ->
    totalVerifications s <= totalVerifications s' /\
    (forall b, batchVerificationCount_at s b <= batchVerificationCount_at s' b).
Proof.
  revert bs. induction hs as [|h hs IH]; intros bs s s' rs; simpl.
  - intros [= <- <-]. split; [lia | intros; lia].
  - destruct bs as [|b bs]; [intros [= <- <-]; split; [lia | intros; lia] |].
    destruct (verify_entry e h b s) as [[r s1]|] eqn:Hent; simpl; [| done].
    destruct (verify_entries e hs bs s1) as [[rs1 s2]|] eqn:Hrest; simpl; [| done].
    intros [= <- <-]. simpl.
    apply IH in Hrest as [Ht Hc].
    apply verify_entry_ok in Hent as [(_ & _ & ->)|[_ []]]; [done |].
    split.
    + rewrite ve_total0 in Ht. destruct r; lia.
    + intros b'. specialize (Hc b'). destruct (decide (b' = b)) as [->|Hne].
      * rewrite ve_count0 in Hc. destruct r; lia.
      * by rewrite ve_count_other0 in Hc.
Qed.

Lemma exec_counters (e : Env) (op : Op) (s s' : State) (r : Ret) :
  exec e op s = Ok (r, s') ->
  totalProducts s <= totalProducts s' /\
  totalVerifications s <= totalVerifications s' /\
  (forall b, batchVerificationCount_at s b <= batchVerificationCount_at s' b) /\
  (forall f, serialToBatch_at s f <> 0 -> serialToBatch_at s' f <> 0).
Proof.
  intros H.
  assert (Hsame : totalProducts s' = totalProducts s ->
    totalVerifications s' = totalVerifications s ->
    batchVerificationCount s' = batchVerificationCount s ->
    serialToBatch s' = serialToBatch s ->
    totalProducts s <= totalProducts s' /\
    totalVerifications s <= totalVerifications s' /\
    (forall b, batchVerificationCount_at s b <= batchVerificationCount_at s' b) /\
    (forall f, serialToBatch_at s f <> 0 -> serialToBatch_at s' f <> 0)).
  { intros Hp Hv Hc Hm. unfold batchVerificationCount_at, serialToBatch_at.
    rewrite Hp, Hv, Hc, Hm. repeat split; try lia; auto; intros; lia. }
  pose proof (admin_frame _ _ _ _ _ H) as Hadm.
  destruct op as [mk au | b0 nm br hs0 ip de im | h0 b0 | nw | hs0 bs0 | | | b0 ip de im];
    try (apply Hsame; tauto);
    simpl in H; apply returning_ok in H as (a & H & _).
  - destruct a. apply registerProduct_ok in H as [(_ & _ & _ & Hb & _) ->].
    unfold batchVerificationCount_at, serialToBatch_at. simpl.
    repeat split; try lia; try (intros; lia).
    intros f Hf. rewrite foldl_insert_lookup. by case_bool_decide.
  - apply verify_ok in H as (_ & _ & s1 & [] & ->).
    unfold serialToBatch_at. simpl. rewrite ve_serialToBatch0, ve_totalProducts0.
    simpl. repeat split; try lia; auto.
    + rewrite ve_total0. simpl. destruct a; lia.
    + intros b'. change (batchVerificationCount_at (set_locked 0 s1) b')
        with (batchVerificationCount_at s1 b').
      destruct (decide (b' = b0)) as [->|Hne].
      * rewrite ve_count0.
        change (batchVerificationCount_at (set_locked 1 s) b0)
          with (batchVerificationCount_at s b0). destruct a; lia.
      * rewrite ve_count_other0 by done. reflexivity.
  - apply batchVerify_ok in H as (_ & _ & _ & s1 & H & ->).
    pose proof (verify_entries_keeps _ _ _ _ _ _ H) as (_ & Hm & Ht & _).
    apply verify_entries_counters in H as [Hv Hc].
    unfold serialToBatch_at. simpl in *. rewrite Hm, Ht.
    repeat split; try lia; auto.
  - destruct a. apply updateProductMetadata_ok in H
      as (_ & _ & _ & _ & ? & _ & _ & ? & ? & ? & _). by apply Hsame.
Qed.

(** X22. The statistics never go backwards and registrations are permanent:
    along any sequence of calls [totalProducts], [totalVerifications] and
    every per-batch verification count never decrease, and a fingerprint
    that is recorded under some batch stays recorded under some batch. *)
Theorem counters_never_decrease (tr : list (Env * Op)) (s : State) :
  totalProducts s <= totalProducts (run tr s) /\
  totalVerifications s <= totalVerifications (run tr s) /\
  (forall b, batchVerificationCount_at s b <= batchVerificationCount_at (run tr s) b) /\
  (forall f, serialToBatch_at s f <> 0 -> serialToBatch_at (run tr s) f <> 0).
Proof.
  revert s. induction tr as [|[e op] tr IH]; intros s; simpl.
  - repeat split; try lia; auto; intros; lia.
  - unfold step. simpl.
    destruct (exec e op s) as [[r s1]|] eqn:Hex; [| apply IH].
    destruct (exec_counters _ _ _ _ _ Hex) as (Hp & Hv & Hc & Hm).
    destruct (IH s1) as (Hp' & Hv' & Hc' & Hm').
    repeat split; try lia; auto.
    intros b. specialize (Hc b). specialize (Hc' b). lia.
Qed.

Lemma counters_never_decrease_witness :
  serialToBatch_at (run [(deployer, OpVerify 11 1)] example_registered) 11 <> 0.
Proof.
  destruct (counters_never_decrease [(deployer, OpVerify 11 1)] example_registered)
    as (_ & _ & _ & H).
  apply H. vm_compute. discriminate.
Defined.

(** ** The reentrancy guard *)

(** X23. Every successful call releases the reentrancy guard, and while the
    guard is held no call succeeds: the storage then cannot change. *)
Theorem guard_released_or_call_rejected (e : Env) (op : Op) (s : State) :
  (forall r s', exec e op s = Ok (r, s') -> _locked s <> 1 /\ _locked s' = 0) /\
  (_locked s = 1 -> exists err, exec e op s = Revert err) /\
  (_locked s = 1 -> step (e, op) s = s).
Proof.
  assert (Hrel : forall r s', exec e op s = Ok (r, s') -> _locked s <> 1 /\ _locked s' = 0).
  { intros r s' H.
    destruct op as [mk au | b0 nm br hs0 ip de im | h0 b0 | nw | hs0 bs0 | | | b0 ip de im];
      simpl in H; apply returning_ok in H as (a & H & _);
      repeat first
        [ apply onlyOwner_ok in H as [_ H]
        | apply onlyMaker_ok in H as [_ H]
        | apply whenNotPaused_ok in H as [_ H]
        | apply whenPaused_ok in H as [_ H] ];
      apply nonReentrant_ok in H as (Hlk & s1 & _ & ->); by split. }
  split; [exact Hrel |]. split.
  - intros Hlk. destruct (exec e op s) as [[r s']|err]; [| eauto].
    by destruct (Hrel r s' eq_refl) as [? _].
  - intros Hlk. unfold step. simpl.
    destruct (exec e op s) as [[r s']|err]; [| done].
    by destruct (Hrel r s' eq_refl) as [? _].
Qed.

Lemma guard_released_or_call_rejected_witness :
  step (deployer, OpVerify 11 1) (set_locked 1 example_registered) =
    set_locked 1 example_registered.
Proof.
  destruct (guard_released_or_call_rejected deployer (OpVerify 11 1)
              (set_locked 1 example_registered)) as (_ & _ & H).
  apply H. reflexivity.
Defined.

(** ** The event log against the storage *)

Lemma count_events_app (p : Event -> bool) (l1 l2 : list Event) :
  count_events p (l1 ++ l2) = count_events p l1 + count_events p l2.
Proof. unfold count_events. rewrite List.filter_app, length_app. lia. Qed.

(** Events other than [Verified] and [ProductRegistered] leave the agreement
    alone. *)
Lemma events_ok_quiet (s s' : State) (l : list Event) :
  events s' = events s ++ l ->
  Forall (fun ev => match ev with
                    | Verified _ _ _ _ _ | ProductRegistered _ _ _ _ => False
                    | _ => True
                    end) l ->
  totalVerifications s' = totalVerifications s ->
  batchVerificationCount s' = batchVerificationCount s ->
  totalProducts s' = totalProducts s ->
  verificationHistory s' = verificationHistory s ->
  events_ok s -> events_ok s'.
Proof.
  intros Hev Hl Ht Hc Hp Hh [H1 H2 H3 H4].
  assert (Hcount : forall p, (forall ev, p ev = true ->
              match ev with
              | Verified _ _ _ _ _ | ProductRegistered _ _ _ _ => True
              | _ => False
              end) -> count_events p l = 0).
  { clear Hev. intros p Hp'. unfold count_events.
    induction Hl as [|ev l Hev' Hl IH]; simpl; [done |].
    destruct (p ev) eqn:Hpe; [| exact IH].
    apply Hp' in Hpe. by destruct ev. }
  assert (Homap : forall f, omap (record_of f) l = []).
  { clear Hev Hcount. intros f. induction Hl as [|ev l Hev' Hl IH]; simpl; [done |].
    destruct ev; try done; apply IH. }
  split; unfold batchVerificationCount_at, verificationHistory_at in *;
    intros; rewrite Hev, ?Ht, ?Hc, ?Hp, ?Hh, ?count_events_app, ?omap_app, ?Homap,
      ?app_nil_r; auto;
    rewrite Hcount; rewrite ?N.add_0_r; auto;
    intros ev; destruct ev; simpl; try done.
Qed.

Lemma count_events_one (p : Event -> bool) (ev : Event) :
  count_events p [ev] = if p ev then 1 else 0.
Proof. unfold count_events. simpl. by destruct (p ev). Qed.

Lemma verify_body_events_ok (e : Env) (h b : N) (s s' : State) (r : bool) :
  events_ok s -> verify_body e h b s = Ok (r, s') -> events_ok s'.
Proof.
  intros [H1 H2 H3 H4] Hbody. apply verify_body_state in Hbody. subst s'.
  assert (Hhist : forall f,
    omap (record_of f)
      (events s ++ [Verified h b r (msg_sender e) (block_timestamp e)]) =
    default [] (<[h := verificationHistory_at s h ++
                   [mkVerificationRecord h b (msg_sender e) (block_timestamp e) r]]>
                 (verificationHistory s) !! f)).
  { intros f. rewrite omap_app, H4. simpl.
    destruct (N.eqb_spec h f) as [->|Hne].
    - by rewrite lookup_insert_eq.
    - rewrite lookup_insert_ne by done. by rewrite app_nil_r. }
  destruct r; split; unfold batchVerificationCount_at, verificationHistory_at in *; simpl;
    intros; rewrite ?count_events_app, ?count_events_one; simpl;
    rewrite ?H1, ?H2, ?H3; try lia; try apply Hhist.
  destruct (N.eqb_spec b b0) as [->|Hne].
  - rewrite lookup_insert_eq. simpl. lia.
  - rewrite lookup_insert_ne by done. lia.
Qed.

Lemma verify_entries_events_ok (e : Env) (hs bs : list N) :
  forall (s s' : State) (rs : list bool),
    events_ok s -> verify_entries e hs bs s = Ok (rs, s') -> events_ok s'.
Proof.
  revert bs. induction hs as [|h hs IH]; intros bs s s' rs Hok; simpl.
  - by intros [= <- <-].
  - destruct bs as [|b bs]; [by intros [= <- <-] |].
    destruct (verify_entry e h b s) as [[r s1]|] eqn:Hent; simpl; [| done].
    destruct (verify_entries e hs bs s1) as [[rs1 s2]|] eqn:Hrest; simpl; [| done].
    intros [= <- <-]. simpl. eapply IH; [| exact Hrest].
    unfold verify_entry in Hent. destruct (entry_rejected s h b).
    + by injection Hent as <- <-.
    + eapply verify_body_events_ok; eauto.
Qed.

Lemma events_ok_ext (s s' : State) :
  events s' = events s -> totalVerifications s' = totalVerifications s ->
  batchVerificationCount s' = batchVerificationCount s ->
  totalProducts s' = totalProducts s ->
  verificationHistory s' = verificationHistory s ->
  events_ok s -> events_ok s'.
Proof.
  intros He Ht Hc Hp Hh Hok.
  apply (events_ok_quiet s s' []); try done. by rewrite app_nil_r.
Qed.

(** Every successful call keeps the event log in agreement with the storage. *)
Lemma exec_events_ok (e : Env) (op : Op) (s s' : State) (r : Ret) :
  events_ok s -> exec e op s = Ok (r, s') -> events_ok s'.
Proof.
  intros Hok H.
  destruct op as [mk au | b0 nm br hs0 ip de im | h0 b0 | nw | hs0 bs0 | | | b0 ip de im];
    simpl in H; apply returning_ok in H as (a & H & _).
  - destruct a. apply authorizeManufacturer_ok in H as (_ & _ & _ & l' & _ & ->).
    apply (events_ok_quiet s _ [ManufacturerAuthorized mk au]);
      first [reflexivity | done | repeat (apply List.Forall_cons; [exact I |]); apply List.Forall_nil].
  - destruct a. apply registerProduct_ok in H as [_ ->].
    destruct Hok as [H1 H2 H3 H4].
    split; unfold batchVerificationCount_at, verificationHistory_at in *; simpl;
      intros; rewrite ?count_events_app, ?count_events_one, ?omap_app; simpl;
      rewrite ?H1, ?H2, ?H3, ?H4, ?app_nil_r; try lia; done.
  - apply whenNotPaused_ok in H as [_ H].
    apply nonReentrant_ok in H as (_ & s1 & H & ->).
    apply (events_ok_ext s1); try reflexivity.
    eapply verify_body_events_ok; [| exact H]. by apply (events_ok_ext s).
  - destruct a.
    pose proof (transferOwnership_ok _ _ _ _ _ H) as (_ & _ & _ & _ & _ & _ & _ & Hev).
    apply onlyOwner_ok in H as [_ H]. apply nonReentrant_ok in H as (_ & s1 & H & ->).
    unfold transferOwnership_body in H.
    destruct (nw =? 0); [done |]. destruct (nw =? owner _); [done |].
    injection H as <-.
    apply (events_ok_quiet s _ _ Hev);
      first [reflexivity | done | repeat (apply List.Forall_cons; [exact I |]); apply List.Forall_nil].
  - apply batchVerify_ok in H as (_ & _ & _ & s1 & H & ->).
    apply (events_ok_ext s1); try reflexivity.
    eapply verify_entries_events_ok; [| exact H]. by apply (events_ok_ext s).
  - destruct a. apply onlyOwner_ok in H as [_ H]. apply whenNotPaused_ok in H as [_ H].
    apply nonReentrant_ok in H as (_ & s1 & H & ->). injection H as <-.
    apply (events_ok_quiet s _ [Paused true]);
      first [reflexivity | done | repeat (apply List.Forall_cons; [exact I |]); apply List.Forall_nil].
  - destruct a. apply onlyOwner_ok in H as [_ H]. apply whenPaused_ok in H as [_ H].
    apply nonReentrant_ok in H as (_ & s1 & H & ->). injection H as <-.
    apply (events_ok_quiet s _ [Paused false]);
      first [reflexivity | done | repeat (apply List.Forall_cons; [exact I |]); apply List.Forall_nil].
  - destruct a. apply updateProductMetadata_ok in H
      as (_ & _ & _ & _ & _ & _ & _ & ? & ? & ? & _ & _ & ? & ?).
    by apply (events_ok_ext s).
Qed.

Lemma constructor_events_ok (d : Env) : events_ok (constructor d).
Proof. by split. Qed.

(** X24. The event log is a faithful feed.  In every storage reachable from a
    deployment, the [Verified] events with [isAuthentic = true] number
    [totalVerifications]; those for batch [b] number its verification count;
    the [ProductRegistered] events number [totalProducts]; and the history
    of every fingerprint is exactly the sequence of its [Verified] events,
    field for field. *)
Theorem events_mirror_storage (d : Env) (tr : list (Env * Op)) :
  count_events authentic_event (events (run tr (constructor d))) =
    totalVerifications (run tr (constructor d)) /\
  (forall b, count_events (authentic_event_of b) (events (run tr (constructor d))) =
             batchVerificationCount_at (run tr (constructor d)) b) /\
  count_events registration_event (events (run tr (constructor d))) =
    totalProducts (run tr (constructor d)) /\
  (forall f, omap (record_of f) (events (run tr (constructor d))) =
             getVerificationHistory (run tr (constructor d)) f).
Proof.
  assert (Hok : events_ok (run tr (constructor d))).
  { pose proof (constructor_events_ok d) as H0. revert H0. generalize (constructor d).
    induction tr as [|[e op] tr IH]; intros s Hs; simpl; [done |].
    apply IH. unfold step. simpl.
    destruct (exec e op s) as [[r s1]|] eqn:Hex; [| done].
    eapply exec_events_ok; eauto. }
  destruct Hok as [H1 H2 H3 H4]. auto.
Qed.
